(** * PhoneSplat capture server: session statistics, frame processing and
      capture validation

    A shallow embedding of [server/frame_processor.py], [server/config.py],
    [server/validate_capture.py], the message handlers of
    [server/websocket_server.py], the session preparation of
    [server/monogs_bridge.py] and the packets of [server/test_client.py],
    with the properties of the capture pipeline stated and proved over it.

    Conventions.
    - Python [float] is IEEE binary64: Rocq's primitive [float].
    - Python [int] is [Z]; lengths and counters that the code only ever
      increments are [nat].
    - [time.time()] is an explicit argument [now]; the clock reads of one
      call are taken at that one instant.
    - The file system is an explicit value: a session directory is described
      by what the code reads from it.
    - A message is the JSON value it carries: what [json.dumps] writes,
      [json.loads] reads back. *)

From Stdlib Require Import ZArith List String Ascii Bool Lia Floats DecimalString.
From Stdlib Require OrderedTypeEx DecimalN.
From stdpp Require Import base option list sorting gmap strings.
Import ListNotations.

#[local] Open Scope string_scope.
#[local] Open Scope list_scope.
#[local] Open Scope Z_scope.

(* ===================================================================== *)
(** * The Python runtime, as far as the server uses it *)
(* ===================================================================== *)

Module Py.

(** ** Numbers *)

(** [float(n)] for an [int] [n]: the nearest binary64, ties to even.
    (CPython raises [OverflowError] above the largest finite float; the
    counters converted here are far below it.) *)
Definition float_of_Z (z : Z) : float :=
  SF2Prim (binary_normalize prec emax z 0 false).

Definition float_of_nat (n : nat) : float := float_of_Z (Z.of_nat n).

(** The binary64 nearest to [p / q] (ties to even) for [p, q > 0], signed
    by [neg]: the quotient is taken with more than 64 significant bits and
    a sticky bit, then rounded once. *)
Definition float_of_ratio (neg : bool) (p q : Z) : float :=
  if (p <=? 0) || (q <=? 0) then (if neg then neg_zero else zero)
  else
    let s := Z.max 0 (66 + Z.log2 q - Z.log2 p) in
    let n := p * 2 ^ s in
    let m := 2 * (n / q) + (if n mod q =? 0 then 0 else 1) in
    SF2Prim (binary_normalize prec emax (if neg then - m else m) (- s - 1) neg).

(** Python's [x / y] on floats raises [ZeroDivisionError] when [y] is a
    zero; otherwise it is the IEEE quotient. *)
Definition div (x y : float) : option float :=
  if PrimFloat.eqb y 0 then None else Some (x / y)%float.

(** [x > y], [x < y], [x <= y] on floats (false when either is NaN). *)
Definition gt (x y : float) : bool := PrimFloat.ltb y x.
Definition lt (x y : float) : bool := PrimFloat.ltb x y.
Definition le (x y : float) : bool := PrimFloat.leb x y.

(** [sum(l)] over floats: the running total starts at the integer [0] and
    is added to left to right.  (From CPython 3.12 on the float loop is
    compensated; no statement below depends on the summation order.) *)
Definition sum (l : list float) : float :=
  fold_left PrimFloat.add l 0%float.

(** [min(l)] and [max(l)] on a non-empty list: the first element is kept
    unless a later one compares strictly below (above) it. *)
Definition min_from (x : float) (l : list float) : float :=
  fold_left (fun m y => if lt y m then y else m) l x.
Definition max_from (x : float) (l : list float) : float :=
  fold_left (fun m y => if gt y m then y else m) l x.

Definition min (l : list float) : option float :=
  match l with [] => None | x :: r => Some (min_from x r) end.
Definition max (l : list float) : option float :=
  match l with [] => None | x :: r => Some (max_from x r) end.

(** [l[-k:]]: the last [k] elements (all of them when there are fewer). *)
Definition last_n {A} (k : nat) (l : list A) : list A :=
  skipn (length l - k) l.

(** ** Characters and strings *)

Definition is_digit (c : ascii) : bool :=
  let n := N_of_ascii c in ((48 <=? n) && (n <=? 57))%N.

Definition digit_val (c : ascii) : Z := Z.of_N (N_of_ascii c) - 48.

(** ASCII white space as [str.strip()] and [float()] see it. *)
Definition is_space (c : ascii) : bool :=
  let n := N_of_ascii c in
  (((9 <=? n) && (n <=? 13)) || ((28 <=? n) && (n <=? 32)))%N.

Definition lower (c : ascii) : ascii :=
  let n := N_of_ascii c in
  if ((65 <=? n) && (n <=? 90))%N then ascii_of_N (n + 32) else c.

Fixpoint lstrip (l : list ascii) : list ascii :=
  match l with
  | c :: r => if is_space c then lstrip r else l
  | [] => []
  end.

Definition strip (l : list ascii) : list ascii :=
  rev (lstrip (rev (lstrip l))).

(** [s.endswith(suf)] and [s.startswith(pre)]. *)
Definition startswith (s pre : string) : bool := String.prefix pre s.

Definition endswith (s suf : string) : bool :=
  let n := String.length s in
  let k := String.length suf in
  (k <=? n)%nat && String.eqb (String.substring (n - k) k s) suf.

(** [s.rfind(".")]: position of the last dot. *)
Fixpoint rfind_dot_from (i : nat) (l : list ascii) (found : option nat)
  : option nat :=
  match l with
  | [] => found
  | c :: r =>
      rfind_dot_from (S i) r (if Ascii.eqb c "." then Some i else found)
  end.

Definition rfind_dot (s : string) : option nat :=
  rfind_dot_from 0 (list_ascii_of_string s) None.

(** [Path(name).stem]: the name without its last suffix; a leading or a
    trailing dot starts no suffix. *)
Definition stem (name : string) : string :=
  match rfind_dot name with
  | Some i =>
      if (0 <? i)%nat && (i <? String.length name - 1)%nat
      then String.substring 0 i name
      else name
  | None => name
  end.

(** ** Sorting *)

(** [sorted(l)] on strings (and on paths of one directory, which compare as
    their names do): ascending by code point, stable. *)
Fixpoint insert_sorted (x : string) (l : list string) : list string :=
  match l with
  | [] => [x]
  | y :: r => if String.leb x y then x :: l else y :: insert_sorted x r
  end.

Definition sorted (l : list string) : list string :=
  fold_right insert_sorted [] l.

(** [sorted(l, key=k, reverse=True)]: descending by key, stable (equal keys
    keep their order). *)
Fixpoint insert_desc {A} (k : A -> string) (x : A) (l : list A) : list A :=
  match l with
  | [] => [x]
  | y :: r =>
      if String.leb (k y) (k x) then x :: l else y :: insert_desc k x r
  end.

Definition sorted_desc {A} (k : A -> string) (l : list A) : list A :=
  fold_right (insert_desc k) [] l.

(** The orders the two sorts establish: ascending, and descending by
    key. *)
Definition str_le (a b : string) : Prop := String.leb a b = true.

Definition desc_by {A} (k : A -> string) (a b : A) : Prop :=
  String.leb (k b) (k a) = true.

(** ** [float(s)]: text to float *)

(** A run of digits in which single underscores may separate digits;
    returns the value, the number of digits and the unread rest. *)
Fixpoint digit_run (l : list ascii) (acc n : Z) {struct l}
  : Z * Z * list ascii :=
  match l with
  | c :: r =>
      if is_digit c then digit_run r (10 * acc + digit_val c) (n + 1)
      else if Ascii.eqb c "_" then
        match r with
        | d :: r' =>
            if is_digit d then digit_run r' (10 * acc + digit_val d) (n + 1)
            else (acc, n, l)
        | [] => (acc, n, l)
        end
      else (acc, n, l)
  | [] => (acc, n, l)
  end.

Definition digitpart_from (acc : Z) (l : list ascii)
  : option (Z * Z * list ascii) :=
  match l with
  | c :: r =>
      if is_digit c then Some (digit_run r (10 * acc + digit_val c) 1)
      else None
  | [] => None
  end.

Definition sign (l : list ascii) : bool * list ascii :=
  match l with
  | c :: r =>
      if Ascii.eqb c "-" then (true, r)
      else if Ascii.eqb c "+" then (false, r)
      else (false, l)
  | [] => (false, l)
  end.

(** [digitpart "." [digitpart]], [digitpart] or ["." digitpart]: the digits
    read as one integer, and how many of them follow the point. *)
Definition number (l : list ascii) : option (Z * Z * list ascii) :=
  match digitpart_from 0 l with
  | Some (ip, _, rest) =>
      match rest with
      | c :: rest' =>
          if Ascii.eqb c "." then
            match digitpart_from ip rest' with
            | Some (m, nf, rest'') => Some (m, nf, rest'')
            | None => Some (ip, 0, rest')
            end
          else Some (ip, 0, rest)
      | [] => Some (ip, 0, rest)
      end
  | None =>
      match l with
      | c :: rest =>
          if Ascii.eqb c "." then digitpart_from 0 rest else None
      | [] => None
      end
  end.

(** An optional exponent [("e" | "E") [sign] digitpart]. *)
Definition exponent (l : list ascii) : option (Z * list ascii) :=
  match l with
  | c :: r =>
      if Ascii.eqb (lower c) "e" then
        let '(neg, r1) := sign r in
        match digitpart_from 0 r1 with
        | Some (e, _, rest) => Some (if neg then - e else e, rest)
        | None => None
        end
      else Some (0, l)
  | [] => Some (0, l)
  end.

(** [m * 10 ^ e], correctly rounded. *)
Definition scale10 (neg : bool) (m e : Z) : float :=
  if 0 <=? e then float_of_ratio neg (m * 10 ^ e) 1
  else float_of_ratio neg m (10 ^ (- e)).

(** [float(s)] for an ASCII string: [None] stands for [ValueError]. *)
Definition float_of_string (s : string) : option float :=
  let '(neg, body) := sign (strip (list_ascii_of_string s)) in
  let word := string_of_list_ascii (map lower body) in
  if String.eqb word "inf" || String.eqb word "infinity"
  then Some (if neg then neg_infinity else infinity)
  else if String.eqb word "nan" then Some nan
  else
    match number body with
    | Some (m, nf, rest) =>
        match exponent rest with
        | Some (e, []) => Some (scale10 neg m (e - nf))
        | _ => None
        end
    | None => None
    end.

(** ** Floats to text, and [round] *)

(** [num / den] rounded to the nearest integer, ties to even
    ([num >= 0], [den > 0]). *)
Definition round_half_even (num den : Z) : Z :=
  let q := num / den in
  match 2 * (num mod den) ?= den with
  | Lt => q
  | Gt => q + 1
  | Eq => if Z.even q then q else q + 1
  end.

(** [|x| * 10 ^ d] rounded to an integer, for a finite [x = m * 2 ^ e]. *)
Definition scaled_digits (d : nat) (m : positive) (e : Z) : Z :=
  if 0 <=? e then Z.pos m * 2 ^ e * 10 ^ Z.of_nat d
  else round_half_even (Z.pos m * 10 ^ Z.of_nat d) (2 ^ (- e)).

Definition decimal (z : Z) : string :=
  NilZero.string_of_uint (N.to_uint (Z.to_N z)).

Definition zero_pad (d : nat) (s : string) : string :=
  string_of_list_ascii (repeat "0"%char (d - String.length s)) +:+ s.

(** [n / 10 ^ d] written with exactly [d] digits after the point. *)
Definition fixed_point (d : nat) (neg : bool) (n : Z) : string :=
  (if neg then "-" else "") +:+
  decimal (n / 10 ^ Z.of_nat d) +:+ "." +:+
  zero_pad d (decimal (n mod 10 ^ Z.of_nat d)).

(** [f"{x:.6f}"]. *)
Definition format_6f (x : float) : string :=
  match Prim2SF x with
  | S754_nan => "nan"
  | S754_infinity s => if s then "-inf" else "inf"
  | S754_zero s => fixed_point 6 s 0
  | S754_finite s m e => fixed_point 6 s (scaled_digits 6 m e)
  end.

(** [round(x, 2)] on a float: the nearest multiple of 0.01 of the exact
    value (ties to even), read back as a float; NaN and the infinities are
    returned as they are. *)
Definition round2 (x : float) : float :=
  match Prim2SF x with
  | S754_finite s m e => float_of_ratio s (scaled_digits 2 m e) 100
  | _ => x
  end.

(** [a / b] on two ints with [b > 0]: the correctly rounded quotient. *)
Definition int_truediv (a b : Z) : float :=
  float_of_ratio (a <? 0) (Z.abs a) b.

(** ** Words of a line *)

(** [s.split()]: the words between runs of white space; [word] holds the
    characters of the word being read. *)
Fixpoint split_from (word l : list ascii) : list string :=
  match l with
  | [] =>
      match word with
      | [] => []
      | _ => [string_of_list_ascii word]
      end
  | c :: rest =>
      if is_space c then
        match word with
        | [] => split_from [] rest
        | _ => string_of_list_ascii word :: split_from [] rest
        end
      else split_from (word ++ [c]) rest
  end.

Definition split (s : string) : list string :=
  split_from [] (list_ascii_of_string s).

(** A run of characters without white space. *)
Definition no_space (l : list ascii) : bool :=
  forallb (fun c => negb (is_space c)) l.

(** [s.strip()] on a string. *)
Definition strip_string (s : string) : string :=
  string_of_list_ascii (strip (list_ascii_of_string s)).

(** [s.replace(old, new)] for single characters. *)
Definition replace_char (old new : ascii) (s : string) : string :=
  string_of_list_ascii
    (map (fun c => if Ascii.eqb c old then new else c) (list_ascii_of_string s)).

End Py.

(** ** JSON values, as [json.load] returns them *)

#[local] Set Warnings "-register-all".

Inductive json :=
| JNull
| JBool (b : bool)
| JInt (z : Z)
| JFloat (f : float)
| JStr (s : string)
| JList (l : list json)
| JDict (d : list (string * json)).

Module PyJson.

(** [d.get(k, default)] on the items of a dict (keys are unique). *)
Fixpoint get (d : list (string * json)) (k : string) (default : json) : json :=
  match d with
  | [] => default
  | (k', v) :: r => if String.eqb k' k then v else get r k default
  end.

Definition has_key (d : list (string * json)) (k : string) : bool :=
  existsb (fun kv => String.eqb (fst kv) k) d.

Definition is_substring (k s : string) : bool :=
  match String.index 0 k s with Some _ => true | None => false end.

(** [k in v] for a string [k]: key of a dict, element of a list, substring
    of a string; [None] ([TypeError]) on anything else. *)
Definition contains (v : json) (k : string) : option bool :=
  match v with
  | JDict d => Some (has_key d k)
  | JList l =>
      Some (existsb (fun x => match x with JStr s => String.eqb s k
                                      | _ => false end) l)
  | JStr s => Some (is_substring k s)
  | _ => None
  end.

(** Truth value of [v] in a condition. *)
Definition truthy (v : json) : bool :=
  match v with
  | JNull => false
  | JBool b => b
  | JInt z => negb (z =? 0)
  | JFloat f => negb (PrimFloat.eqb f 0)
  | JStr s => negb (String.eqb s "")
  | JList l => match l with [] => false | _ => true end
  | JDict d => match d with [] => false | _ => true end
  end.

(** [v[i]] for an integer index [i >= 0]: lists and strings only, and only
    in range. *)
Definition getitem (v : json) (i : nat) : option json :=
  match v with
  | JList l => nth_error l i
  | JStr s =>
      match String.get i s with
      | Some c => Some (JStr (String c EmptyString))
      | None => None
      end
  | _ => None
  end.

(** The float a number stands for in arithmetic and in [f"{v:.6f}"];
    [None] where Python raises. *)
Definition to_float (v : json) : option float :=
  match v with
  | JInt z => Some (Py.float_of_Z z)
  | JBool b => Some (if b then 1%float else 0%float)
  | JFloat f => Some f
  | _ => None
  end.

(** Exact comparison of a float with an int. *)
Definition float_eq_Z (f : float) (n : Z) : bool :=
  match Prim2SF f with
  | S754_zero _ => n =? 0
  | S754_finite s m e =>
      let v := if s then Z.neg m else Z.pos m in
      if 0 <=? e then v * 2 ^ e =? n else v =? n * 2 ^ (- e)
  | _ => false
  end.

(** [v != n] for an int [n]. *)
Definition ne_int (v : json) (n : Z) : bool :=
  match v with
  | JInt z => negb (z =? n)
  | JBool b => negb ((if b then 1 else 0) =? n)
  | JFloat f => negb (float_eq_Z f n)
  | _ => true
  end.

(** [float(v)]: a number as a float, an ASCII string parsed; [None] for
    the [OverflowError] of an int beyond the floats, the [ValueError] of
    a string that is no number and the [TypeError] of anything else. *)
Definition float_of (v : json) : option float :=
  match v with
  | JInt z =>
      let f := Py.float_of_Z z in
      if PrimFloat.is_infinity f then None else Some f
  | JBool b => Some (if b then 1%float else 0%float)
  | JFloat f => Some f
  | JStr s => Py.float_of_string s
  | _ => None
  end.

End PyJson.

(* ===================================================================== *)
(** * config.py *)
(* ===================================================================== *)

Module Config.

(** Minimum frames for a valid capture *)
Definition MIN_FRAMES : nat := 30.
(** Maximum gap between frames (seconds) before warning *)
Definition MAX_FRAME_GAP : float := 0.5.
(** Maximum gap before error *)
Definition MAX_FRAME_GAP_ERROR : float := 2.
(** Minimum capture duration (seconds) *)
Definition MIN_DURATION : float := 3.
(** Expected IMU samples per frame *)
Definition EXPECTED_IMU_RATIO : nat := 10.

(** MonoGS output directory (relative to session) *)
Definition MONOGS_OUTPUT_DIR : string := "monogs_output".
(** Default MonoGS tracking parameters *)
Definition MONOGS_TRACKING_CONFIG : list (string * json) :=
  [("iters", JInt 40); ("w_color_loss", JFloat 0.5); ("use_depth", JBool false)].
(** Default MonoGS mapping parameters *)
Definition MONOGS_MAPPING_CONFIG : list (string * json) :=
  [("iters", JInt 60); ("new_submap_every", JInt 50);
   ("new_gaussians_every", JInt 5)].

(** [list_sessions()] over the names of the directories in the captures
    directory ([None] when it does not exist). *)
Definition list_sessions (dirs : option (list string)) : list string :=
  match dirs with
  | None => []
  | Some names =>
      Py.sorted_desc id (List.filter (fun n => Py.startswith n "session_") names)
  end.

End Config.

(* ===================================================================== *)
(** * validate_capture.py *)
(* ===================================================================== *)

Module Validate.

Import Config.

(** The texts of the findings.  Each constructor stands for one message of
    the script and carries the values the message is formatted from; the
    text of a caught exception is left out. *)
Inductive message :=
| PathMissing                          (* Session path does not exist *)
| NoRgbDir                             (* No rgb/ directory found *)
| NoFrames                             (* No frames found in rgb/ *)
| TooFewFrames (n : nat)               (* Too few frames: n < MIN_FRAMES *)
| NoTimestamps                         (* Cannot determine timestamps *)
| TooShort (d : float)                 (* Capture too short *)
| LargeGap (i : nat) (gap : float)     (* Large gap at frame i: gap s *)
| GapsDetected (n : nat)               (* n frame gaps > MAX_FRAME_GAP *)
| NotMonotonic                         (* Timestamps are not monotonic *)
| ResolutionChanged (a b : Z * Z)      (* Resolution changed: a -> b *)
| ResolutionInconsistent (idx : nat)   (* Resolution inconsistent at frame *)
| ImageError                           (* Error reading images *)
| ImuEmpty                             (* IMU file exists but is empty *)
| LowImuRate (ratio : float)           (* Low IMU rate *)
| ImuStartsLate                        (* IMU data starts late *)
| ImuEndsEarly                         (* IMU data ends early *)
| ImuError                             (* Error reading IMU data *)
| NoImu                                (* No IMU data file found *)
| MissingIntrinsicFields (l : list string)
| IntrinsicsMismatch (w h : json)      (* Intrinsics resolution != actual *)
| IntrinsicsError                      (* Error reading intrinsics *)
| NoIntrinsics                         (* No intrinsics.json found *)
| RgbTxtCount (lines frames : nat)     (* rgb.txt has .. entries but .. *)
| RgbTxtError                          (* Error reading rgb.txt *)
| NoRgbTxt                             (* No rgb.txt found *)
| LowFps | HighFps | LargeCapture | ShortCapture.   (* the info notes *)

(** Results of session validation. *)
Record ValidationResult := mkResult {
  session_id : string;
  is_valid : bool;
  quality_score : Z;
  frame_count : nat;
  duration_sec : float;
  avg_fps : float;
  min_fps : float;
  max_fps : float;
  width : Z;
  height : Z;
  resolution_consistent : bool;
  imu_records : nat;
  imu_synced : bool;
  imu_avg_offset_ms : float;
  has_intrinsics : bool;
  intrinsics : json;
  errors : list message;
  warnings : list message;
  info : list message
}.

(** [ValidationResult(session_id=...)]: the defaults of the dataclass. *)
Definition new_result (id : string) : ValidationResult :=
  mkResult id true 100 0 0 0 0 0 0 0 true 0 true 0 false (JDict []) [] [] [].

Definition add_error (r : ValidationResult) (msg : message) (penalty : Z)
  : ValidationResult :=
  let '(mkResult id _ q fc d af mn mx w h rc ir sy off hi it es ws inf) := r in
  mkResult id false (Z.max 0 (q - penalty)) fc d af mn mx w h rc ir sy off hi it
           (es ++ [msg]) ws inf.

Definition add_warning (r : ValidationResult) (msg : message) (penalty : Z)
  : ValidationResult :=
  let '(mkResult id v q fc d af mn mx w h rc ir sy off hi it es ws inf) := r in
  mkResult id v (Z.max 0 (q - penalty)) fc d af mn mx w h rc ir sy off hi it
           es (ws ++ [msg]) inf.

Definition add_info (r : ValidationResult) (msg : message) : ValidationResult :=
  let '(mkResult id v q fc d af mn mx w h rc ir sy off hi it es ws inf) := r in
  mkResult id v q fc d af mn mx w h rc ir sy off hi it es ws (inf ++ [msg]).

(** Assignments to the other fields. *)
Definition set_frame_count (r : ValidationResult) (n : nat) :=
  let '(mkResult id v q _ d af mn mx w h rc ir sy off hi it es ws inf) := r in
  mkResult id v q n d af mn mx w h rc ir sy off hi it es ws inf.
Definition set_duration_sec (r : ValidationResult) (x : float) :=
  let '(mkResult id v q fc _ af mn mx w h rc ir sy off hi it es ws inf) := r in
  mkResult id v q fc x af mn mx w h rc ir sy off hi it es ws inf.
Definition set_avg_fps (r : ValidationResult) (x : float) :=
  let '(mkResult id v q fc d _ mn mx w h rc ir sy off hi it es ws inf) := r in
  mkResult id v q fc d x mn mx w h rc ir sy off hi it es ws inf.
Definition set_fps_range (r : ValidationResult) (lo hi' : float) :=
  let '(mkResult id v q fc d af _ _ w h rc ir sy off hi it es ws inf) := r in
  mkResult id v q fc d af lo hi' w h rc ir sy off hi it es ws inf.
Definition set_size (r : ValidationResult) (sz : Z * Z) :=
  let '(mkResult id v q fc d af mn mx _ _ rc ir sy off hi it es ws inf) := r in
  mkResult id v q fc d af mn mx (fst sz) (snd sz) rc ir sy off hi it es ws inf.
Definition set_resolution_consistent (r : ValidationResult) (b : bool) :=
  let '(mkResult id v q fc d af mn mx w h _ ir sy off hi it es ws inf) := r in
  mkResult id v q fc d af mn mx w h b ir sy off hi it es ws inf.
Definition set_imu_records (r : ValidationResult) (n : nat) :=
  let '(mkResult id v q fc d af mn mx w h rc _ sy off hi it es ws inf) := r in
  mkResult id v q fc d af mn mx w h rc n sy off hi it es ws inf.
Definition set_imu_synced (r : ValidationResult) (b : bool) :=
  let '(mkResult id v q fc d af mn mx w h rc ir _ off hi it es ws inf) := r in
  mkResult id v q fc d af mn mx w h rc ir b off hi it es ws inf.
Definition set_imu_avg_offset_ms (r : ValidationResult) (x : float) :=
  let '(mkResult id v q fc d af mn mx w h rc ir sy _ hi it es ws inf) := r in
  mkResult id v q fc d af mn mx w h rc ir sy x hi it es ws inf.
Definition set_intrinsics (r : ValidationResult) (j : json) :=
  let '(mkResult id v q fc d af mn mx w h rc ir sy off hi _ es ws inf) := r in
  mkResult id v q fc d af mn mx w h rc ir sy off hi j es ws inf.
Definition set_has_intrinsics (r : ValidationResult) (b : bool) :=
  let '(mkResult id v q fc d af mn mx w h rc ir sy off _ it es ws inf) := r in
  mkResult id v q fc d af mn mx w h rc ir sy off b it es ws inf.

(** Extract timestamp from filename like '1234567890.123456.jpg'. *)
Definition parse_timestamp (filename : string) : float :=
  match Py.float_of_string (Py.stem filename) with
  | Some ts => ts
  | None => 0%float
  end.

(** ** What the script reads from a session directory *)

(** [None] in the first position: the entry does not exist.  For the files
    that are opened inside a [try], the inner [None] says that opening or
    decoding them raised. *)
Record SessionDir := {
  name : string;
  present : bool;                               (* session_path.exists() *)
  rgb : option (list string);                   (* entries of rgb/ *)
  image_size : string -> option (Z * Z);        (* Image.open(rgb/f).size *)
  imu_csv : option (option (list (list string)));   (* rows of imu.csv *)
  intrinsics_json : option (option json);       (* intrinsics.json *)
  rgb_txt : option (option (list string))       (* lines of rgb.txt *)
}.

(** [rgb_dir.glob("*.jpg")]. *)
Definition glob_jpg (entries : list string) : list string :=
  List.filter (fun n => Py.endswith n ".jpg") entries.

(** The loop "Parse timestamps": a frame contributes its timestamp when
    [ts > 0]. *)
Definition keeps_timestamp (frame : string) : bool :=
  Py.gt (parse_timestamp frame) 0.

Fixpoint parse_timestamps (frames : list string) : list float :=
  match frames with
  | [] => []
  | frame :: rest =>
      let ts := parse_timestamp frame in
      if Py.gt ts 0 then ts :: parse_timestamps rest
      else parse_timestamps rest
  end.

(** ** Gaps *)

(** The state of the loop "Check for gaps and calculate per-frame FPS". *)
Record gap_state := {
  gs_result : ValidationResult;
  gs_gaps : list float;
  gs_fps_values : list float;
  gs_large_gaps : nat
}.

(** One iteration, for [gap = timestamps[i] - timestamps[i - 1]].  The
    quotient [1.0 / gap] is taken under [gap > 0]. *)
Definition gap_step (i : nat) (gap : float) (st : gap_state) : gap_state :=
  let fps_values :=
    if Py.gt gap 0 then gs_fps_values st ++ [(1 / gap)%float]
    else gs_fps_values st in
  if Py.gt gap MAX_FRAME_GAP_ERROR then
    {| gs_result := add_warning (gs_result st) (LargeGap i gap) 5;
       gs_gaps := gs_gaps st ++ [gap];
       gs_fps_values := fps_values;
       gs_large_gaps := S (gs_large_gaps st) |}
  else if Py.gt gap MAX_FRAME_GAP then
    {| gs_result := gs_result st;
       gs_gaps := gs_gaps st ++ [gap];
       gs_fps_values := fps_values;
       gs_large_gaps := S (gs_large_gaps st) |}
  else
    {| gs_result := gs_result st;
       gs_gaps := gs_gaps st ++ [gap];
       gs_fps_values := fps_values;
       gs_large_gaps := gs_large_gaps st |}.

(** [for i in range(1, len(timestamps))], entered at index [i] with
    [prev = timestamps[i - 1]] and [rest = timestamps[i:]]. *)
Fixpoint gap_loop (i : nat) (prev : float) (rest : list float)
         (st : gap_state) : gap_state :=
  match rest with
  | [] => st
  | ts :: rest' => gap_loop (S i) ts rest' (gap_step i (ts - prev)%float st)
  end.

Definition check_gaps (timestamps : list float) (r : ValidationResult)
  : ValidationResult :=
  let st0 := {| gs_result := r; gs_gaps := []; gs_fps_values := [];
                gs_large_gaps := 0 |} in
  let st :=
    match timestamps with
    | [] => st0
    | t0 :: rest => gap_loop 1 t0 rest st0
    end in
  let r := gs_result st in
  let r :=
    match Py.min (gs_fps_values st), Py.max (gs_fps_values st) with
    | Some lo, Some hi => set_fps_range r lo hi
    | _, _ => r
    end in
  if (0 <? gs_large_gaps st)%nat
  then add_warning r (GapsDetected (gs_large_gaps st)) 5
  else r.

(** [all(timestamps[i] <= timestamps[i + 1] for i in ...)]. *)
Fixpoint is_monotonic (timestamps : list float) : bool :=
  match timestamps with
  | a :: (b :: _) as rest => Py.le a b && is_monotonic rest
  | _ => true
  end.

Definition check_monotonic (timestamps : list float) (r : ValidationResult)
  : ValidationResult :=
  if negb (is_monotonic timestamps) then add_error r NotMonotonic 30 else r.

(** ** Statements inside [try] *)

(** The result object when a [try] body finishes, or at the moment one of
    its statements raises. *)
Inductive outcome :=
| Done (r : ValidationResult)
| Raised (r : ValidationResult).

Definition and_then (o : outcome) (k : ValidationResult -> outcome) : outcome :=
  match o with
  | Done r => k r
  | Raised r => Raised r
  end.

(** [except Exception as e: handler]. *)
Definition except (o : outcome) (handler : ValidationResult -> ValidationResult)
  : ValidationResult :=
  match o with
  | Done r => r
  | Raised r => handler r
  end.

(** ** Image dimensions *)

Definition size_eqb (a b : Z * Z) : bool :=
  (fst a =? fst b) && (snd a =? snd b).

Section Images.
Variable open_size : string -> option (Z * Z).
Variable frames : list string.
Variable first_size : Z * Z.

(** [for idx in sample_indices], leaving at the first mismatch. *)
Fixpoint sample_loop (idxs : list nat) (r : ValidationResult) : outcome :=
  match idxs with
  | [] => Done r
  | idx :: rest =>
      match open_size (nth idx frames "") with
      | None => Raised r
      | Some sz =>
          if negb (size_eqb sz first_size)
          then Done (add_warning (set_resolution_consistent r false)
                                 (ResolutionInconsistent idx) 5)
          else sample_loop rest r
      end
  end.
End Images.

Definition check_images (s : SessionDir) (frames : list string)
           (r : ValidationResult) : ValidationResult :=
  let n := length frames in
  except
    (match image_size s (nth 0 frames "") with
     | None => Raised r
     | Some first =>
         let r := set_size r first in
         and_then
           (if (1 <? n)%nat then
              match image_size s (List.last frames "") with
              | None => Raised r
              | Some last =>
                  if negb (size_eqb last first)
                  then Done (add_warning (set_resolution_consistent r false)
                                         (ResolutionChanged first last) 10)
                  else Done r
              end
            else Done r)
           (fun r =>
              if (20 <? n)%nat
              then sample_loop (image_size s) frames first
                               [n / 4; n / 2; 3 * n / 4]%nat r
              else Done r)
     end)
    (fun r => add_error r ImageError 20).

(** ** IMU data *)

(** [[float(row[0]) for row in imu_rows if row]]; [None] when one of the
    conversions raises. *)
Fixpoint imu_times (rows : list (list string)) : option (list float) :=
  match rows with
  | [] => Some []
  | [] :: rest => imu_times rest
  | (cell :: _) :: rest =>
      match Py.float_of_string cell with
      | None => None
      | Some t =>
          match imu_times rest with
          | None => None
          | Some ts => Some (t :: ts)
          end
      end
  end.

Definition check_imu (s : SessionDir) (timestamps : list float)
           (r : ValidationResult) : ValidationResult :=
  match imu_csv s with
  | None => set_imu_synced (add_warning r NoImu 15) false
  | Some None => add_warning r ImuError 10
  | Some (Some rows) =>
      (* header = next(reader, None); imu_rows = list(reader) *)
      let imu_rows := tl rows in
      let r := set_imu_records r (length imu_rows) in
      if (imu_records r =? 0)%nat then add_warning r ImuEmpty 10
      else
        let ratio :=
          Py.int_truediv (Z.of_nat (imu_records r))
                         (Z.max 1 (Z.of_nat (frame_count r))) in
        let r := if Py.lt ratio 1 then add_warning r (LowImuRate ratio) 5
                 else r in
        match imu_times imu_rows with
        | None => add_warning r ImuError 10
        | Some imu_timestamps =>
            match Py.min imu_timestamps, Py.max imu_timestamps with
            | Some imu_start, Some imu_end =>
                let frame_start := nth 0 timestamps 0%float in
                let frame_end := List.last timestamps 0%float in
                let r := if Py.gt imu_start (frame_start + 1)%float
                         then add_warning r ImuStartsLate 5 else r in
                let r := if Py.lt imu_end (frame_end - 1)%float
                         then add_warning r ImuEndsEarly 5 else r in
                set_imu_avg_offset_ms r
                  (PrimFloat.abs (imu_start - frame_start) * 1000)%float
            | _, _ => r
            end
        end
  end.

(** ** Intrinsics *)

Definition required : list string :=
  ["fx"; "fy"; "cx"; "cy"; "width"; "height"].

(** [[k for k in required if k not in intrinsics]]; [None] when [in]
    raises. *)
Fixpoint missing_fields (ks : list string) (j : json) : option (list string) :=
  match ks with
  | [] => Some []
  | k :: rest =>
      match PyJson.contains j k with
      | None => None
      | Some b =>
          match missing_fields rest j with
          | None => None
          | Some ms => Some (if b then ms else k :: ms)
          end
      end
  end.

Definition check_intrinsics (s : SessionDir) (r : ValidationResult)
  : ValidationResult :=
  match intrinsics_json s with
  | None => add_warning r NoIntrinsics 15
  | Some None => add_warning r IntrinsicsError 10
  | Some (Some j) =>
      let r := set_has_intrinsics (set_intrinsics r j) true in
      except
        (match missing_fields required (intrinsics r) with
         | None => Raised r
         | Some missing =>
             let r := match missing with
                      | [] => r
                      | _ => add_warning r (MissingIntrinsicFields missing) 5
                      end in
             if has_intrinsics r && (0 <? width r) then
               match intrinsics r with
               | JDict d =>
                   let intr_w := PyJson.get d "width" (JInt 0) in
                   let intr_h := PyJson.get d "height" (JInt 0) in
                   if PyJson.ne_int intr_w (width r)
                      || PyJson.ne_int intr_h (height r)
                   then Done (add_warning r (IntrinsicsMismatch intr_w intr_h) 10)
                   else Done r
               | _ => Raised r       (* no [get] on a list or a string *)
               end
             else Done r
         end)
        (fun r => add_warning r IntrinsicsError 10)
  end.

(** ** rgb.txt (TUM format) *)

(** [l.strip() and not l.startswith('#')]. *)
Definition is_entry (l : string) : bool :=
  match Py.strip (list_ascii_of_string l) with
  | [] => false
  | _ => negb (Py.startswith l "#")
  end.

Definition check_rgb_txt (s : SessionDir) (r : ValidationResult)
  : ValidationResult :=
  match rgb_txt s with
  | None => add_warning r NoRgbTxt 5
  | Some None => add_warning r RgbTxtError 5
  | Some (Some lines) =>
      let n := length (List.filter is_entry lines) in
      if negb (n =? frame_count r)%nat
      then add_warning r (RgbTxtCount n (frame_count r)) 5
      else r
  end.

(** ** Additional recommendations *)

Definition recommendations (r : ValidationResult) : ValidationResult :=
  let r := if Py.lt (avg_fps r) 8 then add_info r LowFps else r in
  let r := if Py.gt (avg_fps r) 20 then add_info r HighFps else r in
  let r := if (500 <? frame_count r)%nat then add_info r LargeCapture else r in
  if Py.lt (duration_sec r) 10 then add_info r ShortCapture else r.

(** ** validate_session *)

(** Everything after the timestamps are known to number at least two. *)
Definition validate_timed (s : SessionDir) (frames : list string)
           (timestamps : list float) (r : ValidationResult)
  : ValidationResult :=
  let r := set_duration_sec r
             (List.last timestamps 0 - nth 0 timestamps 0)%float in
  let r := if Py.lt (duration_sec r) MIN_DURATION
           then add_error r (TooShort (duration_sec r)) 20 else r in
  let r := if Py.gt (duration_sec r) 0
           then set_avg_fps r
                  (Py.float_of_nat (frame_count r) / duration_sec r)%float
           else r in
  let r := check_gaps timestamps r in
  let r := check_monotonic timestamps r in
  let r := check_images s frames r in
  let r := check_imu s timestamps r in
  let r := check_intrinsics s r in
  let r := check_rgb_txt s r in
  recommendations r.

Definition validate_session (s : SessionDir) : ValidationResult :=
  let result := new_result (name s) in
  if negb (present s) then add_error result PathMissing 100
  else
    match rgb s with
    | None => add_error result NoRgbDir 100
    | Some entries =>
        let frames := Py.sorted (glob_jpg entries) in
        let result := set_frame_count result (length frames) in
        if (frame_count result =? 0)%nat
        then add_error result NoFrames 100
        else
          let result :=
            if (frame_count result <? MIN_FRAMES)%nat
            then add_error result (TooFewFrames (frame_count result)) 30
            else result in
          let timestamps := parse_timestamps frames in
          if (length timestamps <? 2)%nat
          then add_error result NoTimestamps 50
          else validate_timed s frames timestamps result
    end.

(** ** Observations on a result *)

Definition is_not_monotonic (m : message) : bool :=
  match m with NotMonotonic => true | _ => false end.

Definition is_large_gap (m : message) : bool :=
  match m with LargeGap _ _ => true | _ => false end.

Definition is_gaps_detected (m : message) : bool :=
  match m with GapsDetected _ => true | _ => false end.

Definition is_gap_warning (m : message) : bool :=
  is_large_gap m || is_gaps_detected m.

(** The monotonicity errors and the gap warnings of a result, in the order
    they were recorded. *)
Definition monotonicity_errors (r : ValidationResult) : list message :=
  List.filter is_not_monotonic (errors r).

Definition gap_warnings (r : ValidationResult) : list message :=
  List.filter is_gap_warning (warnings r).

(** The timestamps validation works on: those of the sorted frame files
    that pass [ts > 0]. *)
Definition timestamps_read (s : SessionDir) : list float :=
  if present s then
    match rgb s with
    | Some entries => parse_timestamps (Py.sorted (glob_jpg entries))
    | None => []
    end
  else [].

(** The consecutive differences [timestamps[i] - timestamps[i - 1]]. *)
Fixpoint deltas_from (prev : float) (rest : list float) : list float :=
  match rest with
  | [] => []
  | ts :: rest' => (ts - prev)%float :: deltas_from ts rest'
  end.

Definition deltas (timestamps : list float) : list float :=
  match timestamps with
  | [] => []
  | t0 :: rest => deltas_from t0 rest
  end.

(** How many deltas lie above a threshold. *)
Definition count_above (threshold : float) (ds : list float) : nat :=
  length (List.filter (fun d => Py.gt d threshold) ds).

(** One [LargeGap] per delta above the hard threshold, numbered from [i]. *)
Fixpoint large_gap_warnings (i : nat) (ds : list float) : list message :=
  match ds with
  | [] => []
  | d :: rest =>
      (if Py.gt d MAX_FRAME_GAP_ERROR then [LargeGap i d] else [])
      ++ large_gap_warnings (S i) rest
  end.

(** The aggregate warning for [n] counted gaps. *)
Definition aggregate_warning (n : nat) : list message :=
  if (0 <? n)%nat then [GapsDetected n] else [].

(** The invariants of a result. *)
Definition score_in_range (r : ValidationResult) : Prop :=
  0 <= quality_score r <= 100.

Definition validity_consistent (r : ValidationResult) : Prop :=
  is_valid r = true <-> errors r = [].

Definition well_formed (r : ValidationResult) : Prop :=
  score_in_range r /\ validity_consistent r.

(** ** How a step relates the result before and after it *)

(** The step touches neither the frame count, nor the monotonicity errors,
    nor the gap warnings, and keeps a result well formed. *)
Definition preserves (r r' : ValidationResult) : Prop :=
  frame_count r' = frame_count r /\
  monotonicity_errors r' = monotonicity_errors r /\
  gap_warnings r' = gap_warnings r /\
  (well_formed r -> well_formed r').

(** The same for the body of a [try], whether it finishes or raises. *)
Definition outcome_preserves (r : ValidationResult) (o : outcome) : Prop :=
  match o with
  | Done r' => preserves r r'
  | Raised r' => preserves r r'
  end.

(** [r'] is [r] with the monotonicity errors [me] and the gap warnings [gw]
    recorded after those of [r], the frame count untouched. *)
Definition extends (r r' : ValidationResult) (me gw : list message) : Prop :=
  frame_count r' = frame_count r /\
  monotonicity_errors r' = monotonicity_errors r ++ me /\
  gap_warnings r' = gap_warnings r ++ gw /\
  (well_formed r -> well_formed r').

(** Recording a list of 5-point warnings one after the other. *)
Definition add_warnings (r : ValidationResult) (ms : list message)
  : ValidationResult :=
  fold_left (fun r m => add_warning r m 5) ms r.

(** ** Penalties *)

(** The penalty [validate_session] passes along with each finding; the
    notes carry none. *)
Definition penalty (m : message) : Z :=
  match m with
  | PathMissing | NoRgbDir | NoFrames => 100
  | NoTimestamps => 50
  | TooFewFrames _ | NotMonotonic => 30
  | TooShort _ | ImageError => 20
  | NoImu | NoIntrinsics => 15
  | ResolutionChanged _ _ | ImuEmpty | ImuError
  | IntrinsicsMismatch _ _ | IntrinsicsError => 10
  | LargeGap _ _ | GapsDetected _ | ResolutionInconsistent _ | LowImuRate _
  | ImuStartsLate | ImuEndsEarly | MissingIntrinsicFields _
  | RgbTxtCount _ _ | RgbTxtError | NoRgbTxt => 5
  | LowFps | HighFps | LargeCapture | ShortCapture => 0
  end.

Definition total_penalty (ms : list message) : Z :=
  fold_right (fun m acc => penalty m + acc) 0 ms.

(** The score is what the penalties of the errors and warnings leave of
    100, and not less than 0. *)
Definition scored (r : ValidationResult) : Prop :=
  quality_score r = Z.max 0 (100 - total_penalty (errors r ++ warnings r)).

(** The verdict of a result and what it was reached from: the fields that
    [add_error], [add_warning] and [add_info] write. *)
Definition findings (r : ValidationResult)
  : bool * Z * list message * list message * list message :=
  (is_valid r, quality_score r, errors r, warnings r, info r).

(** A property of the result a [try] body leaves, whether it finished or
    raised. *)
Definition outcome_has (P : ValidationResult -> Prop) (o : outcome) : Prop :=
  match o with
  | Done r => P r
  | Raised r => P r
  end.

(** The session [s] with its rgb/ directory listed as [entries]. *)
Definition listed_as (s : SessionDir) (entries : list string) : SessionDir :=
  {| name := name s; present := present s; rgb := Some entries;
     image_size := image_size s; imu_csv := imu_csv s;
     intrinsics_json := intrinsics_json s; rgb_txt := rgb_txt s |}.

(** [result.duration_sec < MIN_DURATION] is false for these timestamps. *)
Definition long_enough (timestamps : list float) : Prop :=
  Py.lt (List.last timestamps 0 - nth 0 timestamps 0)%float MIN_DURATION = false.

End Validate.

(* ===================================================================== *)
(** * frame_processor.py *)
(* ===================================================================== *)

(** A Python dict with string keys, in insertion order. *)
Abbreviation pydict := (list (string * json)).

Module PyDict.

(** [d[k] = v]: replaces the value of an existing key in place, appends a
    new key. *)
Fixpoint set (d : pydict) (k : string) (v : json) : pydict :=
  match d with
  | [] => [(k, v)]
  | (k', v') :: r => if String.eqb k' k then (k, v) :: r else (k', v') :: set r k v
  end.

(** [{**d, **extra}]. *)
Definition merge (d extra : pydict) : pydict :=
  fold_left (fun acc kv => set acc (fst kv) (snd kv)) extra d.

End PyDict.

Module Processor.

(** Represents a single frame packet from the phone.  The fields hold what
    [parse_frame_packet] found in the JSON message, so [timestamp], [imu]
    and [camera_intrinsics] are JSON values of any kind. *)
Record FramePacket := {
  timestamp : json;
  frame_data : list Byte.byte;
  imu : json;
  camera_intrinsics : json;
  received_at : float
}.

(** Calculate network latency in milliseconds; [None] where the
    subtraction raises [TypeError]. *)
Definition latency_ms (pkt : FramePacket) : option float :=
  match PyJson.to_float (timestamp pkt) with
  | Some t => Some ((received_at pkt - t) * 1000)%float
  | None => None
  end.

(** Statistics for a capture session. *)
Record SessionStats := {
  session_id : string;
  start_time : float;
  frame_count : nat;
  total_bytes : nat;
  last_frame_time : json;
  latencies : list float
}.

(** [SessionStats(session_id=...)] at time [now]. *)
Definition new_stats (id : string) (now : float) : SessionStats :=
  {| session_id := id; start_time := now; frame_count := 0; total_bytes := 0;
     last_frame_time := JInt 0; latencies := [] |}.

(** The properties of [SessionStats]; [None] stands for
    [ZeroDivisionError].  [fps] and [bandwidth_mbps] read [self.duration]
    in the guard and again in the quotient: both reads are taken at the
    one instant [now]. *)
Definition duration (st : SessionStats) (now : float) : float :=
  (now - start_time st)%float.

Definition fps (st : SessionStats) (now : float) : option float :=
  if Py.gt (duration st now) 0
  then Py.div (Py.float_of_nat (frame_count st)) (duration st now)
  else Some 0%float.

Definition avg_latency_ms (st : SessionStats) : option float :=
  match latencies st with
  | [] => Some 0%float
  | _ :: _ =>
      (* Keep only last 100 latencies for rolling average *)
      let recent := Py.last_n 100 (latencies st) in
      Py.div (Py.sum recent) (Py.float_of_nat (length recent))
  end.

Definition bandwidth_mbps (st : SessionStats) (now : float) : option float :=
  if Py.gt (duration st now) 0
  then Py.div (Py.float_of_nat (total_bytes st * 8))
              (duration st now * 1000000)%float
  else Some 0%float.

(** ** The captures directory *)

(** What a session directory holds; [None]: the entry does not exist. *)
Record SessionFiles := {
  rgb_files : option (gmap string (list Byte.byte));   (* rgb/<name> *)
  imu_csv : option (list (list json));                 (* rows of imu.csv *)
  rgb_txt : option (list string);                      (* lines of rgb.txt *)
  intrinsics_json : option json;                       (* intrinsics.json *)
  session_stats_json : option pydict                   (* session_stats.json *)
}.

Inductive Entry :=
| File
| Dir (d : SessionFiles).

Definition empty_dir : SessionFiles :=
  {| rgb_files := None; imu_csv := None; rgb_txt := None;
     intrinsics_json := None; session_stats_json := None |}.

Definition with_rgb_files (d : SessionFiles) v :=
  {| rgb_files := v; imu_csv := imu_csv d; rgb_txt := rgb_txt d;
     intrinsics_json := intrinsics_json d;
     session_stats_json := session_stats_json d |}.
Definition with_imu_csv (d : SessionFiles) v :=
  {| rgb_files := rgb_files d; imu_csv := v; rgb_txt := rgb_txt d;
     intrinsics_json := intrinsics_json d;
     session_stats_json := session_stats_json d |}.
Definition with_rgb_txt (d : SessionFiles) v :=
  {| rgb_files := rgb_files d; imu_csv := imu_csv d; rgb_txt := v;
     intrinsics_json := intrinsics_json d;
     session_stats_json := session_stats_json d |}.
Definition with_intrinsics_json (d : SessionFiles) v :=
  {| rgb_files := rgb_files d; imu_csv := imu_csv d; rgb_txt := rgb_txt d;
     intrinsics_json := v; session_stats_json := session_stats_json d |}.
Definition with_session_stats_json (d : SessionFiles) v :=
  {| rgb_files := rgb_files d; imu_csv := imu_csv d; rgb_txt := rgb_txt d;
     intrinsics_json := intrinsics_json d; session_stats_json := v |}.

(** Processes and saves frames from the phone app.  Session ids are single
    path components, so a session path is known by its id below
    [base_dir]; an open file handle is known by the session it belongs
    to. *)
Record FrameProcessor := {
  base_dir : string;
  captures : gmap string Entry;            (* the entries of base_dir *)
  current_session : option string;
  session_path : option string;
  stats : option SessionStats;
  save_queue : list (string * string * list Byte.byte);
  running : bool;                          (* _running *)
  imu_file : option string;                (* _imu_file and _imu_writer *)
  rgb_txt_file : option string;            (* _rgb_txt_file *)
  intrinsics_saved : bool
}.

Definition with_captures (p : FrameProcessor) v :=
  {| base_dir := base_dir p; captures := v;
     current_session := current_session p; session_path := session_path p;
     stats := stats p; save_queue := save_queue p; running := running p;
     imu_file := imu_file p; rgb_txt_file := rgb_txt_file p;
     intrinsics_saved := intrinsics_saved p |}.
Definition with_stats (p : FrameProcessor) v :=
  {| base_dir := base_dir p; captures := captures p;
     current_session := current_session p; session_path := session_path p;
     stats := v; save_queue := save_queue p; running := running p;
     imu_file := imu_file p; rgb_txt_file := rgb_txt_file p;
     intrinsics_saved := intrinsics_saved p |}.
Definition with_save_queue (p : FrameProcessor) v :=
  {| base_dir := base_dir p; captures := captures p;
     current_session := current_session p; session_path := session_path p;
     stats := stats p; save_queue := v; running := running p;
     imu_file := imu_file p; rgb_txt_file := rgb_txt_file p;
     intrinsics_saved := intrinsics_saved p |}.
Definition with_running (p : FrameProcessor) v :=
  {| base_dir := base_dir p; captures := captures p;
     current_session := current_session p; session_path := session_path p;
     stats := stats p; save_queue := save_queue p; running := v;
     imu_file := imu_file p; rgb_txt_file := rgb_txt_file p;
     intrinsics_saved := intrinsics_saved p |}.
Definition with_intrinsics_saved (p : FrameProcessor) v :=
  {| base_dir := base_dir p; captures := captures p;
     current_session := current_session p; session_path := session_path p;
     stats := stats p; save_queue := save_queue p; running := running p;
     imu_file := imu_file p; rgb_txt_file := rgb_txt_file p;
     intrinsics_saved := v |}.

(** [FrameProcessor(base_dir)] over an existing captures directory. *)
Definition init (dir : string) (entries : gmap string Entry) : FrameProcessor :=
  {| base_dir := dir; captures := entries;
     current_session := None; session_path := None; stats := None;
     save_queue := []; running := false;
     imu_file := None; rgb_txt_file := None; intrinsics_saved := false |}.

(** Start the background save thread. *)
Definition start (p : FrameProcessor) : FrameProcessor := with_running p true.

(** Close open file handles. *)
Definition _close_files (p : FrameProcessor) : FrameProcessor :=
  {| base_dir := base_dir p; captures := captures p;
     current_session := current_session p; session_path := session_path p;
     stats := stats p; save_queue := save_queue p; running := running p;
     imu_file := None; rgb_txt_file := None;
     intrinsics_saved := intrinsics_saved p |}.


(** The files of session [id], when it is a directory. *)
Definition session_files (p : FrameProcessor) (id : string)
  : option SessionFiles :=
  match captures p !! id with
  | Some (Dir d) => Some d
  | _ => None
  end.

(** Rewrites the files of session [id]; nothing happens when the directory
    is missing. *)
Definition update_files (p : FrameProcessor) (id : string)
           (f : SessionFiles -> SessionFiles) : FrameProcessor :=
  match session_files p id with
  | Some d => with_captures p (<[id := Dir (f d)]> (captures p))
  | None => p
  end.

(** One turn of [_save_worker] that finds an item: the item leaves the
    queue and its bytes are written to rgb/<name> of its session (a failed
    write is reported and the item is gone). *)
Definition save_item (p : FrameProcessor) : FrameProcessor :=
  match save_queue p with
  | [] => p
  | (id, fname, data) :: rest =>
      update_files (with_save_queue p rest) id
        (fun d => match rgb_files d with
                  | Some files => with_rgb_files d (Some (<[fname := data]> files))
                  | None => d
                  end)
  end.

(** The worker only works while [_running]. *)
Definition worker_step (p : FrameProcessor) : FrameProcessor :=
  if running p then save_item p else p.

Fixpoint worker_steps (n : nat) (p : FrameProcessor) : FrameProcessor :=
  match n with
  | O => p
  | S n' => worker_steps n' (worker_step p)
  end.

Definition imu_header : list json :=
  map JStr ["timestamp"; "accel_x"; "accel_y"; "accel_z";
            "gyro_x"; "gyro_y"; "gyro_z"; "qw"; "qx"; "qy"; "qz"].

(** Open file handles for streaming writes: both files are truncated and
    get their header. *)
Definition _open_files (p : FrameProcessor) : FrameProcessor :=
  match session_path p with
  | None => p
  | Some id =>
      let p := update_files p id
                 (fun d => with_rgb_txt (with_imu_csv d (Some [imu_header]))
                                        (Some ["# timestamp filename"])) in
      {| base_dir := base_dir p; captures := captures p;
         current_session := current_session p; session_path := session_path p;
         stats := stats p; save_queue := save_queue p; running := running p;
         imu_file := Some id; rgb_txt_file := Some id;
         intrinsics_saved := intrinsics_saved p |}
  end.

(** Create a new capture session.  [clock_id] is the id generated from the
    clock, [datetime.now().strftime("session_%Y%m%d_%H%M%S")].  The second
    component is the returned id, or [None] when [mkdir] raises because a
    file has the name of the session directory: the processor then keeps
    the new [current_session] and [session_path] next to the old
    [stats]. *)
Definition create_session (p : FrameProcessor) (session_id : option string)
           (now : float) (clock_id : string)
  : FrameProcessor * option string :=
  (* Close any existing session *)
  let p := _close_files p in
  let id := match session_id with Some id => id | None => clock_id end in
  let p :=
    {| base_dir := base_dir p; captures := captures p;
       current_session := Some id; session_path := Some id;
       stats := stats p; save_queue := save_queue p; running := running p;
       imu_file := imu_file p; rgb_txt_file := rgb_txt_file p;
       intrinsics_saved := intrinsics_saved p |} in
  (* (self.session_path / "rgb").mkdir(parents=True, exist_ok=True) *)
  match captures p !! id with
  | Some File => (p, None)
  | entry =>
      let d := match entry with Some (Dir d) => d | _ => empty_dir end in
      let d := match rgb_files d with
               | Some _ => d
               | None => with_rgb_files d (Some ∅)
               end in
      let p := with_captures p (<[id := Dir d]> (captures p)) in
      (* Initialize stats *)
      let p := with_stats p (Some (new_stats id now)) in
      (with_intrinsics_saved (_open_files p) false, Some id)
  end.

(** The row written to imu.csv; [None] where building it raises: [imu] is
    no dict (no [get]), or one of the vectors is too short or cannot be
    indexed. *)
Definition imu_row (timestamp_str : string) (imu : json) : option (list json) :=
  match imu with
  | JDict d =>
      let accel := PyJson.get d "accel" (JList [JInt 0; JInt 0; JInt 0]) in
      let gyro := PyJson.get d "gyro" (JList [JInt 0; JInt 0; JInt 0]) in
      let orient :=
        PyJson.get d "orientation" (JList [JInt 1; JInt 0; JInt 0; JInt 0]) in
      a0 ← PyJson.getitem accel 0; a1 ← PyJson.getitem accel 1;
      a2 ← PyJson.getitem accel 2;
      g0 ← PyJson.getitem gyro 0; g1 ← PyJson.getitem gyro 1;
      g2 ← PyJson.getitem gyro 2;
      o0 ← PyJson.getitem orient 0; o1 ← PyJson.getitem orient 1;
      o2 ← PyJson.getitem orient 2; o3 ← PyJson.getitem orient 3;
      Some [JStr timestamp_str; a0; a1; a2; g0; g1; g2; o0; o1; o2; o3]
  | _ => None
  end.

Definition append_row (row : list json) (d : SessionFiles) : SessionFiles :=
  with_imu_csv d (Some (default [] (imu_csv d) ++ [row])).

Definition append_line (line : string) (d : SessionFiles) : SessionFiles :=
  with_rgb_txt d (Some (default [] (rgb_txt d) ++ [line])).

(** The body of the [try] in [process_frame], for a processor whose
    session and statistics exist.  The result is the processor as the
    statements left it and the value returned: [True] at the end, [False]
    from the [except] clause. *)
Definition process_frame_body (p : FrameProcessor) (id : string)
           (st : SessionStats) (pkt : FramePacket) : FrameProcessor * bool :=
  (* Update stats *)
  let st :=
    {| session_id := session_id st; start_time := start_time st;
       frame_count := S (frame_count st);
       total_bytes := (total_bytes st + length (frame_data pkt))%nat;
       last_frame_time := timestamp pkt;
       latencies := latencies st |} in
  match latency_ms pkt with
  | None => (with_stats p (Some st), false)
  | Some latency =>
      let st :=
        {| session_id := session_id st; start_time := start_time st;
           frame_count := frame_count st; total_bytes := total_bytes st;
           last_frame_time := last_frame_time st;
           latencies := latencies st ++ [latency] |} in
      let p := with_stats p (Some st) in
      (* Save frame (async via queue) *)
      match PyJson.to_float (timestamp pkt) with
      | None => (p, false)
      | Some t =>
          let timestamp_str := Py.format_6f t in
          let frame_filename := timestamp_str +:+ ".jpg" in
          let p := with_save_queue p
                     (save_queue p ++ [(id, frame_filename, frame_data pkt)]) in
          (* Write IMU data *)
          let written :=
            match imu_file p with
            | Some fid =>
                if PyJson.truthy (imu pkt) then
                  match imu_row timestamp_str (imu pkt) with
                  | Some row => Some (update_files p fid (append_row row))
                  | None => None
                  end
                else Some p
            | None => Some p
            end in
          match written with
          | None => (p, false)
          | Some p =>
              (* Write TUM format timestamp *)
              let p :=
                match rgb_txt_file p with
                | Some fid =>
                    update_files p fid
                      (append_line (timestamp_str +:+ " rgb/" +:+ frame_filename))
                | None => p
                end in
              (* Save intrinsics once per session *)
              if negb (intrinsics_saved p)
                 && PyJson.truthy (camera_intrinsics pkt)
              then
                match session_files p id with
                | Some _ =>
                    (with_intrinsics_saved
                       (update_files p id
                          (fun d => with_intrinsics_json d
                                      (Some (camera_intrinsics pkt))))
                       true,
                     true)
                | None => (p, false)   (* no directory to open the file in *)
                end
              else (p, true)
          end
      end
  end.

(** Process and save a frame packet.  The second component is the value
    returned, or [None] when the session that had to be created could not
    be and the exception leaves [process_frame]. *)
Definition process_frame (p : FrameProcessor) (pkt : FramePacket)
           (now : float) (clock_id : string) : FrameProcessor * option bool :=
  let '(p, created) :=
    match session_path p with
    | None =>
        let '(p, id) := create_session p None now clock_id in
        (p, bool_decide (is_Some id))
    | Some _ => (p, true)
    end in
  if created then
    match session_path p, stats p with
    | Some id, Some st =>
        let '(p, ok) := process_frame_body p id st pkt in (p, Some ok)
    | _, _ => (p, Some false)          (* self.stats is None *)
    end
  else (p, None).

(** Get current session statistics; [None] if one of the properties
    raised. *)
Definition get_stats (p : FrameProcessor) (now : float) : option pydict :=
  match stats p with
  | None => Some []
  | Some st =>
      f ← fps st now;
      l ← avg_latency_ms st;
      b ← bandwidth_mbps st now;
      Some [("session_id", JStr (session_id st));
            ("frame_count", JInt (Z.of_nat (frame_count st)));
            ("duration_sec", JFloat (Py.round2 (duration st now)));
            ("fps", JFloat (Py.round2 f));
            ("avg_latency_ms", JFloat (Py.round2 l));
            ("bandwidth_mbps", JFloat (Py.round2 b));
            ("total_mb",
             JFloat (Py.round2 (Py.int_truediv (Z.of_nat (total_bytes st))
                                               (1024 * 1024))));
            ("queue_size", JInt (Z.of_nat (length (save_queue p))))]
  end.

(** [while not self._save_queue.empty(): time.sleep(0.1)].  During the
    [k]-th sleep the save thread gets [sched k] turns.  [None]: the loop
    is still running after [fuel] sleeps. *)
Fixpoint drain (fuel : nat) (sched : nat -> nat) (k : nat) (p : FrameProcessor)
  : option FrameProcessor :=
  match save_queue p with
  | [] => Some p
  | _ :: _ =>
      match fuel with
      | O => None
      | S fuel' => drain fuel' sched (S k) (worker_steps (sched k) p)
      end
  end.

(** How a call of [end_session] stands after [fuel] sleeps. *)
Inductive end_result :=
| Ended (p : FrameProcessor) (stats : pydict)   (* it returned [stats] *)
| EndRaised (p : FrameProcessor)                (* an exception left it *)
| Waiting.                                      (* it is still in the loop *)

(** End the current session and return final stats. *)
Definition end_session (fuel : nat) (sched : nat -> nat) (p : FrameProcessor)
           (now : float) : end_result :=
  match get_stats p now with
  | None => EndRaised p
  | Some stats =>
      (* Wait for save queue to empty *)
      match drain fuel sched 0 p with
      | None => Waiting
      | Some p =>
          let p := _close_files p in
          (* Save final stats *)
          let saved :=
            match session_path p with
            | Some id =>
                match session_files p id with
                | Some _ =>
                    Some (update_files p id
                            (fun d => with_session_stats_json d (Some stats)))
                | None => None      (* no directory to open the file in *)
                end
            | None => Some p
            end in
          match saved with
          | None => EndRaised p
          | Some p =>
              Ended {| base_dir := base_dir p; captures := captures p;
                       current_session := None; session_path := None;
                       stats := None;
                       save_queue := save_queue p; running := running p;
                       imu_file := imu_file p;
                       rgb_txt_file := rgb_txt_file p;
                       intrinsics_saved := intrinsics_saved p |}
                    stats
          end
      end
  end.

(** ** list_sessions *)

(** [len(list(rgb_dir.glob("*.jpg"))) if rgb_dir.exists() else 0]. *)
Definition count_frames (d : SessionFiles) : nat :=
  match rgb_files d with
  | Some files => length (Validate.glob_jpg (map fst (map_to_list files)))
  | None => 0
  end.

(** The descriptor of the session directory [name]:
    [{"session_id": path.name, "path": str(path), **stats}]. *)
Definition descriptor (base name : string) (d : SessionFiles) : pydict :=
  let stats :=
    match session_stats_json d with
    | Some stats => stats
    | None => [("frame_count", JInt (Z.of_nat (count_frames d)))]
    end in
  PyDict.merge [("session_id", JStr name);
                ("path", JStr (base +:+ "/" +:+ name))] stats.

Definition describe (base : string) (e : string * Entry) : option pydict :=
  match snd e with
  | Dir d =>
      if Py.startswith (fst e) "session_"
      then Some (descriptor base (fst e) d)
      else None
  | File => None
  end.

(** [x["session_id"]], when it is a string. *)
Definition sort_key (x : pydict) : option string :=
  match PyJson.get x "session_id" JNull with
  | JStr s => Some s
  | _ => None
  end.

Definition key (x : pydict) : string := default "" (sort_key x).

(** List all capture sessions.  The entries are met in the order
    [iterdir] yields them.  [None]: some session id is not a string (how
    such keys sort is left out). *)
Definition list_sessions (p : FrameProcessor) : option (list pydict) :=
  let sessions := omap (describe (base_dir p)) (map_to_list (captures p)) in
  if forallb (fun x => bool_decide (is_Some (sort_key x))) sessions
  then Some (Py.sorted_desc key sessions)
  else None.

(** ** Observations on a listing *)


(** Each id is strictly below the one before it. *)
Definition strictly_descending (ids : list string) : Prop :=
  Sorted (fun a b => String.ltb b a = true) ids.

(** The persisted statistics of every session directory carry the name of
    that directory as their session id, as those written by [end_session]
    do. *)
Definition names_own_sessions (p : FrameProcessor) : Prop :=
  forall name d,
    captures p !! name = Some (Dir d) ->
    sort_key (descriptor (base_dir p) name d) = Some name.

(** The current session has its directory and its statistics. *)
Definition session_in_place (p : FrameProcessor) (id : string) : Prop :=
  session_path p = Some id /\
  is_Some (session_files p id) /\
  exists st, stats p = Some st /\ session_id st = id.

(** [p'] has the session directories of [p], each listed under the id it
    had. *)
Definition keeps_listing (p p' : FrameProcessor) : Prop :=
  base_dir p' = base_dir p /\
  (names_own_sessions p -> names_own_sessions p') /\
  (forall name, is_Some (session_files p' name) <-> is_Some (session_files p name)).

(** ** Observations on the files of a session *)


(** What imu.csv, rgb.txt, intrinsics.json and session_stats.json of
    session [id] hold, when they exist. *)
Definition imu_on_disk (p : FrameProcessor) (id : string)
  : option (list (list json)) :=
  session_files p id ≫= imu_csv.

Definition rgb_txt_on_disk (p : FrameProcessor) (id : string)
  : option (list string) :=
  session_files p id ≫= rgb_txt.

Definition intrinsics_on_disk (p : FrameProcessor) (id : string) : option json :=
  session_files p id ≫= intrinsics_json.

Definition stats_on_disk (p : FrameProcessor) (id : string) : option pydict :=
  session_files p id ≫= session_stats_json.

(** The line of rgb.txt for a frame stamped [t]:
    [f"{timestamp_str} rgb/{frame_filename}"]. *)
Definition tum_line (t : float) : string :=
  let timestamp_str := Py.format_6f t in
  let frame_filename := timestamp_str +:+ ".jpg" in
  timestamp_str +:+ " rgb/" +:+ frame_filename.


(** Every row of every imu.csv has the eleven columns of the header. *)
Definition imu_rectangular (p : FrameProcessor) : Prop :=
  forall id rows,
    imu_on_disk p id = Some rows ->
    Forall (fun row => length row = length imu_header) rows.

(** ** Frames in sequence *)

(** The packets [pkts], each with the clock reading and the clock id of
    its arrival, handed to [process_frame] one after the other. *)
Fixpoint process_frames (p : FrameProcessor)
         (pkts : list (FramePacket * float * string)) : FrameProcessor :=
  match pkts with
  | [] => p
  | (pkt, now, clock_id) :: rest =>
      process_frames (fst (process_frame p pkt now clock_id)) rest
  end.

End Processor.

(* ===================================================================== *)
(** * websocket_server.py: the connection handler *)
(* ===================================================================== *)

Module Server.

Import Processor.

(** Represents a connected client. *)
Record ClientConnection := {
  is_streaming : bool;
  is_paused : bool;
  frames_received : nat;
  last_frame_time : float
}.

Definition new_client : ClientConnection :=
  {| is_streaming := false; is_paused := false; frames_received := 0;
     last_frame_time := 0 |}.

(** An inbound message, as [_process_message] classifies it: a frame with
    the packet [parse_frame_packet] makes of it ([None] when that raises),
    or a control message with its command and optional session id. *)
Inductive inbound :=
| FrameMessage (packet : option FramePacket)
| ControlMessage (command : string) (session_id : option string).

(** A message together with what the handler takes from its environment
    while it handles it: the sender, the clock, the id the clock would
    generate, and the turns the save thread gets during each sleep of
    [end_session]. *)
Record Event := {
  sender : string;
  message : inbound;
  now : float;
  clock_id : string;
  sched : nat -> nat
}.

Record PhoneSplatServer := {
  clients : gmap string ClientConnection;
  processor : FrameProcessor
}.

(** The calls a handler makes on the processor, in order: [create_session]
    and whether it returned, [end_session] when it returned, and
    [process_frame] with its result. *)
Inductive call :=
| CreateSession (returned : bool)
| EndSession
| ProcessFrame (result : bool).

Definition client_of (s : PhoneSplatServer) (cid : string) : ClientConnection :=
  default new_client (clients s !! cid).

Definition with_client (s : PhoneSplatServer) (cid : string)
           (c : ClientConnection) : PhoneSplatServer :=
  {| clients := <[cid := c]> (clients s); processor := processor s |}.

Definition with_processor (s : PhoneSplatServer) (p : FrameProcessor)
  : PhoneSplatServer :=
  {| clients := clients s; processor := p |}.

(** [if not self.processor.current_session]. *)
Definition no_session (p : FrameProcessor) : bool :=
  match current_session p with
  | None => true
  | Some id => String.eqb id ""
  end.

(** Handle an incoming frame packet. *)
Definition _handle_frame (s : PhoneSplatServer) (ev : Event)
           (packet : option FramePacket) : PhoneSplatServer * list call :=
  let cid := sender ev in
  let c := client_of s cid in
  if is_paused c then (s, [])
  else
    (* Start session if needed *)
    let '(s, c, log, raised) :=
      if negb (is_streaming c) then
        let c := {| is_streaming := true; is_paused := is_paused c;
                    frames_received := frames_received c;
                    last_frame_time := last_frame_time c |} in
        let s := with_client s cid c in
        if no_session (processor s) then
          let '(p, id) :=
            create_session (processor s) None (now ev) (clock_id ev) in
          (with_processor s p, c, [CreateSession (bool_decide (is_Some id))],
           negb (bool_decide (is_Some id)))
        else (s, c, [], false)
      else (s, c, [], false) in
    if raised then (s, log)
    else
      (* Parse and process frame *)
      match packet with
      | None => (s, log)
      | Some pkt =>
          let fresh := bool_decide (session_path (processor s) = None) in
          let '(p, result) :=
            process_frame (processor s) pkt (now ev) (clock_id ev) in
          let s := with_processor s p in
          match result with
          | None => (s, log ++ [CreateSession false])
          | Some ok =>
              let c := {| is_streaming := is_streaming c;
                          is_paused := is_paused c;
                          frames_received := S (frames_received c);
                          last_frame_time := now ev |} in
              (with_client s cid c,
               log ++ (if fresh then [CreateSession true] else [])
                   ++ [ProcessFrame ok])
          end
      end.

(** Handle a control command.  [None]: [end_session] has not returned
    after [fuel] sleeps. *)
Definition _handle_control (fuel : nat) (s : PhoneSplatServer) (ev : Event)
           (command : string) (session_id : option string)
  : option (PhoneSplatServer * list call) :=
  let cid := sender ev in
  let c := client_of s cid in
  if String.eqb command "start_session" then
    let '(p, id) :=
      create_session (processor s) session_id (now ev) (clock_id ev) in
    let s := with_processor s p in
    match id with
    | Some _ =>
        Some (with_client s cid
                {| is_streaming := true; is_paused := false;
                   frames_received := frames_received c;
                   last_frame_time := last_frame_time c |},
              [CreateSession true])
    | None => Some (s, [CreateSession false])
    end
  else if String.eqb command "end_session" then
    match end_session fuel (sched ev) (processor s) (now ev) with
    | Ended p _ =>
        Some (with_client (with_processor s p) cid
                {| is_streaming := false; is_paused := is_paused c;
                   frames_received := frames_received c;
                   last_frame_time := last_frame_time c |},
              [EndSession])
    | EndRaised p => Some (with_processor s p, [])
    | Waiting => None
    end
  else if String.eqb command "pause" then
    Some (with_client s cid
            {| is_streaming := is_streaming c; is_paused := true;
               frames_received := frames_received c;
               last_frame_time := last_frame_time c |}, [])
  else if String.eqb command "resume" then
    Some (with_client s cid
            {| is_streaming := is_streaming c; is_paused := false;
               frames_received := frames_received c;
               last_frame_time := last_frame_time c |}, [])
  else
    (* get_status, ping and unknown commands only send a reply *)
    Some (s, []).

(** Process an incoming message from a client. *)
Definition _process_message (fuel : nat) (s : PhoneSplatServer) (ev : Event)
  : option (PhoneSplatServer * list call) :=
  match message ev with
  | FrameMessage packet => Some (_handle_frame s ev packet)
  | ControlMessage command session_id =>
      _handle_control fuel s ev command session_id
  end.

(** The messages of all clients, one after the other. *)
Fixpoint run (fuel : nat) (evs : list Event) (s : PhoneSplatServer)
  : option (PhoneSplatServer * list call) :=
  match evs with
  | [] => Some (s, [])
  | ev :: rest =>
      match _process_message fuel s ev with
      | None => None
      | Some (s, log) =>
          match run fuel rest s with
          | None => None
          | Some (s, log') => Some (s, log ++ log')
          end
      end
  end.

(** How many [process_frame] calls the current [SessionStats] object has
    seen, and how many of them returned [True]: the count starts again
    whenever a new object is made or the old one is dropped. *)
Definition tally_step (acc : nat * nat) (c : call) : nat * nat :=
  match c with
  | CreateSession true => (0, 0)%nat
  | CreateSession false => acc
  | EndSession => (0, 0)%nat
  | ProcessFrame ok => (S (fst acc), if ok then S (snd acc) else snd acc)
  end.

Definition tally (log : list call) : nat * nat :=
  fold_left tally_step log (0, 0)%nat.

Definition calls_seen (log : list call) : nat := fst (tally log).
Definition calls_succeeded (log : list call) : nat := snd (tally log).


(** The statistics object, when there is one, has counted [fst acc]
    frames. *)
Definition counts (p : FrameProcessor) (acc : nat * nat) : Prop :=
  forall st, stats p = Some st -> frame_count st = fst acc.

(** The calls [process_frame] amounts to, from its result and from whether
    it had to create the session first. *)
Definition frame_calls (fresh : bool) (result : option bool) : list call :=
  match result with
  | None => [CreateSession false]
  | Some ok => (if fresh then [CreateSession true] else []) ++ [ProcessFrame ok]
  end.

End Server.

(* ===================================================================== *)
(** * The session ids made from the clock *)
(* ===================================================================== *)

Module Clock.

(** [datetime.now()], to the second. *)
Record datetime := {
  year : Z;
  month : Z;
  day : Z;
  hour : Z;
  minute : Z;
  second : Z
}.

(** A number in decimal, zero padded to [width] digits: [%m], [%d], [%H],
    [%M] and [%S] have a width of two, [%Y] has a width of four. *)
Definition field (width : nat) (n : Z) : string :=
  Py.zero_pad width (Py.decimal n).

(** [datetime.now().strftime("session_%Y%m%d_%H%M%S")], the id
    [create_session] gives a session when the caller names none. *)
Definition session_id_at (t : datetime) : string :=
  "session_" +:+ field 4 (year t) +:+ field 2 (month t) +:+ field 2 (day t)
  +:+ "_" +:+ field 2 (hour t) +:+ field 2 (minute t) +:+ field 2 (second t).

(** The dates and times a clock shows from the year 1000 on. *)
Definition in_calendar (t : datetime) : Prop :=
  (1000 <= year t <= 9999) /\ (1 <= month t <= 12) /\ (1 <= day t <= 31) /\
  (0 <= hour t <= 23) /\ (0 <= minute t <= 59) /\ (0 <= second t <= 59).

Definition stamp (t : datetime) : list Z :=
  [year t; month t; day t; hour t; minute t; second t].

Fixpoint lex_ltb (a b : list Z) : bool :=
  match a, b with
  | x :: a', y :: b' => (x <? y) || ((x =? y) && lex_ltb a' b')
  | _, _ => false
  end.

(** [a] is an earlier second than [b]. *)
Definition earlier (a b : datetime) : bool := lex_ltb (stamp a) (stamp b).

End Clock.

(* ===================================================================== *)
(** * Frame packets on the wire *)
(* ===================================================================== *)

(** [base64.b64encode] and [base64.b64decode] (with the default
    [validate=False]) of the Python library, which the test client and
    [parse_frame_packet] call. *)
Module Base64.

(** The alphabet of RFC 4648. *)
Definition alphabet : list ascii :=
  list_ascii_of_string
    "ABCDEFGHIJKLMNOPQRSTUVWXYZabcdefghijklmnopqrstuvwxyz0123456789+/".

Definition pad : ascii := "="%char.

(** The character that stands for a sextet. *)
Definition b2a (sextet : Z) : ascii := nth (Z.to_nat sextet) alphabet pad.

(** The sextet a character stands for, when it is in the alphabet. *)
Fixpoint index_from (i : Z) (c : ascii) (l : list ascii) : option Z :=
  match l with
  | [] => None
  | x :: r => if Ascii.eqb x c then Some i else index_from (i + 1) c r
  end.

Definition a2b (c : ascii) : option Z := index_from 0 c alphabet.

(** Bytes as numbers below 256. *)
Definition Z_of_byte (b : Byte.byte) : Z := Z.of_N (Byte.to_N b).

Definition byte_of_Z (z : Z) : Byte.byte :=
  default Byte.x00 (Byte.of_N (Z.to_N (Z.land z 255))).

(** Three bytes give four characters; one or two bytes left over give two
    or three characters and are padded to four. *)
Fixpoint encode (l : list Z) : list ascii :=
  match l with
  | a :: b :: c :: rest =>
      b2a (Z.shiftr a 2)
      :: b2a (Z.lor (Z.shiftl (Z.land a 3) 4) (Z.shiftr b 4))
      :: b2a (Z.lor (Z.shiftl (Z.land b 15) 2) (Z.shiftr c 6))
      :: b2a (Z.land c 63)
      :: encode rest
  | [a; b] =>
      [b2a (Z.shiftr a 2);
       b2a (Z.lor (Z.shiftl (Z.land a 3) 4) (Z.shiftr b 4));
       b2a (Z.shiftl (Z.land b 15) 2);
       pad]
  | [a] => [b2a (Z.shiftr a 2); b2a (Z.shiftl (Z.land a 3) 4); pad; pad]
  | [] => []
  end.

(** [base64.b64encode(data).decode('utf-8')]. *)
Definition b64encode (data : list Byte.byte) : string :=
  string_of_list_ascii (encode (map Z_of_byte data)).

(** The loop of the decoder, at position [quad_pos] of a group of four
    with the bits [leftchar] of the last character left over and [pads]
    padding characters seen since.  Characters outside the alphabet are
    passed over; a padding character ends the input when it completes a
    group begun with two characters or more, and is passed over
    otherwise.  [None]: the input ends inside a group
    ([binascii.Error]). *)
Fixpoint decode_loop (l : list ascii) (quad_pos : nat) (leftchar : Z)
         (pads : nat) (out : list Z) : option (list Z) :=
  match l with
  | [] => if (quad_pos =? 0)%nat then Some out else None
  | c :: rest =>
      if Ascii.eqb c pad then
        if (2 <=? quad_pos)%nat then
          if (4 <=? quad_pos + S pads)%nat then Some out
          else decode_loop rest quad_pos leftchar (S pads) out
        else decode_loop rest quad_pos leftchar pads out
      else
        match a2b c with
        | None => decode_loop rest quad_pos leftchar pads out
        | Some v =>
            match quad_pos with
            | 0%nat => decode_loop rest 1 v 0 out
            | 1%nat =>
                decode_loop rest 2 (Z.land v 15) 0
                  (out ++ [Z.land (Z.lor (Z.shiftl leftchar 2) (Z.shiftr v 4))
                                  255])
            | 2%nat =>
                decode_loop rest 3 (Z.land v 3) 0
                  (out ++ [Z.land (Z.lor (Z.shiftl leftchar 4) (Z.shiftr v 2))
                                  255])
            | _ =>
                decode_loop rest 0 0 0
                  (out ++ [Z.land (Z.lor (Z.shiftl leftchar 6) v) 255])
            end
        end
  end.

Definition is_ascii (c : ascii) : bool := (N_of_ascii c <? 128)%N.

(** [base64.b64decode(v)]: [None] where it raises, on a value that is no
    string ([TypeError]), on a string with a character that is not ASCII
    ([ValueError]) and on one that is not correctly padded
    ([binascii.Error]). *)
Definition b64decode (v : json) : option (list Byte.byte) :=
  match v with
  | JStr s =>
      let l := list_ascii_of_string s in
      if forallb is_ascii l
      then map byte_of_Z <$> decode_loop l 0 0 0 []
      else None
  | _ => None
  end.

End Base64.

Module Wire.

Import Processor.

(** Parse a JSON frame packet from the phone app; [None] when decoding
    the frame raises. *)
Definition parse_frame_packet (data : pydict) (received_at : float)
  : option FramePacket :=
  (* Decode base64 frame data *)
  match Base64.b64decode (PyJson.get data "frame" (JStr "")) with
  | None => None
  | Some frame_data =>
      Some {| timestamp := PyJson.get data "timestamp" (JFloat received_at);
              frame_data := frame_data;
              imu := PyJson.get data "imu" (JDict []);
              camera_intrinsics := PyJson.get data "camera_intrinsics" (JDict []);
              received_at := received_at |}
  end.

(** The packet the test client sends for a frame: the time of sending,
    the image in base64, an IMU sample and the intrinsics. *)
Definition client_packet (timestamp : float) (frame_data : list Byte.byte)
           (imu intrinsics : json) : pydict :=
  [("timestamp", JFloat timestamp);
   ("frame", JStr (Base64.b64encode frame_data));
   ("imu", imu);
   ("camera_intrinsics", intrinsics)].

(** [n / 2] on an int: the correctly rounded quotient, [None] for the
    [OverflowError] of a quotient beyond the floats. *)
Definition half (n : Z) : option float :=
  let f := Py.int_truediv n 2 in
  if PrimFloat.is_infinity f then None else Some f.

(** [generate_camera_intrinsics(width, height)] of the test client;
    [None] when a division raises. *)
Definition generate_camera_intrinsics (width height : Z) : option json :=
  let focal_length := 1000 in
  cx ← half width;
  cy ← half height;
  Some (JDict [("fx", JInt focal_length);
               ("fy", JInt focal_length);
               ("cx", JFloat cx);
               ("cy", JFloat cy);
               ("width", JInt width);
               ("height", JInt height)]).

End Wire.

(* ===================================================================== *)
(** * monogs_bridge.py: preparing a session for MonoGS *)
(* ===================================================================== *)

Module Bridge.

Import Config Validate.

(** ** The session path *)

(** The session path as the bridge writes below it: its text, the text of
    its absolute form, which files can be opened for writing, and whether
    the output directory can be made.  A file that was opened is written
    to the end. *)
Record SessionPath := {
  path : string;                    (* str(session_path) *)
  absolute : string;                (* str(session_path.absolute()) *)
  writable : string -> bool;        (* open(file, 'w') does not raise *)
  mkdir_ok : bool                   (* output_dir.mkdir(exist_ok=True) *)
}.

(** [session_path / name], as text. *)
Definition child (t : SessionPath) (name : string) : string :=
  path t +:+ "/" +:+ name.

(** A file of the session directory: there is none in a directory that
    does not exist. *)
Definition file {A} (s : SessionDir) (read : SessionDir -> option A)
  : option A :=
  if present s then read s else None.

(** [(session_path / fname).exists()]. *)
Definition exists_ (s : SessionDir) (fname : string) : bool :=
  if String.eqb fname "rgb.txt" then bool_decide (is_Some (file s rgb_txt))
  else if String.eqb fname "intrinsics.json"
       then bool_decide (is_Some (file s intrinsics_json))
  else if String.eqb fname "imu.csv" then bool_decide (is_Some (file s imu_csv))
  else if String.eqb fname "rgb" then bool_decide (is_Some (file s rgb))
  else false.

(** ** generate_monogs_config *)

(** The "camera" section: height and width as the file has them, the
    focal lengths and the principal point through [float]; [None] when a
    conversion raises. *)
Definition camera (intrinsics : list (string * json))
  : option (list (string * json)) :=
  fx ← PyJson.float_of (PyJson.get intrinsics "fx" (JInt 1000));
  fy ← PyJson.float_of (PyJson.get intrinsics "fy" (JInt 1000));
  cx ← PyJson.float_of (PyJson.get intrinsics "cx" (JInt 360));
  cy ← PyJson.float_of (PyJson.get intrinsics "cy" (JInt 640));
  Some [("H", PyJson.get intrinsics "height" (JInt 1280));
        ("W", PyJson.get intrinsics "width" (JInt 720));
        ("fx", JFloat fx);
        ("fy", JFloat fy);
        ("cx", JFloat cx);
        ("cy", JFloat cy);
        ("png_depth_scale", JFloat 5000);   (* Not used for monocular *)
        ("crop_edge", JInt 0)].

(** Build config; [None] when [intrinsics] has no [get] or a conversion
    raises. *)
Definition build_config (t : SessionPath) (intrinsics : json) : option json :=
  match intrinsics with
  | JDict d =>
      cam ← camera d;
      Some (JDict
        [("dataset", JStr "tum");
         ("data",
          JDict [("basedir",
                  JStr (Py.replace_char (ascii_of_nat 92) "/" (absolute t)));
                 ("sequence", JStr ".");
                 ("gradslam_data_cfg", JDict [("dataset_name", JStr "tum")])]);
         ("camera", JDict cam);
         ("tracking",
          JDict [("iters", PyJson.get MONOGS_TRACKING_CONFIG "iters" (JInt 40));
                 ("w_color_loss",
                  PyJson.get MONOGS_TRACKING_CONFIG "w_color_loss" (JFloat 0.5));
                 ("use_depth_loss", JBool false);   (* Monocular mode *)
                 ("use_sil_for_loss", JBool true);
                 ("sil_thres", JFloat 0.5);
                 ("use_gt_depth", JBool false);
                 ("ignore_outlier_depth_loss", JBool false);
                 ("tracking_device", JStr "cuda:0")]);
         ("mapping",
          JDict [("iters", PyJson.get MONOGS_MAPPING_CONFIG "iters" (JInt 60));
                 ("new_submap_every",
                  PyJson.get MONOGS_MAPPING_CONFIG "new_submap_every" (JInt 50));
                 ("new_gaussians_every",
                  PyJson.get MONOGS_MAPPING_CONFIG "new_gaussians_every"
                             (JInt 5));
                 ("use_gt_depth", JBool false);
                 ("mapping_device", JStr "cuda:0")]);
         ("viz",
          JDict [("use_gui", JBool true);
                 ("save_imgs", JBool true);
                 ("save_videos", JBool false)]);
         ("Training",
          JDict [("monocular", JBool true);
                 ("edge_threshold", JFloat 4);
                 ("rgb_boundary_threshold",
                  JFloat (default nan (Py.float_of_string "0.01")))])])
  | _ => None
  end.

(** Generate a MonoGS-compatible YAML config file for a session: the path
    of the file and the config dumped to it, or [None] when an exception
    leaves the function; nothing is written then. *)
Definition generate_monogs_config (t : SessionPath) (s : SessionDir)
           (output_path : option string) : option (string * json) :=
  let output_path :=
    match output_path with
    | None => child t "monogs_config.yaml"
    | Some given => given
    end in
  (* Load intrinsics *)
  match file s intrinsics_json with
  | None => None                          (* FileNotFoundError *)
  | Some None => None                     (* json.load raises *)
  | Some (Some intrinsics) =>
      (* Build config *)
      match build_config t intrinsics with
      | None => None
      | Some config =>
          (* Write config *)
          if writable t output_path then Some (output_path, config) else None
      end
  end.

(** ** create_associations_file *)

(** [[l.strip() for l in f if l.strip() and not l.startswith('#')]]. *)
Definition entries (lines : list string) : list string :=
  map Py.strip_string (List.filter is_entry lines).

(** The line written for an entry, if one is. *)
Definition association (line : string) : option string :=
  match Py.split line with
  | timestamp :: rgb_path :: _ => Some (timestamp +:+ " " +:+ rgb_path)
  | _ => None
  end.

Definition associations (lines : list string) : list string :=
  omap association (entries lines).

(** Create associations.txt: the lines written, or [None] when an
    exception leaves the function. *)
Definition create_associations_file (t : SessionPath) (s : SessionDir)
  : option (list string) :=
  match file s rgb_txt with
  | None => None                          (* FileNotFoundError *)
  | Some None => None                     (* reading raises *)
  | Some (Some lines) =>
      if writable t (child t "associations.txt")
      then Some (associations lines)
      else None
  end.

(** ** prepare_session *)

(** The entries of "errors" and "warnings". *)
Inductive finding :=
| Reported (m : message)            (* taken over from the validation *)
| MissingRequiredFile (fname : string)
| ConfigFailed                      (* Failed to generate config *)
| AssociationsFailed.               (* Failed to create associations *)

(** Dict with preparation results. *)
Record PrepareResult := {
  session : string;
  success : bool;
  config_path : option string;
  errors : list finding;
  warnings : list finding
}.

Definition add_error (r : PrepareResult) (e : list finding) : PrepareResult :=
  {| session := session r; success := success r;
     config_path := config_path r;
     errors := errors r ++ e; warnings := warnings r |}.

Definition add_warning (r : PrepareResult) (w : list finding) : PrepareResult :=
  {| session := session r; success := success r;
     config_path := config_path r;
     errors := errors r; warnings := warnings r ++ w |}.

(** What a call wrote below the session path. *)
Record Written := {
  config : option (string * json);          (* the YAML config *)
  associations_txt : option (list string);  (* the lines of associations.txt *)
  output_dir : bool                         (* MONOGS_OUTPUT_DIR was made *)
}.

Definition nothing : Written :=
  {| config := None; associations_txt := None; output_dir := false |}.

(** How a call ends: with its result dict, or with the exception of
    [mkdir] leaving it. *)
Inductive prepared :=
| Prepared (result : PrepareResult) (w : Written)
| MkdirRaised (w : Written).

Definition required_files : list string := ["rgb.txt"; "intrinsics.json"].

(** Everything after the validation: the required files, the config, the
    associations and the output directory. *)
Definition prepare_files (t : SessionPath) (s : SessionDir)
           (result : PrepareResult) : prepared :=
  (* Check required files *)
  let result :=
    fold_left
      (fun result fname =>
         if negb (exists_ s fname)
         then add_error result [MissingRequiredFile fname]
         else result)
      required_files result in
  match errors result with
  | _ :: _ => Prepared result nothing
  | [] =>
      (* Generate MonoGS config *)
      match generate_monogs_config t s None with
      | None => Prepared (add_error result [ConfigFailed]) nothing
      | Some (config_file, cfg) =>
          let result :=
            {| session := session result; success := success result;
               config_path := Some config_file;
               errors := errors result; warnings := warnings result |} in
          (* Create associations file *)
          let assoc := create_associations_file t s in
          let result :=
            match assoc with
            | Some _ => result
            | None => add_warning result [AssociationsFailed]
            end in
          (* Create output directory *)
          if mkdir_ok t then
            Prepared
              {| session := session result; success := true;
                 config_path := config_path result;
                 errors := errors result; warnings := warnings result |}
              {| config := Some (config_file, cfg);
                 associations_txt := assoc;
                 output_dir := true |}
          else
            MkdirRaised
              {| config := Some (config_file, cfg);
                 associations_txt := assoc;
                 output_dir := false |}
      end
  end.

(** Prepare a capture session for MonoGS reconstruction. *)
Definition prepare_session (t : SessionPath) (s : SessionDir) (validate : bool)
  : prepared :=
  let result :=
    {| session := name s; success := false; config_path := None;
       errors := []; warnings := [] |} in
  (* Validate if requested *)
  if validate then
    let validation := validate_session s in
    if negb (is_valid validation)
    then Prepared (add_error result (map Reported (Validate.errors validation)))
                  nothing
    else
      match Validate.warnings validation with
      | [] => prepare_files t s result
      | ws => prepare_files t s (add_warning result (map Reported ws))
      end
  else prepare_files t s result.

End Bridge.

(* ===================================================================== *)
(** * Sample captures and message sequences *)
(* ===================================================================== *)

Module Examples.

(** The float a decimal literal denotes. *)
Definition lit (s : string) : float := default nan (Py.float_of_string s).

(** The name [process_frame] gives the image of a frame:
    [f"{packet.timestamp:.6f}.jpg"]. *)
Definition frame_name (ts : float) : string := Py.format_6f ts +:+ ".jpg".

(** A session directory that holds nothing but readable 720x1280 images
    under rgb/. *)
Definition frames_only (entries : list string) : Validate.SessionDir :=
  {| Validate.name := "session_20241222_153045";
     Validate.present := true;
     Validate.rgb := Some entries;
     Validate.image_size := fun _ => Some (720, 1280);
     Validate.imu_csv := None;
     Validate.intrinsics_json := None;
     Validate.rgb_txt := None |}.

(** Frames stamped 1.0, 2.0, 1.5 and 3.0. *)
Definition out_of_order_frames : list string :=
  map frame_name [1; 2; 1.5; 3]%float.

(** Frames stamped 0.0, 0.1, 0.1 + 2.5 and 2.7. *)
Definition gap_frames : list string :=
  map frame_name [0; lit "0.1"; lit "0.1" + 2.5; lit "2.7"]%float.

(** Frames stamped 9.0 and 10.0: as names, the second sorts first. *)
Definition rollover_frames : list string := map frame_name [9; 10]%float.

(** A session with two frames out of order whose images cannot be read and
    whose other files are all missing. *)
Definition poor_session : Validate.SessionDir :=
  {| Validate.name := "session_20241222_153045";
     Validate.present := true;
     Validate.rgb := Some rollover_frames;
     Validate.image_size := fun _ => None;
     Validate.imu_csv := None;
     Validate.intrinsics_json := None;
     Validate.rgb_txt := None |}.

(** Thirty frames stamped 100, 101, ..., 129, a second apart. *)
Definition steady_frames : list string :=
  map (fun k => frame_name (Py.float_of_nat (100 + k))) (seq 0 30).

(** The steady frames next to an imu.csv that cannot be read, an
    intrinsics.json that holds an empty list and an rgb.txt without
    entries. *)
Definition steady_session_with_bad_files : Validate.SessionDir :=
  {| Validate.name := "session_20241222_153045";
     Validate.present := true;
     Validate.rgb := Some steady_frames;
     Validate.image_size := fun _ => Some (720, 1280);
     Validate.imu_csv := Some None;
     Validate.intrinsics_json := Some (Some (JList []));
     Validate.rgb_txt := Some (Some []) |}.

(** The steady frames next to the intrinsics the test client sends for
    frames of 720 x 1280. *)
Definition client_session : Validate.SessionDir :=
  {| Validate.name := "session_20241222_153045";
     Validate.present := true;
     Validate.rgb := Some steady_frames;
     Validate.image_size := fun _ => Some (720, 1280);
     Validate.imu_csv := None;
     Validate.intrinsics_json :=
       Some (Wire.generate_camera_intrinsics 720 1280);
     Validate.rgb_txt := None |}.

(** The client session with the rgb.txt of two frames. *)
Definition recorded_session : Validate.SessionDir :=
  {| Validate.name := "session_20241222_153045";
     Validate.present := true;
     Validate.rgb := Some steady_frames;
     Validate.image_size := fun _ => Some (720, 1280);
     Validate.imu_csv := None;
     Validate.intrinsics_json :=
       Some (Wire.generate_camera_intrinsics 720 1280);
     Validate.rgb_txt :=
       Some (Some ["# timestamp filename";
                   "100.000000 rgb/100.000000.jpg";
                   "101.000000 rgb/101.000000.jpg"]) |}.

(** Its path, with every file writable. *)
Definition capture_path : Bridge.SessionPath :=
  {| Bridge.path := "captures/session_20241222_153045";
     Bridge.absolute := "/home/user/captures/session_20241222_153045";
     Bridge.writable := fun _ => true;
     Bridge.mkdir_ok := true |}.

(** A processor over an empty captures directory. *)
Definition fresh : Processor.FrameProcessor := Processor.init "captures" ∅.

(** A frame without payload, IMU sample or intrinsics, stamped [ts] and
    received half a second later. *)
Definition frame_at (ts : float) : Processor.FramePacket :=
  {| Processor.timestamp := JFloat ts;
     Processor.frame_data := [];
     Processor.imu := JDict [];
     Processor.camera_intrinsics := JDict [];
     Processor.received_at := (ts + 0.5)%float |}.

(** The same frame carrying the camera intrinsics [intrinsics]. *)
Definition frame_with (ts : float) (intrinsics : json) : Processor.FramePacket :=
  {| Processor.timestamp := JFloat ts;
     Processor.frame_data := [];
     Processor.imu := JDict [];
     Processor.camera_intrinsics := intrinsics;
     Processor.received_at := (ts + 0.5)%float |}.

(** The packet of the message [{"frame": "", "timestamp": "soon"}]. *)
Definition unstamped_frame : Processor.FramePacket :=
  {| Processor.timestamp := JStr "soon";
     Processor.frame_data := [];
     Processor.imu := JDict [];
     Processor.camera_intrinsics := JDict [];
     Processor.received_at := 100 |}.

(** The processor after [create_session(id)] at time 100. *)
Definition session_started (id : string) : Processor.FrameProcessor :=
  fst (Processor.create_session fresh (Some id) 100 "session_20241222_153045").

(** [n] frames stamped 100, 101, ... processed one after the other. *)
Fixpoint feed (n : nat) (ts : float) (p : Processor.FrameProcessor)
  : Processor.FrameProcessor :=
  match n with
  | O => p
  | S n' =>
      feed n' (ts + 1)%float
           (fst (Processor.process_frame p (frame_at ts) (ts + 0.5)%float
                   "session_20241222_153045"))
  end.



(** [create_session(id)] and, with nothing queued, [end_session()]. *)
Definition record_session (id : string) (p : Processor.FrameProcessor)
  : Processor.end_result :=
  Processor.end_session 0 (fun _ => 0%nat)
    (fst (Processor.create_session p (Some id) 100 "session_20241222_153045"))
    200.

(** A server without clients over an empty captures directory. *)
Definition idle_server : Server.PhoneSplatServer :=
  {| Server.clients := ∅; Server.processor := fresh |}.

(** Client "client_1" sends [msg] at time 100; the save thread gets one
    turn per sleep. *)
Definition sends (msg : Server.inbound) : Server.Event :=
  {| Server.sender := "client_1";
     Server.message := msg;
     Server.now := 100;
     Server.clock_id := "session_20241222_153045";
     Server.sched := fun _ => 1%nat |}.

End Examples.

(* ===================================================================== *)
(** * Properties of the runtime model *)
(* ===================================================================== *)

Module PyFacts.

(** ** Order on strings *)

Lemma leb_iff a b : String.leb a b = true <-> a = b \/ String.ltb a b = true.
Proof.
  unfold String.leb, String.ltb.
  destruct (String.compare a b) eqn:E; split; intros H; try discriminate; auto.
  - left. now apply String.compare_eq_iff.
  - destruct H as [-> | H]; [| discriminate].
    assert (String.compare b b = Eq) as Hb.
    { pose proof (String.compare_antisym b b) as Ha.
      destruct (String.compare b b); simpl in Ha; congruence. }
    congruence.
Qed.

Lemma ltb_lt a b : String.ltb a b = true <-> OrderedTypeEx.String_as_OT.lt a b.
Proof.
  unfold String.ltb. rewrite <- OrderedTypeEx.String_as_OT.cmp_lt.
  unfold OrderedTypeEx.String_as_OT.cmp.
  destruct (String.compare a b); split; intros; congruence.
Qed.

Lemma ltb_trans a b c :
  String.ltb a b = true -> String.ltb b c = true -> String.ltb a c = true.
Proof.
  rewrite !ltb_lt. apply OrderedTypeEx.String_as_OT.lt_trans.
Qed.

Lemma ltb_irrefl a : String.ltb a a = false.
Proof.
  destruct (String.ltb a a) eqn:E; [| reflexivity].
  apply ltb_lt in E.
  exfalso. eapply OrderedTypeEx.String_as_OT.lt_not_eq; [exact E | reflexivity].
Qed.


Lemma leb_trans a b c :
  String.leb a b = true -> String.leb b c = true -> String.leb a c = true.
Proof.
  rewrite !leb_iff. intros [-> | H1] [-> | H2]; auto.
  right. eapply ltb_trans; eauto.
Qed.

Lemma leb_false_ltb a b : String.leb a b = false -> String.ltb b a = true.
Proof.
  unfold String.leb, String.ltb. rewrite (String.compare_antisym b a).
  destruct (String.compare a b); simpl; congruence.
Qed.

Lemma leb_false_leb a b : String.leb a b = false -> String.leb b a = true.
Proof. intros H. apply leb_iff. right. now apply leb_false_ltb. Qed.

#[local] Instance str_le_trans : Transitive Py.str_le.
Proof. intros a b c. apply leb_trans. Qed.

#[local] Instance str_le_antisym : AntiSymm (=) Py.str_le.
Proof. intros a b. apply String.leb_antisym. Qed.

(** ** [sorted] *)

Lemma insert_sorted_perm x l : Py.insert_sorted x l ≡ₚ x :: l.
Proof.
  induction l as [| y l IH]; simpl; [reflexivity |].
  destruct (String.leb x y); [reflexivity |].
  rewrite IH. apply Permutation_swap.
Qed.

Lemma sorted_perm l : Py.sorted l ≡ₚ l.
Proof.
  induction l as [| x l IH]; simpl; [reflexivity |].
  unfold Py.sorted in *. simpl. rewrite insert_sorted_perm. now rewrite IH.
Qed.

Lemma insert_sorted_Sorted x l :
  Sorted Py.str_le l -> Sorted Py.str_le (Py.insert_sorted x l).
Proof.
  induction l as [| y l IH]; simpl; intros Hs.
  - repeat constructor.
  - destruct (String.leb x y) eqn:E.
    + constructor; [assumption | constructor; exact E].
    + inversion Hs as [| ? ? Hs' Hhd]; subst.
      constructor; [auto |].
      destruct l as [| z l]; simpl.
      * constructor. now apply leb_false_leb.
      * destruct (String.leb x z); constructor.
        -- now apply leb_false_leb.
        -- now inversion Hhd.
Qed.

Lemma sorted_Sorted l : Sorted Py.str_le (Py.sorted l).
Proof.
  induction l as [| x l IH]; simpl; [constructor |].
  now apply insert_sorted_Sorted.
Qed.

(** The result of [sorted] depends on the elements only, not on the order
    they are listed in. *)
Lemma sorted_permutation_invariant l1 l2 :
  l1 ≡ₚ l2 -> Py.sorted l1 = Py.sorted l2.
Proof.
  intros Hp. apply (Sorted_unique Py.str_le); try apply sorted_Sorted.
  now rewrite !sorted_perm.
Qed.

Lemma filter_permutation {A} (f : A -> bool) (l1 l2 : list A) :
  l1 ≡ₚ l2 -> List.filter f l1 ≡ₚ List.filter f l2.
Proof.
  induction 1 as [| x l l' _ IH | x y l | l l' l'' _ IH1 _ IH2]; simpl.
  - reflexivity.
  - destruct (f x); [now constructor | assumption].
  - destruct (f x), (f y); try reflexivity. apply Permutation_swap.
  - now rewrite IH1.
Qed.

(** ** Floats *)

(** Above the hard gap threshold is above the soft one. *)
Lemma gt_hard_gt_soft (g : float) :
  Py.gt g Config.MAX_FRAME_GAP_ERROR = true ->
  Py.gt g Config.MAX_FRAME_GAP = true.
Proof.
  unfold Py.gt. rewrite !FloatAxioms.ltb_spec. unfold SFltb.
  change (Prim2SF Config.MAX_FRAME_GAP_ERROR)
    with (S754_finite false 4503599627370496 (-51)).
  change (Prim2SF Config.MAX_FRAME_GAP)
    with (S754_finite false 4503599627370496 (-53)).
  destruct (Prim2SF g) as [sg | sg | | sg m e]; unfold SFcompare;
    try (destruct sg; easy); try easy.
  destruct sg; [easy |].
  destruct (Z.compare_spec (-51) e) as [Heq | Hlt | Hgt];
    destruct (Z.compare_spec (-53) e); try lia; easy.
Qed.

(** A divisor that compares above zero is not a zero: the guarded
    quotients of the code never raise. *)
Lemma div_defined (x d : float) :
  Py.gt d 0 = true -> Py.div x d = Some (x / d)%float.
Proof.
  unfold Py.gt, Py.div. rewrite FloatAxioms.ltb_spec, FloatAxioms.eqb_spec. unfold SFltb, SFeqb.
  change (Prim2SF 0) with (S754_zero false).
  destruct (Prim2SF d) as [sg | sg | | sg m e]; unfold SFcompare;
    try easy; destruct sg; easy.
Qed.

(** ** Rounding never turns the product with a million into a zero *)

(** The mantissa arithmetic of [SpecFloat]: a mantissa of [D] digits lies
    in [2 ^ (D - 1), 2 ^ D), and a right shift is a division. *)
Lemma digits2_bounds (m : positive) :
  2 ^ (Z.pos (digits2_pos m) - 1) <= Z.pos m < 2 ^ Z.pos (digits2_pos m).
Proof.
  induction m as [p IH | p IH |]; simpl digits2_pos.
  - rewrite Pos2Z.inj_succ.
    replace (Z.succ (Z.pos (digits2_pos p)) - 1) with (Z.succ (Z.pos (digits2_pos p) - 1)) by lia.
    rewrite !Z.pow_succ_r by lia. lia.
  - rewrite Pos2Z.inj_succ.
    replace (Z.succ (Z.pos (digits2_pos p)) - 1) with (Z.succ (Z.pos (digits2_pos p) - 1)) by lia.
    rewrite !Z.pow_succ_r by lia. lia.
  - simpl. lia.
Qed.

Lemma shr_1_m mrs : 0 <= shr_m mrs -> shr_m (shr_1 mrs) = shr_m mrs / 2.
Proof.
  destruct mrs as [m r s]. simpl.
  destruct m as [| [p | p |] | p]; simpl; intros H; try lia; try reflexivity.
  - apply (Z.div_unique _ 2 _ 1); lia.
  - apply (Z.div_unique _ 2 _ 0); lia.
Qed.

Lemma iter_shr_1_m p : forall mrs,
  0 <= shr_m mrs -> shr_m (SpecFloat.iter_pos shr_1 p mrs) = shr_m mrs / 2 ^ Z.pos p.
Proof.
  induction p as [p IH | p IH |]; intros mrs H; simpl SpecFloat.iter_pos.
  - assert (0 <= shr_m (shr_1 mrs)) as H1 by (rewrite shr_1_m by lia; apply Z.div_pos; lia).
    assert (0 <= shr_m (SpecFloat.iter_pos shr_1 p (shr_1 mrs))) as H2
      by (rewrite IH by lia; apply Z.div_pos; [lia | apply Z.pow_pos_nonneg; lia]).
    rewrite IH, IH, shr_1_m by lia.
    rewrite !Z.div_div by (try apply Z.pow_pos_nonneg; lia).
    f_equal. rewrite Pos2Z.inj_xI.
    replace (2 * Z.pos p + 1) with (1 + Z.pos p + Z.pos p) by lia.
    rewrite Z.pow_add_r by lia. rewrite Z.pow_add_r by lia.
    rewrite Z.pow_1_r. ring.
  - assert (0 <= shr_m (SpecFloat.iter_pos shr_1 p mrs)) as H2
      by (rewrite IH by lia; apply Z.div_pos; [lia | apply Z.pow_pos_nonneg; lia]).
    rewrite IH, IH by lia.
    rewrite !Z.div_div by (try apply Z.pow_pos_nonneg; lia).
    rewrite <- Z.pow_add_r by lia. do 2 f_equal. lia.
  - now apply shr_1_m.
Qed.

Lemma Zdigits2_bounds m : 0 < m -> 2 ^ (Zdigits2 m - 1) <= m < 2 ^ Zdigits2 m.
Proof. destruct m; try lia. intros _. apply digits2_bounds. Qed.

Lemma Zdigits2_pos m : 0 < m -> 0 < Zdigits2 m.
Proof. destruct m; simpl; lia. Qed.

Lemma Zdigits2_lower m k : 0 < m -> 0 <= k -> 2 ^ k <= m -> k < Zdigits2 m.
Proof.
  intros Hm Hk H. destruct (Zdigits2_bounds m Hm) as [_ Hu].
  apply (Z.pow_lt_mono_r_iff 2); try lia.
  pose proof (Zdigits2_pos m Hm). lia.
Qed.

Lemma shr_record_of_loc_m m l : shr_m (shr_record_of_loc m l) = m.
Proof. destruct l as [| []]; reflexivity. Qed.

Lemma shr_fexp_pos m e l :
  0 < m -> -1073 <= Zdigits2 m + e ->
  0 < shr_m (fst (shr_fexp prec emax m e l)) /\
  Zdigits2 m + e <= Zdigits2 (shr_m (fst (shr_fexp prec emax m e l)))
                    + snd (shr_fexp prec emax m e l).
Proof.
  intros Hm Hk. unfold shr_fexp, shr.
  set (n := SpecFloat.fexp prec emax (Zdigits2 m + e) - e).
  assert (n <= Zdigits2 m - 1) as Hn.
  { subst n. unfold SpecFloat.fexp, SpecFloat.emin, prec, emax. lia. }
  destruct (Zdigits2_bounds m Hm) as [Hl Hu].
  pose proof (Zdigits2_pos m Hm) as HD.
  destruct n as [| p | p] eqn:En; simpl fst; simpl snd;
    rewrite ?shr_record_of_loc_m; try (split; lia).
  rewrite iter_shr_1_m by (rewrite shr_record_of_loc_m; lia).
  rewrite shr_record_of_loc_m.
  assert (2 ^ (Zdigits2 m - 1 - Z.pos p) <= m / 2 ^ Z.pos p) as Hq.
  { apply Z.div_le_lower_bound; [apply Z.pow_pos_nonneg; lia |].
    rewrite <- Z.pow_add_r by lia.
    replace (Z.pos p + (Zdigits2 m - 1 - Z.pos p)) with (Zdigits2 m - 1) by lia.
    exact Hl. }
  assert (0 < 2 ^ (Zdigits2 m - 1 - Z.pos p)) by (apply Z.pow_pos_nonneg; lia).
  split; [lia |].
  assert (Zdigits2 m - 1 - Z.pos p < Zdigits2 (m / 2 ^ Z.pos p))
    by (apply Zdigits2_lower; lia).
  lia.
Qed.

Lemma round_nearest_even_ge m l : m <= round_nearest_even m l.
Proof. destruct l as [| []]; simpl; try lia. destruct (Z.even m); lia. Qed.

Lemma Zdigits2_mono a b : 0 < a -> a <= b -> Zdigits2 a <= Zdigits2 b.
Proof.
  intros Ha Hab.
  destruct (Zdigits2_bounds a Ha) as [Hl _].
  pose proof (Zdigits2_pos a Ha).
  assert (Zdigits2 a - 1 < Zdigits2 b) by (apply Zdigits2_lower; lia).
  lia.
Qed.

Lemma binary_round_aux_nonzero s m e l :
  0 < m -> -1073 <= Zdigits2 m + e ->
  forall z, binary_round_aux prec emax s m e l <> S754_zero z.
Proof.
  intros Hm Hk z. unfold binary_round_aux.
  destruct (shr_fexp_pos m e l Hm Hk) as [H1 H2].
  destruct (shr_fexp prec emax m e l) as [mrs' e'] eqn:E1. simpl in H1, H2.
  set (m' := round_nearest_even (shr_m mrs') (loc_of_shr_record mrs')).
  assert (shr_m mrs' <= m') as Hr by apply round_nearest_even_ge.
  assert (0 < m') as Hm' by lia.
  assert (-1073 <= Zdigits2 m' + e') as Hk'.
  { pose proof (Zdigits2_mono (shr_m mrs') m' H1 Hr). lia. }
  destruct (shr_fexp_pos m' e' loc_Exact Hm' Hk') as [H3 _].
  destruct (shr_fexp prec emax m' e' loc_Exact) as [mrs'' e''] eqn:E2. simpl in H3.
  destruct (shr_m mrs''); try lia.
  destruct (e'' <=? emax - prec); discriminate.
Qed.

(** A positive float times a million is not a zero. *)
Lemma mul_million_nonzero (d : float) :
  Py.gt d 0 = true -> PrimFloat.eqb (d * 1000000) 0 = false.
Proof.
  unfold Py.gt.
  rewrite FloatAxioms.ltb_spec, FloatAxioms.eqb_spec, FloatAxioms.mul_spec.
  pose proof (Prim2SF_valid d) as Hv.
  change (Prim2SF 1000000) with (S754_finite false 8589934592000000 (-33)).
  change (Prim2SF 0) with (S754_zero false).
  destruct (Prim2SF d) as [sg | sg | | sg m e]; try (destruct sg; easy); try easy.
  destruct sg; [easy |]. intros _.
  unfold SF64mul, SFmul. cbn [xorb].
  assert (forall z, binary_round_aux prec emax false
            (Z.pos (m * 8589934592000000)) (e + -33) loc_Exact <> S754_zero z) as Hnz.
  { apply binary_round_aux_nonzero; [lia |].
    unfold valid_binary, bounded, canonical_mantissa in Hv.
    apply andb_prop in Hv. destruct Hv as [Hc _]. apply Z.eqb_eq in Hc.
    unfold SpecFloat.fexp, SpecFloat.emin, prec, emax in Hc.
    assert (52 + Z.pos (digits2_pos m) - 1 < Zdigits2 (Z.pos (m * 8589934592000000))).
    { apply Zdigits2_lower; try lia.
      destruct (digits2_bounds m) as [Hl _].
      replace (52 + Z.pos (digits2_pos m) - 1)
        with (Z.pos (digits2_pos m) - 1 + 52) by lia.
      rewrite Z.pow_add_r, Pos2Z.inj_mul by lia.
      apply Z.mul_le_mono_nonneg; try lia. }
    lia. }
  destruct (binary_round_aux prec emax false (Z.pos (m * 8589934592000000)) (e + -33) loc_Exact)
    as [sg | sg | | sg m' e'] eqn:E; try reflexivity.
  - exfalso. now apply (Hnz sg).
  - now destruct sg.
  - now destruct sg.
Qed.

End PyFacts.

(* ===================================================================== *)
(** * Properties of validate_capture.py *)
(* ===================================================================== *)

Module ValidateFacts.

Import Config Validate.

(** ** Steps that leave the observed parts of a result alone *)

Lemma preserves_refl r : preserves r r.
Proof. unfold preserves. tauto. Qed.

Lemma preserves_trans r1 r2 r3 :
  preserves r1 r2 -> preserves r2 r3 -> preserves r1 r3.
Proof.
  intros (F1 & M1 & G1 & W1) (F2 & M2 & G2 & W2).
  unfold preserves. intuition congruence.
Qed.

Lemma filter_snoc {A} (f : A -> bool) l x :
  List.filter f (l ++ [x]) = List.filter f l ++ (if f x then [x] else []).
Proof. rewrite List.filter_app. simpl. now destruct (f x). Qed.

Lemma well_formed_add_error r m p :
  0 <= p -> well_formed r -> well_formed (add_error r m p).
Proof.
  destruct r; unfold well_formed, score_in_range, validity_consistent; simpl.
  intros Hp [Hs Hv]. split; [lia |].
  split; [discriminate |]. intros H. now destruct errors0.
Qed.

Lemma well_formed_add_warning r m p :
  0 <= p -> well_formed r -> well_formed (add_warning r m p).
Proof.
  destruct r; unfold well_formed, score_in_range, validity_consistent; simpl.
  intros Hp [Hs Hv]. split; [lia | assumption].
Qed.

Lemma well_formed_add_info r m : well_formed r -> well_formed (add_info r m).
Proof. destruct r; exact id. Qed.

Lemma well_formed_new id : well_formed (new_result id).
Proof.
  unfold well_formed, score_in_range, validity_consistent; simpl.
  split; [lia | tauto].
Qed.

Lemma preserves_add_error r r' m p :
  preserves r r' -> is_not_monotonic m = false -> 0 <= p ->
  preserves r (add_error r' m p).
Proof.
  intros H Hm Hp. eapply preserves_trans; [exact H |].
  split; [now destruct r' | split; [| split]].
  - destruct r'. unfold monotonicity_errors. simpl.
    rewrite filter_snoc, Hm. apply app_nil_r.
  - now destruct r'.
  - now apply well_formed_add_error.
Qed.

Lemma preserves_add_warning r r' m p :
  preserves r r' -> is_gap_warning m = false -> 0 <= p ->
  preserves r (add_warning r' m p).
Proof.
  intros H Hm Hp. eapply preserves_trans; [exact H |].
  split; [now destruct r' | split; [now destruct r' | split]].
  - destruct r'. unfold gap_warnings. simpl.
    rewrite filter_snoc, Hm. apply app_nil_r.
  - now apply well_formed_add_warning.
Qed.

Lemma preserves_add_info r r' m : preserves r r' -> preserves r (add_info r' m).
Proof.
  intros H. eapply preserves_trans; [exact H |].
  split; [now destruct r' | split; [now destruct r' | split]];
    [now destruct r' | now apply well_formed_add_info].
Qed.

(** The plain assignments. *)
Ltac setter :=
  let H := fresh in
  intros H; eapply preserves_trans; [exact H |];
  match goal with |- preserves ?r' _ => destruct r' end;
  split; [| split; [| split]]; first [reflexivity | exact (fun x => x)].

Lemma preserves_set_duration_sec r r' x :
  preserves r r' -> preserves r (set_duration_sec r' x).
Proof. setter. Qed.
Lemma preserves_set_avg_fps r r' x :
  preserves r r' -> preserves r (set_avg_fps r' x).
Proof. setter. Qed.
Lemma preserves_set_fps_range r r' x y :
  preserves r r' -> preserves r (set_fps_range r' x y).
Proof. setter. Qed.
Lemma preserves_set_size r r' sz :
  preserves r r' -> preserves r (set_size r' sz).
Proof. setter. Qed.
Lemma preserves_set_resolution_consistent r r' b :
  preserves r r' -> preserves r (set_resolution_consistent r' b).
Proof. setter. Qed.
Lemma preserves_set_imu_records r r' n :
  preserves r r' -> preserves r (set_imu_records r' n).
Proof. setter. Qed.
Lemma preserves_set_imu_synced r r' b :
  preserves r r' -> preserves r (set_imu_synced r' b).
Proof. setter. Qed.
Lemma preserves_set_imu_avg_offset_ms r r' x :
  preserves r r' -> preserves r (set_imu_avg_offset_ms r' x).
Proof. setter. Qed.
Lemma preserves_set_intrinsics r r' j :
  preserves r r' -> preserves r (set_intrinsics r' j).
Proof. setter. Qed.
Lemma preserves_set_has_intrinsics r r' b :
  preserves r r' -> preserves r (set_has_intrinsics r' b).
Proof. setter. Qed.

Lemma preserves_except r o handler :
  outcome_preserves r o ->
  (forall r', preserves r r' -> preserves r (handler r')) ->
  preserves r (except o handler).
Proof. destruct o; simpl; auto. Qed.

Lemma preserves_and_then r o k :
  outcome_preserves r o ->
  (forall r', preserves r r' -> outcome_preserves r (k r')) ->
  outcome_preserves r (and_then o k).
Proof. destruct o; simpl; auto. Qed.

Lemma preserves_done r r' : preserves r r' -> outcome_preserves r (Done r').
Proof. exact id. Qed.

Lemma preserves_raised r r' : preserves r r' -> outcome_preserves r (Raised r').
Proof. exact id. Qed.

(** One step through a check: an update of the result, or a branch. *)
Ltac keep_step :=
  first
    [ assumption
    | apply preserves_refl
    | match goal with
      | |- preserves _ (except _ _) => apply preserves_except
      | |- outcome_preserves _ (and_then _ _) => apply preserves_and_then
      | |- outcome_preserves _ (Done _) => apply preserves_done
      | |- outcome_preserves _ (Raised _) => apply preserves_raised
      end
    | apply preserves_add_warning; [| reflexivity | lia]
    | apply preserves_add_error; [| reflexivity | lia]
    | apply preserves_add_info
    | apply preserves_set_duration_sec
    | apply preserves_set_avg_fps
    | apply preserves_set_fps_range
    | apply preserves_set_size
    | apply preserves_set_resolution_consistent
    | apply preserves_set_imu_records
    | apply preserves_set_imu_synced
    | apply preserves_set_imu_avg_offset_ms
    | apply preserves_set_intrinsics
    | apply preserves_set_has_intrinsics
    | progress (cbv zeta)
    | intros ? ?
    | case_match ].

Ltac keep := repeat keep_step.

Lemma sample_loop_preserves open_size frames first idxs r0 r :
  preserves r0 r ->
  outcome_preserves r0 (sample_loop open_size frames first idxs r).
Proof.
  revert r. induction idxs as [| idx rest IH]; intros r H; simpl; keep.
  now apply IH.
Qed.

Lemma check_images_preserves s frames r0 r :
  preserves r0 r -> preserves r0 (check_images s frames r).
Proof.
  intros H. unfold check_images. keep.
  apply sample_loop_preserves. keep.
Qed.

Lemma check_imu_preserves s timestamps r0 r :
  preserves r0 r -> preserves r0 (check_imu s timestamps r).
Proof. intros H. unfold check_imu. keep. Qed.

Lemma check_intrinsics_preserves s r0 r :
  preserves r0 r -> preserves r0 (check_intrinsics s r).
Proof. intros H. unfold check_intrinsics. keep. Qed.

Lemma check_rgb_txt_preserves s r0 r :
  preserves r0 r -> preserves r0 (check_rgb_txt s r).
Proof. intros H. unfold check_rgb_txt. keep. Qed.

Lemma recommendations_preserves r0 r :
  preserves r0 r -> preserves r0 (recommendations r).
Proof. intros H. unfold recommendations. keep. Qed.

(** ** The two checks that do record monotonicity errors and gap warnings *)

Lemma preserves_extends r r' : preserves r r' -> extends r r' [] [].
Proof.
  intros (F & M & G & W). unfold extends. rewrite !app_nil_r. tauto.
Qed.

Lemma extends_trans r1 r2 r3 me1 gw1 me2 gw2 :
  extends r1 r2 me1 gw1 -> extends r2 r3 me2 gw2 ->
  extends r1 r3 (me1 ++ me2) (gw1 ++ gw2).
Proof.
  intros (F1 & M1 & G1 & W1) (F2 & M2 & G2 & W2). unfold extends.
  rewrite M2, M1, G2, G1, !app_assoc. intuition congruence.
Qed.

Lemma extends_then_preserves r1 r2 r3 me gw :
  extends r1 r2 me gw -> preserves r2 r3 -> extends r1 r3 me gw.
Proof.
  intros H1 H2. apply preserves_extends in H2.
  pose proof (extends_trans _ _ _ _ _ _ _ H1 H2) as H.
  now rewrite !app_nil_r in H.
Qed.

Lemma add_warnings_extends r ms :
  Forall (fun m => is_not_monotonic m = false) ms ->
  frame_count (add_warnings r ms) = frame_count r /\
  errors (add_warnings r ms) = errors r /\
  warnings (add_warnings r ms) = warnings r ++ ms /\
  (well_formed r -> well_formed (add_warnings r ms)).
Proof.
  revert r. induction ms as [| m ms IH]; intros r Hall; simpl.
  - rewrite app_nil_r. tauto.
  - inversion Hall as [| ? ? Hm Hms]; subst.
    destruct (IH (add_warning r m 5) Hms) as (F & E & W & Wf).
    rewrite F, E, W. destruct r; simpl. rewrite <- app_assoc. simpl.
    split; [| split; [| split]]; trivial.
    intros Hwf. apply Wf. now apply well_formed_add_warning.
Qed.

Lemma large_gap_warnings_kind i ds :
  Forall (fun m => is_not_monotonic m = false) (large_gap_warnings i ds) /\
  List.filter is_gap_warning (large_gap_warnings i ds) = large_gap_warnings i ds.
Proof.
  revert i. induction ds as [| d ds IH]; intros i; simpl; [split; constructor |].
  destruct (IH (S i)) as [IH1 IH2].
  destruct (Py.gt d MAX_FRAME_GAP_ERROR); simpl; [| now split].
  split; [now constructor | now rewrite IH2].
Qed.

(** The loop over the gaps records the large-gap warnings and counts the
    deltas above the soft threshold. *)
Lemma gap_loop_spec i prev rest st :
  gs_result (gap_loop i prev rest st)
  = add_warnings (gs_result st) (large_gap_warnings i (deltas_from prev rest))
  /\ gs_large_gaps (gap_loop i prev rest st)
     = (gs_large_gaps st
        + count_above MAX_FRAME_GAP (deltas_from prev rest))%nat.
Proof.
  revert i prev st. induction rest as [| ts rest IH]; intros i prev st; simpl.
  - unfold count_above. simpl. split; [reflexivity | lia].
  - destruct (IH (S i) ts (gap_step i (ts - prev)%float st)) as [R L].
    rewrite R, L. unfold gap_step, count_above. simpl.
    destruct (Py.gt (ts - prev) MAX_FRAME_GAP_ERROR) eqn:Hhard; simpl.
    + rewrite (PyFacts.gt_hard_gt_soft _ Hhard). simpl. split; [reflexivity | lia].
    + destruct (Py.gt (ts - prev) MAX_FRAME_GAP); simpl; split;
        try reflexivity; lia.
Qed.

Lemma aggregate_warning_kind n :
  List.filter is_gap_warning (aggregate_warning n) = aggregate_warning n.
Proof. unfold aggregate_warning. now destruct (0 <? n)%nat. Qed.

Lemma check_gaps_extends timestamps r :
  extends r (check_gaps timestamps r) []
    (large_gap_warnings 1 (deltas timestamps)
     ++ aggregate_warning (count_above MAX_FRAME_GAP (deltas timestamps))).
Proof.
  unfold check_gaps.
  set (st0 := {| gs_result := r; gs_gaps := []; gs_fps_values := [];
                 gs_large_gaps := 0 |}).
  set (st := match timestamps with [] => st0 | t0 :: rest => gap_loop 1 t0 rest st0 end).
  assert (gs_result st = add_warnings r (large_gap_warnings 1 (deltas timestamps))
          /\ gs_large_gaps st = count_above MAX_FRAME_GAP (deltas timestamps))
    as [HR HL].
  { subst st. destruct timestamps as [| t0 rest]; [now split |].
    destruct (gap_loop_spec 1 t0 rest st0) as [R L]. now split. }
  destruct (large_gap_warnings_kind 1 (deltas timestamps)) as [Hk Hf].
  destruct (add_warnings_extends r _ Hk) as (F & E & W & Wf).
  assert (extends r (gs_result st) [] (large_gap_warnings 1 (deltas timestamps)))
    as Hloop.
  { rewrite HR. unfold extends, monotonicity_errors, gap_warnings.
    rewrite F, E, W, List.filter_app, Hf, app_nil_r. tauto. }
  rewrite HL. unfold aggregate_warning at 1.
  set (n := count_above MAX_FRAME_GAP (deltas timestamps)).
  assert (forall r', preserves (gs_result st) r' ->
            extends r (if (0 <? n)%nat then add_warning r' (GapsDetected n) 5 else r')
              [] (large_gap_warnings 1 (deltas timestamps) ++ aggregate_warning n))
    as Hlast.
  { intros r' Hp. unfold aggregate_warning.
    pose proof (extends_then_preserves _ _ _ _ _ Hloop Hp) as (F' & M' & G' & W').
    assert (well_formed r -> well_formed (add_warning r' (GapsDetected n) 5))
      as Wlast by (intros; apply well_formed_add_warning; [lia | auto]).
    destruct (0 <? n)%nat.
    - unfold extends. unfold monotonicity_errors, gap_warnings in M', G' |- *.
      destruct r'; simpl in F', M', G' |- *. rewrite filter_snoc. simpl.
      rewrite G', <- app_assoc.
      split; [| split; [| split]]; trivial.
    - rewrite app_nil_r. unfold extends. tauto. }
  apply Hlast. keep.
Qed.

Lemma check_monotonic_extends timestamps r :
  extends r (check_monotonic timestamps r)
    (if is_monotonic timestamps then [] else [NotMonotonic]) [].
Proof.
  unfold check_monotonic. destruct (is_monotonic timestamps); simpl.
  - apply preserves_extends, preserves_refl.
  - assert (well_formed r -> well_formed (add_error r NotMonotonic 30)) as Wf
      by (apply well_formed_add_error; lia).
    unfold extends, monotonicity_errors, gap_warnings.
    destruct r; simpl. rewrite !filter_snoc, app_nil_r. simpl.
    split; [| split; [| split]]; trivial.
Qed.

(** Everything after [len(timestamps) >= 2] is established. *)
Lemma validate_timed_extends s frames timestamps r :
  extends r (validate_timed s frames timestamps r)
    (if is_monotonic timestamps then [] else [NotMonotonic])
    (large_gap_warnings 1 (deltas timestamps)
     ++ aggregate_warning (count_above MAX_FRAME_GAP (deltas timestamps))).
Proof.
  unfold validate_timed. cbv zeta.
  match goal with
  | |- extends _ (recommendations (check_rgb_txt _ (check_intrinsics _
         (check_imu _ _ (check_images _ _
           (check_monotonic _ (check_gaps _ ?r1)))))))  _ _ =>
      assert (preserves r r1) as H1 by keep;
      pose proof (check_gaps_extends timestamps r1) as H2;
      pose proof (check_monotonic_extends timestamps (check_gaps timestamps r1))
        as H3
  end.
  apply preserves_extends in H1.
  pose proof (extends_trans _ _ _ _ _ _ _ (extends_trans _ _ _ _ _ _ _ H1 H2) H3)
    as H. simpl in H. rewrite app_nil_r in H.
  eapply extends_then_preserves; [exact H |].
  apply recommendations_preserves, check_rgb_txt_preserves,
    check_intrinsics_preserves, check_imu_preserves, check_images_preserves,
    preserves_refl.
Qed.

Lemma short_timestamps (timestamps : list float) :
  (length timestamps < 2)%nat ->
  is_monotonic timestamps = true /\ deltas timestamps = [].
Proof.
  destruct timestamps as [| a [| b r]]; simpl; intros H; try (now split); lia.
Qed.

Lemma set_frame_count_fresh id n :
  let r := set_frame_count (new_result id) n in
  frame_count r = n /\ monotonicity_errors r = [] /\ gap_warnings r = [] /\
  well_formed r.
Proof.
  simpl. repeat split; try reflexivity; unfold score_in_range; simpl; lia.
Qed.

(** What a validation run records, in terms of the timestamps it read. *)
Lemma validate_session_spec s :
  let ts := timestamps_read s in
  let r := validate_session s in
  monotonicity_errors r = (if is_monotonic ts then [] else [NotMonotonic]) /\
  gap_warnings r
  = large_gap_warnings 1 (deltas ts)
    ++ aggregate_warning (count_above MAX_FRAME_GAP (deltas ts)) /\
  well_formed r /\
  (forall entries, present s = true -> rgb s = Some entries ->
     frame_count r = length (glob_jpg entries)).
Proof.
  unfold validate_session, timestamps_read. cbv zeta.
  destruct (present s).
  2: { simpl. repeat split; try reflexivity; try discriminate;
       unfold score_in_range; simpl; try lia. }
  change (negb true) with false. cbv iota.
  destruct (rgb s) as [entries |].
  2: { simpl. repeat split; try reflexivity; try discriminate;
       unfold score_in_range; simpl; try lia. }
  set (frames := Py.sorted (glob_jpg entries)).
  assert (length frames = length (glob_jpg entries)) as Hlen
    by (subst frames; apply Permutation_length, PyFacts.sorted_perm).
  destruct (set_frame_count_fresh (name s) (length frames)) as (F0 & M0 & G0 & W0).
  set (r0 := set_frame_count (new_result (name s)) (length frames)) in *.
  clearbody r0 frames.
  assert (forall r', preserves r0 r' ->
            (length (parse_timestamps frames) < 2)%nat ->
            let ts := parse_timestamps frames in
            monotonicity_errors r' = (if is_monotonic ts then [] else [NotMonotonic]) /\
            gap_warnings r'
            = large_gap_warnings 1 (deltas ts)
              ++ aggregate_warning (count_above MAX_FRAME_GAP (deltas ts)) /\
            well_formed r' /\
            (forall entries0, true = true -> Some entries = Some entries0 ->
               frame_count r' = length (glob_jpg entries0))) as Hearly.
  { intros r' (F & M & G & W) Hshort.
    destruct (short_timestamps _ Hshort) as [Hm Hd]. cbv zeta.
    rewrite Hm, Hd, M, G, M0, G0, F, F0. simpl.
    split; [reflexivity | split; [reflexivity | split; [auto |]]].
    intros ? _ [= <-]. exact Hlen. }
  destruct (frame_count r0 =? 0)%nat eqn:Hzero.
  { apply Hearly; [keep |].
    apply Nat.eqb_eq in Hzero. rewrite F0 in Hzero.
    destruct frames; [simpl; lia | discriminate]. }
  set (r1 := if (frame_count r0 <? MIN_FRAMES)%nat
             then add_error r0 (TooFewFrames (frame_count r0)) 30 else r0).
  assert (preserves r0 r1) as H1 by (subst r1; keep).
  destruct (length (parse_timestamps frames) <? 2)%nat eqn:Hshort.
  { apply Hearly; [keep | now apply Nat.ltb_lt]. }
  pose proof (validate_timed_extends s frames (parse_timestamps frames) r1)
    as (F & M & G & W).
  destruct H1 as (F1 & M1 & G1 & W1).
  rewrite M, G, M1, G1, M0, G0, F, F1, F0. simpl.
  split; [reflexivity | split; [reflexivity | split; [auto |]]].
  intros ? _ [= <-]. exact Hlen.
Qed.

(** ** Which frames give a timestamp, and how the gap warnings count *)

Lemma parse_timestamps_filter frames :
  parse_timestamps frames
  = parse_timestamp <$> List.filter keeps_timestamp frames.
Proof.
  induction frames as [| frame rest IH]; simpl; [reflexivity |].
  unfold keeps_timestamp at 1.
  destruct (Py.gt (parse_timestamp frame) 0); simpl; now rewrite IH.
Qed.

Lemma keeps_timestamp_iff frame :
  keeps_timestamp frame = true <->
  exists ts, Py.float_of_string (Py.stem frame) = Some ts /\ Py.gt ts 0 = true.
Proof.
  unfold keeps_timestamp, parse_timestamp.
  destruct (Py.float_of_string (Py.stem frame)) as [ts |]; split.
  - intros H. now exists ts.
  - now intros (ts' & [= <-] & H).
  - intros H. vm_compute in H. discriminate.
  - now intros (ts' & H & _).
Qed.

Lemma filter_filter_implied {A} (f g : A -> bool) (l : list A) :
  (forall x, f x = true -> g x = true) ->
  List.filter f (List.filter g l) = List.filter f l.
Proof.
  intros Hfg. induction l as [| x l IH]; simpl; [reflexivity |].
  destruct (g x) eqn:Eg; simpl; destruct (f x) eqn:Ef; rewrite ?IH; trivial.
  apply Hfg in Ef. congruence.
Qed.

Lemma large_gap_warnings_filters i ds :
  length (large_gap_warnings i ds) = count_above MAX_FRAME_GAP_ERROR ds /\
  List.filter is_large_gap (large_gap_warnings i ds) = large_gap_warnings i ds /\
  List.filter is_gaps_detected (large_gap_warnings i ds) = [].
Proof.
  revert i. induction ds as [| d ds IH]; intros i; simpl; [now repeat split |].
  destruct (IH (S i)) as (IH1 & IH2 & IH3). unfold count_above in *. simpl.
  destruct (Py.gt d MAX_FRAME_GAP_ERROR); simpl; rewrite ?IH1, ?IH2, ?IH3;
    now repeat split.
Qed.

(** The frames read do not depend on the order the directory lists them
    in. *)
Lemma sorted_frames_permutation entries entries' :
  entries ≡ₚ entries' ->
  Py.sorted (glob_jpg entries) = Py.sorted (glob_jpg entries').
Proof.
  intros H. apply PyFacts.sorted_permutation_invariant.
  now apply PyFacts.filter_permutation.
Qed.

Lemma aggregate_warning_filters n :
  List.filter is_large_gap (aggregate_warning n) = [] /\
  List.filter is_gaps_detected (aggregate_warning n) = aggregate_warning n.
Proof. unfold aggregate_warning. now destruct (0 <? n)%nat. Qed.

End ValidateFacts.

(* ===================================================================== *)
(** * Properties of frame_processor.py *)
(* ===================================================================== *)

Module ProcessorFacts.

Import Processor.

(** ** The statistics never divide by zero *)

Lemma float_of_nat_nonzero (n : nat) :
  (1 <= n <= 100)%nat -> PrimFloat.eqb (Py.float_of_nat n) 0 = false.
Proof.
  intros H.
  assert (forallb (fun k => negb (PrimFloat.eqb (Py.float_of_nat k) 0))
                  (seq 1 100) = true) as Hall by (vm_compute; reflexivity).
  rewrite forallb_forall in Hall.
  apply negb_true_iff, Hall, in_seq. lia.
Qed.

Lemma last_n_length {A} (k : nat) (l : list A) :
  length (Py.last_n k l) = Nat.min k (length l).
Proof. unfold Py.last_n. rewrite length_skipn. lia. Qed.


Lemma fps_value st now :
  fps st now
  = Some (if Py.gt (duration st now) 0
          then (Py.float_of_nat (frame_count st) / duration st now)%float
          else 0%float).
Proof.
  unfold fps. destruct (Py.gt (duration st now) 0) eqn:E; [| reflexivity].
  now apply PyFacts.div_defined.
Qed.

Lemma bandwidth_mbps_value st now :
  bandwidth_mbps st now
  = Some (if Py.gt (duration st now) 0
          then (Py.float_of_nat (total_bytes st * 8)
                / (duration st now * 1000000))%float
          else 0%float).
Proof.
  unfold bandwidth_mbps. destruct (Py.gt (duration st now) 0) eqn:E;
    [| reflexivity].
  unfold Py.div. now rewrite PyFacts.mul_million_nonzero.
Qed.

Lemma avg_latency_ms_value st :
  avg_latency_ms st
  = Some (match latencies st with
          | [] => 0%float
          | _ :: _ =>
              let recent := Py.last_n 100 (latencies st) in
              (Py.sum recent / Py.float_of_nat (length recent))%float
          end).
Proof.
  unfold avg_latency_ms. destruct (latencies st) as [| x r] eqn:E;
    [reflexivity |].
  cbv zeta. unfold Py.div. rewrite float_of_nat_nonzero; [reflexivity |].
  rewrite last_n_length. simpl length. lia.
Qed.

Lemma get_stats_total p now : is_Some (get_stats p now).
Proof.
  unfold get_stats. destruct (stats p) as [st |]; [| by eexists].
  rewrite fps_value, avg_latency_ms_value, bandwidth_mbps_value. simpl.
  by eexists.
Qed.

(** ** The wait for the save queue *)



Lemma save_item_queue p :
  save_queue (save_item p) = tail (save_queue p) /\
  running (save_item p) = running p.
Proof.
  unfold save_item. destruct (save_queue p) as [| [[id fname] data] rest] eqn:E.
  - now rewrite E.
  - unfold update_files, session_files. simpl.
    destruct (captures p !! id) as [[| d] |]; simpl; auto.
Qed.

Lemma worker_steps_running n p :
  running p = true ->
  running (worker_steps n p) = true /\
  save_queue (worker_steps n p) = drop n (save_queue p).
Proof.
  revert p. induction n as [| n IH]; intros p Hr; simpl.
  - now rewrite drop_0.
  - unfold worker_step. rewrite Hr.
    destruct (save_item_queue p) as [Hq Hr'].
    destruct (IH (save_item p)) as [IH1 IH2]; [congruence |].
    split; [exact IH1 |]. rewrite IH2, Hq.
    destruct (save_queue p); simpl; [now rewrite drop_nil | reflexivity].
Qed.

(** With the save thread running and taking at least one item per sleep,
    the loop ends after at most as many sleeps as there are items. *)
Lemma drain_returns fuel sched k p :
  running p = true -> (forall i, 1 <= sched i)%nat ->
  (length (save_queue p) <= fuel)%nat ->
  is_Some (drain fuel sched k p).
Proof.
  intros Hr Hs. revert k p Hr.
  induction fuel as [| fuel IH]; intros k p Hr Hlen; simpl;
    destruct (save_queue p) as [| x q] eqn:E; try by eexists.
  - simpl in Hlen. lia.
  - destruct (worker_steps_running (sched k) p Hr) as [Hr' Hq'].
    apply IH; [exact Hr' |].
    rewrite Hq', E, length_drop. simpl in *. specialize (Hs k). lia.
Qed.

(** ** What the operations do to the statistics *)

Lemma update_files_stats p id f : stats (update_files p id f) = stats p.
Proof. unfold update_files. now destruct (session_files p id). Qed.

Lemma update_files_session_path p id f :
  session_path (update_files p id f) = session_path p.
Proof. unfold update_files. now destruct (session_files p id). Qed.

Lemma open_files_stats p : stats (_open_files p) = stats p.
Proof.
  unfold _open_files. destruct (session_path p); [| reflexivity].
  simpl. apply update_files_stats.
Qed.

Lemma open_files_session_path p : session_path (_open_files p) = session_path p.
Proof.
  unfold _open_files. destruct (session_path p) eqn:E; [| assumption].
  simpl. now rewrite update_files_session_path.
Qed.

(** [create_session] makes a new statistics object when it returns, and
    leaves the old one in place when it raises. *)
Lemma create_session_spec p sid now clk :
  match create_session p sid now clk with
  | (p', Some id) =>
      stats p' = Some (new_stats id now) /\ session_path p' = Some id
  | (p', None) => stats p' = stats p
  end.
Proof.
  unfold create_session. cbv zeta. simpl.
  destruct (captures p !! _) as [[| d] |]; simpl;
    rewrite ?update_files_stats, ?update_files_session_path; auto.
Qed.

(** Splits on a scrutinee that contains no further case distinction. *)
Ltac inner_case :=
  match goal with
  | |- context [match ?x with _ => _ end] =>
      lazymatch x with
      | context [match _ with _ => _ end] => fail
      | _ => destruct x eqn:?
      end
  end.

(** The body of [process_frame] counts the frame whatever it returns. *)
Lemma process_frame_body_counts p id st pkt :
  exists st',
    stats (fst (process_frame_body p id st pkt)) = Some st' /\
    frame_count st' = S (frame_count st) /\
    session_id st' = session_id st.
Proof.
  unfold process_frame_body. cbv zeta.
  repeat inner_case; simpl; rewrite ?update_files_stats; simpl;
    eexists; (split; [reflexivity |]); split; reflexivity.
Qed.


Lemma save_item_stats p : stats (save_item p) = stats p.
Proof.
  unfold save_item. destruct (save_queue p) as [| [[id fname] data] rest];
    [reflexivity |].
  now rewrite update_files_stats.
Qed.

Lemma worker_steps_stats n p : stats (worker_steps n p) = stats p.
Proof.
  revert p. induction n as [| n IH]; intros p; simpl; [reflexivity |].
  rewrite IH. unfold worker_step. destruct (running p); [| reflexivity].
  apply save_item_stats.
Qed.

Lemma drain_stats fuel sched k p p' :
  drain fuel sched k p = Some p' -> stats p' = stats p.
Proof.
  revert k p. induction fuel as [| fuel IH]; intros k p; simpl;
    destruct (save_queue p); try congruence.
  intros H. apply IH in H. now rewrite worker_steps_stats in H.
Qed.

(** [end_session] drops the statistics object when it returns and leaves
    it in place when it raises. *)
Lemma end_session_spec fuel sched p now :
  match end_session fuel sched p now with
  | Ended p' _ => stats p' = None
  | EndRaised p' => stats p' = stats p
  | Waiting => True
  end.
Proof.
  unfold end_session.
  destruct (get_stats p now); [| reflexivity].
  destruct (drain fuel sched 0 p) as [p1 |] eqn:E; [| exact I].
  apply drain_stats in E. cbv zeta.
  repeat case_match; simplify_eq; simpl; auto.
Qed.

(** ** Listing the sessions *)

Lemma sorted_desc_perm {A} (k : A -> string) l : Py.sorted_desc k l ≡ₚ l.
Proof.
  induction l as [| x l IH]; simpl; [reflexivity |].
  rewrite <- IH at 2. clear IH.
  generalize (Py.sorted_desc k l). intros l'.
  induction l' as [| y l' IH]; simpl; [reflexivity |].
  destruct (String.leb (k y) (k x)); [reflexivity |].
  rewrite IH. apply Permutation_swap.
Qed.

Lemma insert_desc_Sorted {A} (k : A -> string) x l :
  Sorted (Py.desc_by k) l -> Sorted (Py.desc_by k) (Py.insert_desc k x l).
Proof.
  induction l as [| y l IH]; simpl; intros Hs.
  - repeat constructor.
  - destruct (String.leb (k y) (k x)) eqn:E.
    + constructor; [assumption | constructor; exact E].
    + inversion Hs as [| ? ? Hs' Hhd]; subst.
      constructor; [auto |].
      destruct l as [| z l]; simpl.
      * constructor. now apply PyFacts.leb_false_leb.
      * destruct (String.leb (k z) (k x)); constructor.
        -- now apply PyFacts.leb_false_leb.
        -- now inversion Hhd.
Qed.

Lemma sorted_desc_Sorted {A} (k : A -> string) l :
  Sorted (Py.desc_by k) (Py.sorted_desc k l).
Proof.
  induction l as [| x l IH]; simpl; [constructor |].
  now apply insert_desc_Sorted.
Qed.

(** Without repeated keys, descending is strictly descending. *)
Lemma Sorted_strict {A} (k : A -> string) (l : list A) :
  Sorted (Py.desc_by k) l -> NoDup (k <$> l) -> strictly_descending (k <$> l).
Proof.
  unfold strictly_descending.
  induction 1 as [| x l Hs IH Hhd]; simpl; intros Hnd; [constructor |].
  apply NoDup_cons in Hnd as [Hx Hnd].
  constructor; [auto |].
  destruct Hhd as [| y l' Hxy]; simpl; constructor.
  unfold Py.desc_by in Hxy. apply PyFacts.leb_iff in Hxy as [Heq | Hlt]; [| exact Hlt].
  exfalso. apply Hx. rewrite <- Heq. simpl. apply elem_of_cons. now left.
Qed.


(** The id a descriptor is listed under depends on the persisted
    statistics only. *)
Lemma sort_key_descriptor base name d :
  sort_key (descriptor base name d)
  = match session_stats_json d with
    | Some st =>
        sort_key (PyDict.merge [("session_id", JStr name);
                                ("path", JStr (base +:+ "/" +:+ name))] st)
    | None => Some name
    end.
Proof. unfold descriptor. now destruct (session_stats_json d). Qed.




(** ** Ending a session keeps the listing in order *)

Lemma keeps_listing_refl p : keeps_listing p p.
Proof. unfold keeps_listing. tauto. Qed.

Lemma keeps_listing_trans p1 p2 p3 :
  keeps_listing p1 p2 -> keeps_listing p2 p3 -> keeps_listing p1 p3.
Proof.
  intros (B1 & N1 & D1) (B2 & N2 & D2). split; [congruence |].
  split; [auto |]. intros name. now rewrite D2, D1.
Qed.

Lemma session_files_Some p name d :
  session_files p name = Some d <-> captures p !! name = Some (Dir d).
Proof.
  unfold session_files. destruct (captures p !! name) as [[| d'] |];
    split; intros H; try discriminate; congruence.
Qed.

Lemma update_files_lookup p id f name :
  captures (update_files p id f) !! name
  = match session_files p id with
    | Some d => if decide (id = name) then Some (Dir (f d))
                else captures p !! name
    | None => captures p !! name
    end.
Proof.
  unfold update_files. destruct (session_files p id) as [d |]; [| reflexivity].
  simpl. destruct (decide (id = name)) as [-> | Hne].
  - apply lookup_insert_eq.
  - now apply lookup_insert_ne.
Qed.

(** Rewriting the files of a session keeps the listing when the new files
    are listed under the same id. *)
Lemma update_files_keeps p id f :
  (forall d, session_files p id = Some d ->
     names_own_sessions p ->
     sort_key (descriptor (base_dir p) id (f d)) = Some id) ->
  keeps_listing p (update_files p id f).
Proof.
  intros Hf.
  assert (base_dir (update_files p id f) = base_dir p) as Hb
    by (unfold update_files; now destruct (session_files p id)).
  split; [exact Hb |]. split.
  - intros Hown name d. rewrite update_files_lookup, Hb.
    destruct (session_files p id) as [d0 |] eqn:E; [| apply Hown].
    destruct (decide (id = name)) as [<- | Hne]; [| apply Hown].
    intros [= <-]. now apply Hf.
  - intros name. unfold session_files at 1. rewrite update_files_lookup.
    destruct (session_files p id) as [d0 |] eqn:E; [| reflexivity].
    destruct (decide (id = name)) as [<- | Hne]; [| reflexivity].
    rewrite E. split; intros _; by eexists.
Qed.

Lemma update_files_keeps_stats p id f :
  (forall d, session_stats_json (f d) = session_stats_json d) ->
  keeps_listing p (update_files p id f).
Proof.
  intros Hf. apply update_files_keeps. intros d Hd Hown.
  rewrite sort_key_descriptor, Hf, <- sort_key_descriptor.
  apply Hown. now apply session_files_Some.
Qed.

Lemma save_item_keeps p : keeps_listing p (save_item p).
Proof.
  unfold save_item.
  destruct (save_queue p) as [| [[id fname] data] rest];
    [apply keeps_listing_refl |].
  apply (update_files_keeps_stats (with_save_queue p rest)).
  intros d. now destruct (rgb_files d).
Qed.

Lemma worker_steps_keeps n p : keeps_listing p (worker_steps n p).
Proof.
  revert p. induction n as [| n IH]; intros p; simpl;
    [apply keeps_listing_refl |].
  eapply keeps_listing_trans; [| apply IH].
  unfold worker_step. destruct (running p);
    [apply save_item_keeps | apply keeps_listing_refl].
Qed.

Lemma drain_keeps fuel sched k p p' :
  drain fuel sched k p = Some p' ->
  keeps_listing p p' /\ session_path p' = session_path p.
Proof.
  revert k p. induction fuel as [| fuel IH]; intros k p; simpl;
    destruct (save_queue p); try discriminate;
    try (intros [= <-]; split; [apply keeps_listing_refl | reflexivity]).
  intros H. apply IH in H as [H1 H2]. split.
  - eapply keeps_listing_trans; [apply worker_steps_keeps | exact H1].
  - rewrite H2. clear. generalize (sched k). intros n. revert p.
    induction n as [| n IHn]; intros p; simpl; [reflexivity |].
    rewrite IHn. unfold worker_step. destruct (running p); [| reflexivity].
    unfold save_item. destruct (save_queue p) as [| [[id fname] data] rest];
      [reflexivity |].
    now rewrite update_files_session_path.
Qed.



(** ** The listing invariant holds from the start *)





Lemma create_session_in_place p sid now clk p' id :
  create_session p sid now clk = (p', Some id) -> session_in_place p' id.
Proof.
  intros H. pose proof (create_session_spec p sid now clk) as Hs.
  rewrite H in Hs. destruct Hs as [Hst Hsp].
  split; [exact Hsp |]. split; [| by exists (new_stats id now)].
  revert H. unfold create_session. cbv zeta. simpl captures.
  set (id0 := match sid with Some id => id | None => clk end).
  destruct (captures p !! id0) as [[| d0] |] eqn:E; [discriminate | |];
    intros [= <- <-]; unfold _open_files; simpl session_path; cbv zeta;
    unfold session_files; simpl captures; rewrite update_files_lookup;
    unfold session_files; simpl captures; rewrite lookup_insert_eq;
    destruct (decide (id0 = id0)); try congruence; by eexists.
Qed.

End ProcessorFacts.

(* ===================================================================== *)
(** * Properties of the connection handler *)
(* ===================================================================== *)

Module ServerFacts.

Import Processor Server ProcessorFacts.

Lemma tally_app log log' :
  tally (log ++ log') = fold_left tally_step log' (tally log).
Proof. unfold tally. apply fold_left_app. Qed.

Lemma tally_step_le acc c :
  (snd acc <= fst acc)%nat ->
  (snd (tally_step acc c) <= fst (tally_step acc c))%nat.
Proof.
  destruct c as [[] | | []]; simpl; lia.
Qed.

Lemma tally_le_from log acc :
  (snd acc <= fst acc)%nat ->
  (snd (fold_left tally_step log acc) <= fst (fold_left tally_step log acc))%nat.
Proof.
  revert acc. induction log as [| c log IH]; intros acc H; simpl; [exact H |].
  apply IH, tally_step_le, H.
Qed.

Lemma process_frame_counts p pkt now clk acc :
  counts p acc ->
  counts (fst (process_frame p pkt now clk))
         (fold_left tally_step
            (frame_calls (bool_decide (session_path p = None))
                         (snd (process_frame p pkt now clk)))
            acc).
Proof.
  intros Hc. unfold process_frame.
  destruct (session_path p) as [id |] eqn:Hsp.
  - rewrite bool_decide_eq_false_2 by discriminate. rewrite Hsp.
    destruct (stats p) as [st |] eqn:Hst.
    + destruct (process_frame_body_counts p id st pkt) as (st' & H1 & H2 & _).
      destruct (process_frame_body p id st pkt) as [p' ok]. simpl in *.
      intros st'' Hs. rewrite H1 in Hs. injection Hs as <-.
      rewrite H2. simpl. f_equal. now apply Hc.
    + simpl. intros st Hs. congruence.
  - rewrite bool_decide_eq_true_2 by reflexivity.
    pose proof (create_session_spec p None now clk) as Hcr.
    destruct (create_session p None now clk) as [p1 [id |]].
    + destruct Hcr as [Hst Hsp1].
      rewrite bool_decide_eq_true_2 by (by eexists). rewrite Hsp1, Hst.
      destruct (process_frame_body_counts p1 id (new_stats id now) pkt)
        as (st' & H1 & H2 & _).
      destruct (process_frame_body p1 id (new_stats id now) pkt) as [p' ok].
      simpl in *. intros st'' Hs. rewrite H1 in Hs. injection Hs as <-.
      now rewrite H2.
    + rewrite bool_decide_eq_false_2 by (intros [? ?]; discriminate).
      simpl. intros st Hs. apply Hc. congruence.
Qed.

Lemma create_session_counts p sid now clk acc :
  counts p acc ->
  counts (fst (create_session p sid now clk))
         (tally_step acc
            (CreateSession (bool_decide (is_Some (snd (create_session p sid now clk)))))).
Proof.
  intros Hc. pose proof (create_session_spec p sid now clk) as Hcr.
  destruct (create_session p sid now clk) as [p1 [id |]]; simpl.
  - destruct Hcr as [Hst _].
    intros st Hs. rewrite Hst in Hs. now injection Hs as <-.
  - intros st Hs. apply Hc. congruence.
Qed.

Lemma handle_frame_counts s ev packet acc :
  counts (processor s) acc ->
  counts (processor (fst (_handle_frame s ev packet)))
         (fold_left tally_step (snd (_handle_frame s ev packet)) acc).
Proof.
  intros Hc. unfold _handle_frame. cbv zeta.
  destruct (is_paused (client_of s (sender ev))); [exact Hc |].
  destruct (negb (is_streaming (client_of s (sender ev)))).
  - destruct (no_session (processor (with_client s (sender ev) _))) eqn:Hno.
    + simpl processor in *.
      pose proof (create_session_counts (processor s) None (now ev)
                    (clock_id ev) acc Hc) as Hcr.
      destruct (create_session (processor s) None (now ev) (clock_id ev))
        as [p1 [id |]] eqn:Ecr; simpl in Hcr; simpl.
      * destruct packet as [pkt |]; [| exact Hcr].
        pose proof (process_frame_counts p1 pkt (now ev) (clock_id ev) _ Hcr)
          as Hpf.
        destruct (process_frame p1 pkt (now ev) (clock_id ev)) as [p2 [ok |]];
          simpl in *; exact Hpf.
      * exact Hcr.
    + simpl. destruct packet as [pkt |]; [| exact Hc].
      pose proof (process_frame_counts (processor s) pkt (now ev) (clock_id ev)
                    _ Hc) as Hpf.
      destruct (process_frame (processor s) pkt (now ev) (clock_id ev))
        as [p2 [ok |]]; simpl in *; exact Hpf.
  - simpl. destruct packet as [pkt |]; [| exact Hc].
    pose proof (process_frame_counts (processor s) pkt (now ev) (clock_id ev)
                  _ Hc) as Hpf.
    destruct (process_frame (processor s) pkt (now ev) (clock_id ev))
      as [p2 [ok |]]; simpl in *; exact Hpf.
Qed.

Lemma handle_control_counts fuel s ev command sid s' log acc :
  counts (processor s) acc ->
  _handle_control fuel s ev command sid = Some (s', log) ->
  counts (processor s') (fold_left tally_step log acc).
Proof.
  intros Hc. unfold _handle_control. cbv zeta.
  destruct (String.eqb command "start_session").
  { pose proof (create_session_counts (processor s) sid (now ev)
                  (clock_id ev) acc Hc) as Hcr.
    destruct (create_session (processor s) sid (now ev) (clock_id ev))
      as [p1 [id |]]; simpl in Hcr; intros [= <- <-]; simpl; exact Hcr. }
  destruct (String.eqb command "end_session").
  { pose proof (end_session_spec fuel (sched ev) (processor s) (now ev)) as He.
    destruct (end_session fuel (sched ev) (processor s) (now ev))
      as [p1 st1 | p1 |]; intros [= <- <-]; simpl.
    - intros st Hs. congruence.
    - intros st Hs. apply Hc. congruence. }
  repeat case_match; intros [= <- <-]; simpl; exact Hc.
Qed.

(** Whatever the clients send, the statistics object has counted exactly
    the [process_frame] calls made since it was created. *)
Lemma run_counts fuel evs : forall s s' log log0,
  counts (processor s) (tally log0) ->
  run fuel evs s = Some (s', log) ->
  counts (processor s') (tally (log0 ++ log)).
Proof.
  induction evs as [| ev evs IH]; intros s s' log log0 Hc; simpl.
  - intros [= <- <-]. now rewrite app_nil_r.
  - destruct (_process_message fuel s ev) as [[s1 log1] |] eqn:E1;
      [| discriminate].
    destruct (run fuel evs s1) as [[s2 log2] |] eqn:E2; [| discriminate].
    intros [= <- <-]. rewrite app_assoc.
    refine (IH s1 _ _ _ _ E2).
    rewrite tally_app. unfold _process_message in E1.
    destruct (message ev) as [packet | command sid].
    + injection E1 as E1.
      pose proof (handle_frame_counts s ev packet _ Hc) as H.
      now rewrite E1 in H.
    + eapply handle_control_counts; eauto.
Qed.

End ServerFacts.

(* ===================================================================== *)
(** * The properties of the capture pipeline *)
(* ===================================================================== *)

Section CaptureValidation.

Import Config Validate ValidateFacts.

(** C1, as the specification words it, fails: in a session whose rgb/
    holds the frames stamped 1.0, 2.0, 1.5 and 3.0, the frame files are
    read in sorted order, and validation does not report one monotonicity
    error. *)
Lemma out_of_order_frames_raise_no_monotonicity_error :
  length (monotonicity_errors
            (validate_session (Examples.frames_only Examples.out_of_order_frames)))
  <> 1%nat.
Proof. vm_compute. discriminate. Qed.

(** C1, amended: validation reads the timestamps from the frame files in
    sorted name order.  For the frames stamped 1.0, 2.0, 1.5 and 3.0,
    however the directory lists them, that order is 1.0, 1.5, 2.0, 3.0
    and no monotonicity error is reported.  For every session at most one
    monotonicity error is reported, and exactly one when the timestamps in
    sorted name order decrease somewhere, however often. *)
Theorem monotonicity_is_checked_in_name_order
        (s : SessionDir) (entries : list string) :
  present s = true -> rgb s = Some entries ->
  let r := validate_session s in
  let timestamps := parse_timestamps (Py.sorted (glob_jpg entries)) in
  (entries ≡ₚ Examples.out_of_order_frames ->
     timestamps = [1; 1.5; 2; 3]%float /\ monotonicity_errors r = []) /\
  (length (monotonicity_errors r) <= 1)%nat /\
  (monotonicity_errors r = [NotMonotonic] <-> is_monotonic timestamps = false).
Proof.
  intros Hp Hr. cbv zeta.
  destruct (validate_session_spec s) as (Hm & _).
  unfold timestamps_read in Hm. rewrite Hp, Hr in Hm. rewrite Hm.
  split; [| split].
  - intros Hperm. rewrite (sorted_frames_permutation _ _ Hperm).
    split; reflexivity.
  - destruct (is_monotonic _); simpl; lia.
  - destruct (is_monotonic _); split; congruence.
Qed.

(** The frames stamped 1.0, 2.0, 1.5 and 3.0 raise no monotonicity
    error. *)
Lemma monotonicity_is_checked_in_name_order_witness :
  parse_timestamps (Py.sorted (glob_jpg Examples.out_of_order_frames))
  = [1; 1.5; 2; 3]%float /\
  monotonicity_errors
    (validate_session (Examples.frames_only Examples.out_of_order_frames)) = [].
Proof.
  apply (monotonicity_is_checked_in_name_order
           (Examples.frames_only Examples.out_of_order_frames)
           Examples.out_of_order_frames); reflexivity.
Defined.

(** Frames stamped 9.0 and 10.0 do raise the error: as names, 10.000000
    sorts before 9.000000. *)
Example rollover_frames_raise_one_monotonicity_error :
  monotonicity_errors
    (validate_session (Examples.frames_only Examples.rollover_frames))
  = [NotMonotonic].
Proof. reflexivity. Qed.

(** C6, as the specification words it, fails: the stem of 0.000000.jpg
    parses as a float, and yet the frame gives no timestamp. *)
Lemma zero_timestamp_parses_and_is_dropped :
  ~ (keeps_timestamp (Examples.frame_name 0) = false <->
     Py.float_of_string (Py.stem (Examples.frame_name 0)) = None).
Proof.
  intros [H _]. vm_compute in H. specialize (H eq_refl). discriminate.
Qed.

(** C6, amended: a frame file gives a timestamp to the timestamp-derived
    checks if and only if its stem parses as a float greater than zero (a
    stem that parses as zero, as a negative number or as NaN is left out
    like one that does not parse); every listed image file counts toward
    [frame_count]. *)
Theorem timestamps_come_from_positive_stems
        (s : SessionDir) (entries : list string) :
  present s = true -> rgb s = Some entries ->
  frame_count (validate_session s) = length (glob_jpg entries) /\
  timestamps_read s
  = parse_timestamp <$> List.filter keeps_timestamp (Py.sorted (glob_jpg entries)) /\
  (forall frame,
     keeps_timestamp frame = true <->
     exists ts, Py.float_of_string (Py.stem frame) = Some ts /\
                Py.gt ts 0 = true).
Proof.
  intros Hp Hr. destruct (validate_session_spec s) as (_ & _ & _ & Hf).
  split; [now apply Hf |]. split; [| apply keeps_timestamp_iff].
  unfold timestamps_read. rewrite Hp, Hr. apply parse_timestamps_filter.
Qed.

(** Four frames, one of them stamped 0.0: all four are counted, three give
    a timestamp. *)
Lemma timestamps_come_from_positive_stems_witness :
  frame_count (validate_session (Examples.frames_only Examples.gap_frames))
  = 4%nat /\
  length (timestamps_read (Examples.frames_only Examples.gap_frames)) = 3%nat.
Proof.
  destruct (timestamps_come_from_positive_stems
              (Examples.frames_only Examples.gap_frames) Examples.gap_frames
              eq_refl eq_refl) as (H1 & H2 & _).
  rewrite H1, H2. split; reflexivity.
Defined.

(** C7: with the soft threshold 0.5 s and the hard threshold 2.0 s of
    config.py, the frames stamped 0.0, 0.1, 2.6 and 2.7 yield exactly one
    large-gap warning, for the delta of 2.5 s, and the aggregate warning
    with a count of one, so the deltas of 0.1 s add to neither.  In
    general there is one large-gap warning per delta above the hard
    threshold, and one aggregate warning, carrying the number of deltas
    above the soft threshold, when that number is not zero. *)
Theorem gaps_are_warned_by_threshold (s : SessionDir) (entries : list string) :
  present s = true -> rgb s = Some entries ->
  let r := validate_session s in
  let ds := deltas (timestamps_read s) in
  (entries ≡ₚ Examples.gap_frames ->
     gap_warnings r = [LargeGap 1 2.5; GapsDetected 1]) /\
  length (List.filter is_large_gap (warnings r))
  = count_above MAX_FRAME_GAP_ERROR ds /\
  List.filter is_gaps_detected (warnings r)
  = (if (0 <? count_above MAX_FRAME_GAP ds)%nat
     then [GapsDetected (count_above MAX_FRAME_GAP ds)] else []).
Proof.
  intros Hp Hr. cbv zeta.
  destruct (validate_session_spec s) as (_ & Hg & _).
  assert (forall f, (forall m, f m = true -> is_gap_warning m = true) ->
            List.filter f (warnings (validate_session s))
            = List.filter f (large_gap_warnings 1 (deltas (timestamps_read s)))
              ++ List.filter f
                   (aggregate_warning
                      (count_above MAX_FRAME_GAP (deltas (timestamps_read s)))))
    as Hsplit.
  { intros f Hf. rewrite <- List.filter_app, <- Hg.
    unfold gap_warnings. symmetry. now apply filter_filter_implied. }
  destruct (large_gap_warnings_filters 1 (deltas (timestamps_read s)))
    as (L1 & L2 & L3).
  destruct (aggregate_warning_filters
              (count_above MAX_FRAME_GAP (deltas (timestamps_read s))))
    as (A1 & A2).
  split; [| split].
  - intros Hperm. rewrite Hg. unfold timestamps_read. rewrite Hp, Hr.
    rewrite (sorted_frames_permutation _ _ Hperm). reflexivity.
  - rewrite Hsplit, L2, A1, app_nil_r; [exact L1 |].
    intros m Hm. unfold is_gap_warning. now rewrite Hm.
  - rewrite Hsplit, L3, A2; [reflexivity |].
    intros m Hm. unfold is_gap_warning. rewrite Hm. apply orb_true_r.
Qed.

(** The frames stamped 0.0, 0.1, 2.6 and 2.7. *)
Lemma gaps_are_warned_by_threshold_witness :
  gap_warnings (validate_session (Examples.frames_only Examples.gap_frames))
  = [LargeGap 1 2.5; GapsDetected 1].
Proof.
  apply (gaps_are_warned_by_threshold
           (Examples.frames_only Examples.gap_frames) Examples.gap_frames);
    reflexivity.
Defined.

(** C8: the quality score starts at 100, every error and warning takes its
    penalty off and stops at 0, notes leave it alone; so it stays between 0
    and 100 from step to step and at the end of every validation, also
    when the penalties add up to more than 100, as the 135 points of the
    poor session do. *)
Theorem quality_score_stays_in_range :
  (forall id, quality_score (new_result id) = 100) /\
  (forall r msg penalty,
     quality_score (add_error r msg penalty)
     = Z.max 0 (quality_score r - penalty) /\
     quality_score (add_warning r msg penalty)
     = Z.max 0 (quality_score r - penalty) /\
     quality_score (add_info r msg) = quality_score r) /\
  (forall r msg penalty,
     0 <= penalty -> score_in_range r ->
     score_in_range (add_error r msg penalty) /\
     score_in_range (add_warning r msg penalty)) /\
  (forall s, 0 <= quality_score (validate_session s) <= 100) /\
  quality_score (validate_session Examples.poor_session) = 0.
Proof.
  split; [reflexivity |]. split; [now intros [] |]. split; [| split].
  - intros [] msg penalty Hp. unfold score_in_range. simpl. lia.
  - intros s. now destruct (validate_session_spec s) as (_ & _ & [Hs _] & _).
  - reflexivity.
Qed.

(** A penalty of 150 on a fresh result leaves a score of 0. *)
Lemma quality_score_stays_in_range_witness :
  score_in_range (add_error (new_result "session") PathMissing 150) /\
  quality_score (add_error (new_result "session") PathMissing 150) = 0.
Proof.
  destruct quality_score_stays_in_range as (_ & _ & H & _).
  split; [| reflexivity].
  apply H; [lia | unfold score_in_range; simpl; lia].
Defined.

(** C9: a validation result is valid if and only if no error was
    recorded: recording an error clears the flag, recording a warning or
    a note does not touch it. *)
Theorem valid_iff_no_error_recorded :
  (forall s, is_valid (validate_session s) = true <->
             errors (validate_session s) = []) /\
  (forall r msg penalty,
     is_valid (add_error r msg penalty) = false /\
     errors (add_error r msg penalty) = errors r ++ [msg]) /\
  (forall r msg penalty,
     is_valid (add_warning r msg penalty) = is_valid r /\
     errors (add_warning r msg penalty) = errors r) /\
  (forall r msg,
     is_valid (add_info r msg) = is_valid r /\
     errors (add_info r msg) = errors r).
Proof.
  split; [| repeat split; now destruct r].
  intros s. now destruct (validate_session_spec s) as (_ & _ & [_ Hv] & _).
Qed.

End CaptureValidation.

Section CaptureSession.

Import Processor Server ProcessorFacts ServerFacts.

(** C2, as the specification words it, fails: the frame of the message
    [{"frame": "", "timestamp": "soon"}] makes [process_frame] return
    [False], and [frame_count] is 1 all the same. *)
Lemma failed_frame_is_counted :
  exists s log st,
    run 0 [Examples.sends (FrameMessage (Some Examples.unstamped_frame))]
        Examples.idle_server = Some (s, log) /\
    log = [CreateSession true; ProcessFrame false] /\
    stats (processor s) = Some st /\
    frame_count st = 1%nat /\
    calls_succeeded log = 0%nat.
Proof.
  eexists _, _, _. split; [vm_compute; reflexivity |].
  repeat split; reflexivity.
Qed.

(** C2, amended: whatever frames and control commands the clients send,
    and in whatever order, [frame_count] is the number of [process_frame]
    calls made since the statistics object of the session was created,
    whether they returned [True] or [False] (a frame is counted before the
    steps that can fail); the number of calls that returned [True] never
    exceeds it. *)
Theorem frame_count_counts_every_call
        (fuel : nat) (evs : list Event) (s0 s : PhoneSplatServer)
        (log : list call) (st : SessionStats) :
  stats (processor s0) = None ->
  run fuel evs s0 = Some (s, log) ->
  stats (processor s) = Some st ->
  frame_count st = calls_seen log /\
  (calls_succeeded log <= calls_seen log)%nat.
Proof.
  intros H0 Hrun Hst. split.
  - assert (counts (processor s0) (tally [])) as Hc
      by (intros st0 Hs; congruence).
    exact (run_counts fuel evs s0 s log [] Hc Hrun st Hst).
  - unfold calls_succeeded, calls_seen, tally. apply tally_le_from. simpl. lia.
Qed.

(** One frame that fails: one call seen, none succeeded. *)
Lemma frame_count_counts_every_call_witness :
  exists s log st,
    run 0 [Examples.sends (FrameMessage (Some Examples.unstamped_frame))]
        Examples.idle_server = Some (s, log) /\
    stats (processor s) = Some st /\
    frame_count st = calls_seen log /\
    (calls_succeeded log <= calls_seen log)%nat.
Proof.
  eexists _, _, _. split; [vm_compute; reflexivity |].
  split; [reflexivity |].
  eapply (frame_count_counts_every_call 0
            [Examples.sends (FrameMessage (Some Examples.unstamped_frame))]
            Examples.idle_server);
    [reflexivity | vm_compute; reflexivity | reflexivity].
Defined.






(** While the save thread runs and takes an item per sleep, the same call
    returns. *)
Lemma end_session_returns_while_the_worker_runs fuel sched p now :
  running p = true -> (forall i, 1 <= sched i)%nat ->
  (length (save_queue p) <= fuel)%nat ->
  end_session fuel sched p now <> Waiting.
Proof.
  intros Hr Hs Hf. unfold end_session.
  destruct (get_stats_total p now) as [stats ->].
  destruct (drain_returns fuel sched 0 p Hr Hs Hf) as [p1 ->].
  cbv zeta. repeat inner_case; discriminate.
Qed.





End CaptureSession.

(* ===================================================================== *)
(** * Further properties of validate_capture.py *)
(* ===================================================================== *)

Module ValidateInvariants.

Import Config Validate.

Lemma total_penalty_app a b :
  total_penalty (a ++ b) = total_penalty a + total_penalty b.
Proof.
  induction a as [| m a IH]; simpl; [reflexivity |]. rewrite IH. lia.
Qed.

Lemma penalty_nonneg m : 0 <= penalty m.
Proof. destruct m; simpl; lia. Qed.

(** ** Properties that every step of a validation keeps *)

Section Invariant.

Variable P : ValidationResult -> Prop.

(** [P] looks at the verdict only, and recording a finding keeps it. *)
Hypothesis P_findings : forall r r', findings r' = findings r -> P r -> P r'.
Hypothesis P_error : forall r m, P r -> P (add_error r m (penalty m)).
Hypothesis P_warning : forall r m, P r -> P (add_warning r m (penalty m)).
Hypothesis P_info : forall r m, P r -> P (add_info r m).

Lemma has_except o handler :
  outcome_has P o -> (forall r, P r -> P (handler r)) -> P (except o handler).
Proof. destruct o; simpl; auto. Qed.

Lemma has_and_then o k :
  outcome_has P o -> (forall r, P r -> outcome_has P (k r)) ->
  outcome_has P (and_then o k).
Proof. destruct o; simpl; auto. Qed.

(** A plain assignment leaves the verdict alone. *)
Ltac assigned :=
  match goal with
  | |- P (?f ?r _) => apply (P_findings r); [now destruct r |]
  | |- P (?f ?r _ _) => apply (P_findings r); [now destruct r |]
  end.

Ltac hold_step :=
  first
    [ assumption
    | match goal with
      | |- P (except _ _) => apply has_except
      | |- outcome_has P (and_then _ _) => apply has_and_then
      | |- outcome_has P (Done ?r) => change (P r)
      | |- outcome_has P (Raised ?r) => change (P r)
      | |- P (add_warning _ _ _) => apply P_warning
      | |- P (add_error _ _ _) => apply P_error
      | |- P (add_info _ _) => apply P_info
      | |- P (set_duration_sec _ _) => assigned
      | |- P (set_avg_fps _ _) => assigned
      | |- P (set_fps_range _ _ _) => assigned
      | |- P (set_size _ _) => assigned
      | |- P (set_resolution_consistent _ _) => assigned
      | |- P (set_imu_records _ _) => assigned
      | |- P (set_imu_synced _ _) => assigned
      | |- P (set_imu_avg_offset_ms _ _) => assigned
      | |- P (set_intrinsics _ _) => assigned
      | |- P (set_has_intrinsics _ _) => assigned
      | |- P (set_frame_count _ _) => assigned
      end
    | progress (cbv zeta)
    | intros ? ?
    | case_match ].

Ltac hold := repeat hold_step.

Lemma gap_loop_has i prev rest st :
  P (gs_result st) -> P (gs_result (gap_loop i prev rest st)).
Proof.
  revert i prev st. induction rest as [| ts rest IH]; intros i prev st H; simpl;
    [assumption |].
  apply IH. unfold gap_step. hold; simpl; hold.
Qed.

Lemma check_gaps_has timestamps r : P r -> P (check_gaps timestamps r).
Proof.
  intros H. unfold check_gaps. cbv zeta.
  set (st0 := {| gs_result := r; gs_gaps := []; gs_fps_values := [];
                 gs_large_gaps := 0 |}).
  assert (P (gs_result match timestamps with
                       | [] => st0
                       | t0 :: rest => gap_loop 1 t0 rest st0
                       end)) as Hloop.
  { destruct timestamps; [exact H |]. now apply gap_loop_has. }
  hold.
Qed.

Lemma check_monotonic_has timestamps r : P r -> P (check_monotonic timestamps r).
Proof. intros H. unfold check_monotonic. hold. Qed.

Lemma sample_loop_has open_size frames first idxs r :
  P r -> outcome_has P (sample_loop open_size frames first idxs r).
Proof.
  revert r. induction idxs as [| idx rest IH]; intros r H; simpl; hold.
  now apply IH.
Qed.

Lemma check_images_has s frames r : P r -> P (check_images s frames r).
Proof.
  intros H. unfold check_images. hold.
  apply sample_loop_has. hold.
Qed.

Lemma check_imu_has s timestamps r : P r -> P (check_imu s timestamps r).
Proof. intros H. unfold check_imu. hold. Qed.

Lemma check_intrinsics_has s r : P r -> P (check_intrinsics s r).
Proof. intros H. unfold check_intrinsics. hold. Qed.

Lemma check_rgb_txt_has s r : P r -> P (check_rgb_txt s r).
Proof. intros H. unfold check_rgb_txt. hold. Qed.

Lemma recommendations_has r : P r -> P (recommendations r).
Proof. intros H. unfold recommendations. hold. Qed.

Lemma validate_timed_has s frames timestamps r :
  P r -> P (validate_timed s frames timestamps r).
Proof.
  intros H. unfold validate_timed. cbv zeta.
  apply recommendations_has, check_rgb_txt_has, check_intrinsics_has,
    check_imu_has, check_images_has, check_monotonic_has, check_gaps_has.
  hold.
Qed.

Lemma validate_session_has s :
  P (new_result (name s)) -> P (validate_session s).
Proof.
  intros H. unfold validate_session. cbv zeta.
  destruct (negb (present s)); [hold |].
  destruct (rgb s) as [entries |]; [| hold].
  set (r0 := set_frame_count _ _).
  assert (P r0) as H0 by (subst r0; hold).
  clearbody r0.
  destruct (frame_count r0 =? 0)%nat; [hold |].
  set (r1 := if (frame_count r0 <? MIN_FRAMES)%nat then _ else _).
  assert (P r1) as H1 by (subst r1; hold).
  clearbody r1.
  destruct (_ <? 2)%nat; [hold |].
  now apply validate_timed_has.
Qed.

(** When every frame file opens as an image, the check of the image
    dimensions finishes without an error. *)
Lemma sample_loop_readable open_size frames first idxs r :
  (forall f, f ∈ frames -> is_Some (open_size f)) ->
  Forall (fun idx => (idx < length frames)%nat) idxs ->
  P r ->
  exists r', sample_loop open_size frames first idxs r = Done r' /\ P r'.
Proof.
  intros Hopen Hidx. revert r.
  induction Hidx as [| idx rest Hlt _ IH]; intros r H; simpl; [eauto |].
  destruct (Hopen (nth idx frames "")) as [sz ->].
  { apply list_elem_of_In, nth_In, Hlt. }
  destruct (negb (size_eqb sz first)); [| now apply IH].
  eexists. split; [reflexivity |]. hold.
Qed.

Lemma check_images_readable s frames r :
  (forall f, f ∈ frames -> is_Some (image_size s f)) -> frames <> [] ->
  P r -> P (check_images s frames r).
Proof.
  intros Hopen Hne H. unfold check_images. cbv zeta.
  destruct (Hopen (nth 0 frames "")) as [first ->].
  { apply list_elem_of_In, nth_In. destruct frames; [congruence | simpl; lia]. }
  destruct (Hopen (List.last frames "")) as [last ->].
  { destruct (exists_last Hne) as (l & x & ->). rewrite last_last.
    apply elem_of_app. right. constructor. }
  assert (forall r1, P r1 ->
            P (except
                 (if (20 <? length frames)%nat
                  then sample_loop (image_size s) frames first
                         [length frames / 4; length frames / 2;
                          3 * length frames / 4]%nat r1
                  else Done r1)
                 (fun r => add_error r ImageError 20))) as Hsample.
  { intros r1 H1. destruct (20 <? length frames)%nat eqn:E; [| exact H1].
    apply Nat.ltb_lt in E.
    destruct (sample_loop_readable (image_size s) frames first
                [length frames / 4; length frames / 2; 3 * length frames / 4]%nat
                r1 Hopen) as (r' & -> & H'); [| exact H1 | exact H'].
    repeat constructor.
    - apply Nat.Div0.div_lt_upper_bound. lia.
    - apply Nat.Div0.div_lt_upper_bound. lia.
    - apply Nat.Div0.div_lt_upper_bound. lia. }
  destruct (1 <? length frames)%nat; simpl and_then.
  - destruct (negb (size_eqb last first)); simpl and_then; apply Hsample; hold.
  - apply Hsample. hold.
Qed.

End Invariant.

(** ** The invariants used below *)

Lemma scored_findings r r' : findings r' = findings r -> scored r -> scored r'.
Proof.
  unfold findings, scored. intros [= Hv Hq He Hw Hi]. now rewrite Hq, He, Hw.
Qed.

Lemma scored_add_error r m : scored r -> scored (add_error r m (penalty m)).
Proof.
  pose proof (penalty_nonneg m).
  destruct r; unfold scored; simpl. intros ->.
  rewrite !total_penalty_app. simpl. lia.
Qed.

Lemma scored_add_warning r m : scored r -> scored (add_warning r m (penalty m)).
Proof.
  pose proof (penalty_nonneg m).
  destruct r; unfold scored; simpl. intros ->.
  rewrite !total_penalty_app. simpl. lia.
Qed.

Lemma scored_add_info r m : scored r -> scored (add_info r m).
Proof. now destruct r. Qed.

Lemma validate_session_scored s : scored (validate_session s).
Proof.
  apply validate_session_has.
  - apply scored_findings.
  - apply scored_add_error.
  - apply scored_add_warning.
  - apply scored_add_info.
  - reflexivity.
Qed.

(** Once a result is invalid it stays invalid. *)
Lemma stays_invalid_findings r r' :
  findings r' = findings r -> is_valid r = false -> is_valid r' = false.
Proof. unfold findings. intros [= Hv _ _ _ _]. now rewrite Hv. Qed.

Lemma invalid_add_error r m p : is_valid (add_error r m p) = false.
Proof. now destruct r. Qed.

Lemma valid_add_warning r m p : is_valid (add_warning r m p) = is_valid r.
Proof. now destruct r. Qed.

Lemma valid_add_info r m : is_valid (add_info r m) = is_valid r.
Proof. now destruct r. Qed.

Lemma errors_add_warning r m p : errors (add_warning r m p) = errors r.
Proof. now destruct r. Qed.

Lemma errors_add_info r m : errors (add_info r m) = errors r.
Proof. now destruct r. Qed.

Lemma validate_timed_stays_invalid s frames timestamps r :
  is_valid r = false -> is_valid (validate_timed s frames timestamps r) = false.
Proof.
  apply (validate_timed_has (fun r => is_valid r = false)).
  - apply stays_invalid_findings.
  - intros. apply invalid_add_error.
  - intros ? ? H. now rewrite valid_add_warning.
  - intros ? ? H. now rewrite valid_add_info.
Qed.

(** The verdict [v] and the errors [es] are what a result holds. *)
Lemma verdict_findings v es r r' :
  findings r' = findings r ->
  is_valid r = v /\ errors r = es -> is_valid r' = v /\ errors r' = es.
Proof. unfold findings. intros [= Hv _ He _ _]. now rewrite Hv, He. Qed.

Lemma verdict_add_warning v es r m p :
  is_valid r = v /\ errors r = es ->
  is_valid (add_warning r m p) = v /\ errors (add_warning r m p) = es.
Proof. now rewrite valid_add_warning, errors_add_warning. Qed.

Lemma verdict_add_info v es r m :
  is_valid r = v /\ errors r = es ->
  is_valid (add_info r m) = v /\ errors (add_info r m) = es.
Proof. now rewrite valid_add_info, errors_add_info. Qed.

(** The checks of the IMU data, the intrinsics and rgb.txt, and the
    recommendations, record no error. *)
Lemma files_checks_keep_verdict s timestamps r :
  let r' := recommendations
              (check_rgb_txt s (check_intrinsics s (check_imu s timestamps r))) in
  is_valid r' = is_valid r /\ errors r' = errors r.
Proof.
  cbv zeta.
  pose (P := fun r' => is_valid r' = is_valid r /\ errors r' = errors r).
  assert (forall r1 r2, findings r2 = findings r1 -> P r1 -> P r2) as Pf
    by (intros r1 r2; apply verdict_findings).
  assert (forall r1 m, P r1 -> P (add_warning r1 m (penalty m))) as Pw
    by (intros r1 m; apply verdict_add_warning).
  assert (forall r1 m, P r1 -> P (add_info r1 m)) as Pi
    by (intros r1 m; apply verdict_add_info).
  assert (P r) as H by now split.
  apply (recommendations_has P), (check_rgb_txt_has P),
    (check_intrinsics_has P), (check_imu_has P); assumption.
Qed.

Lemma check_gaps_keeps_verdict timestamps r :
  is_valid (check_gaps timestamps r) = is_valid r /\
  errors (check_gaps timestamps r) = errors r.
Proof.
  pose (P := fun r' => is_valid r' = is_valid r /\ errors r' = errors r).
  apply (check_gaps_has P).
  - intros r1 r2. apply verdict_findings.
  - intros r1 m. apply verdict_add_warning.
  - now split.
Qed.

Lemma check_images_keeps_verdict s frames r :
  (forall f, f ∈ frames -> is_Some (image_size s f)) -> frames <> [] ->
  is_valid (check_images s frames r) = is_valid r /\
  errors (check_images s frames r) = errors r.
Proof.
  intros Hopen Hne.
  pose (P := fun r' => is_valid r' = is_valid r /\ errors r' = errors r).
  apply (check_images_readable P); try assumption.
  - intros r1 r2. apply verdict_findings.
  - intros r1 m. apply verdict_add_warning.
  - now split.
Qed.

Lemma check_images_stays_invalid s frames r :
  is_valid r = false -> is_valid (check_images s frames r) = false.
Proof.
  apply (check_images_has (fun r => is_valid r = false)).
  - apply stays_invalid_findings.
  - intros. apply invalid_add_error.
  - intros ? ? H. now rewrite valid_add_warning.
Qed.

(** A result that is valid after the frames were checked: the capture is
    long enough, its timestamps do not decrease and its first image could
    be opened; and these, with every image readable, are enough. *)
Lemma validate_timed_verdict s frames timestamps r :
  is_valid r = true ->
  (is_valid (validate_timed s frames timestamps r) = true ->
   long_enough timestamps /\ is_monotonic timestamps = true /\
   is_Some (image_size s (nth 0 frames ""))) /\
  ((forall f, f ∈ frames -> is_Some (image_size s f)) -> frames <> [] ->
   long_enough timestamps -> is_monotonic timestamps = true ->
   is_valid (validate_timed s frames timestamps r) = true).
Proof.
  intros Hv. unfold validate_timed, long_enough. cbv zeta.
  set (d := (List.last timestamps 0 - nth 0 timestamps 0)%float).
  assert (duration_sec (set_duration_sec r d) = d) as Hdur by now destruct r.
  assert (is_valid (set_duration_sec r d) = true) as Hd by now destruct r.
  set (rd := set_duration_sec r d) in *. clearbody rd. rewrite Hdur.
  set (rs := if Py.lt d MIN_DURATION then add_error rd (TooShort d) 20 else rd).
  assert (is_valid rs = negb (Py.lt d MIN_DURATION)) as Hs.
  { subst rs. destruct (Py.lt d MIN_DURATION); [apply invalid_add_error | exact Hd]. }
  assert (duration_sec rs = d) as ->.
  { subst rs. destruct (Py.lt d MIN_DURATION); [| exact Hdur].
    rewrite <- Hdur. now destruct rd. }
  clearbody rs.
  set (ra := if Py.gt d 0 then set_avg_fps rs _ else rs).
  assert (is_valid ra = is_valid rs) as Ha
    by (subst ra; destruct (Py.gt d 0); [now destruct rs | reflexivity]).
  clearbody ra.
  destruct (files_checks_keep_verdict s timestamps
              (check_images s frames
                 (check_monotonic timestamps (check_gaps timestamps ra))))
    as [-> _].
  destruct (check_gaps_keeps_verdict timestamps ra) as [Hg _].
  set (rg := check_gaps timestamps ra) in *. clearbody rg.
  assert (is_valid (check_monotonic timestamps rg)
          = is_valid rg && is_monotonic timestamps) as Hm.
  { unfold check_monotonic. destruct (is_monotonic timestamps); simpl.
    - now rewrite andb_true_r.
    - now rewrite invalid_add_error, andb_false_r. }
  set (rm := check_monotonic timestamps rg) in *. clearbody rm.
  rewrite Hg, Ha, Hs in Hm. split.
  - intros Hi.
    destruct (is_valid rm) eqn:Vm.
    2: { rewrite check_images_stays_invalid in Hi by assumption. discriminate. }
    symmetry in Hm. apply andb_true_iff in Hm as [H1 H2].
    apply negb_true_iff in H1. split; [exact H1 | split; [exact H2 |]].
    unfold check_images in Hi.
    destruct (image_size s (nth 0 frames "")); [by eexists |].
    simpl in Hi. now rewrite invalid_add_error in Hi.
  - intros Hopen Hne Hlong Hmono.
    destruct (check_images_keeps_verdict s frames rm Hopen Hne) as [-> _].
    now rewrite Hm, Hlong, Hmono.
Qed.

(** Past the listing of rgb/, a validation reads the images and the three
    files of the session, nothing else. *)
Lemma validate_timed_reads s s' frames timestamps r :
  image_size s' = image_size s -> imu_csv s' = imu_csv s ->
  intrinsics_json s' = intrinsics_json s -> rgb_txt s' = rgb_txt s ->
  validate_timed s' frames timestamps r = validate_timed s frames timestamps r.
Proof.
  intros Hi Hm Hj Ht.
  assert (forall r0, check_images s' frames r0 = check_images s frames r0)
    as Himages by (intros r0; unfold check_images; now rewrite Hi).
  assert (forall r0, check_imu s' timestamps r0 = check_imu s timestamps r0)
    as Himu by (intros r0; unfold check_imu; now rewrite Hm).
  assert (forall r0, check_intrinsics s' r0 = check_intrinsics s r0)
    as Hintr by (intros r0; unfold check_intrinsics; now rewrite Hj).
  assert (forall r0, check_rgb_txt s' r0 = check_rgb_txt s r0)
    as Htxt by (intros r0; unfold check_rgb_txt; now rewrite Ht).
  unfold validate_timed. cbv zeta.
  now rewrite Himages, Himu, Hintr, Htxt.
Qed.

End ValidateInvariants.

Section ValidationCoverage.

Import Config Validate ValidateInvariants.

(** X1: the quality score of a validation is 100 less the penalties of all
    the errors and warnings it recorded, and 0 when they exceed 100. *)
Theorem quality_score_is_100_less_penalties (s : SessionDir) :
  quality_score (validate_session s)
  = Z.max 0 (100 - total_penalty (errors (validate_session s)
                                  ++ warnings (validate_session s))).
Proof. apply validate_session_scored. Qed.

(** X2: what a valid verdict says about a capture.  A session is valid
    only if it holds at least MIN_FRAMES frame files, at least two of them
    give a timestamp, the capture is not shorter than MIN_DURATION, the
    timestamps in sorted name order do not decrease, and the first image
    could be opened.  When every frame file opens as an image these
    conditions are also enough, whatever imu.csv, intrinsics.json and
    rgb.txt hold. *)
Theorem valid_capture_conditions (s : SessionDir) (entries : list string) :
  present s = true -> rgb s = Some entries ->
  let frames := Py.sorted (glob_jpg entries) in
  let timestamps := parse_timestamps frames in
  (is_valid (validate_session s) = true ->
   (MIN_FRAMES <= length frames)%nat /\ (2 <= length timestamps)%nat /\
   long_enough timestamps /\ is_monotonic timestamps = true /\
   is_Some (image_size s (nth 0 frames ""))) /\
  ((forall f, f ∈ frames -> is_Some (image_size s f)) ->
   (MIN_FRAMES <= length frames)%nat -> (2 <= length timestamps)%nat ->
   long_enough timestamps -> is_monotonic timestamps = true ->
   is_valid (validate_session s) = true).
Proof.
  intros Hp Hr. cbv zeta. unfold validate_session. rewrite Hp, Hr.
  change (negb true) with false. cbv iota zeta.
  set (frames := Py.sorted (glob_jpg entries)).
  set (timestamps := parse_timestamps frames).
  destruct (ValidateFacts.set_frame_count_fresh (name s) (length frames))
    as (F0 & _).
  assert (is_valid (set_frame_count (new_result (name s)) (length frames)) = true)
    as V0 by reflexivity.
  set (r0 := set_frame_count (new_result (name s)) (length frames)) in *.
  clearbody r0. rewrite F0. unfold MIN_FRAMES.
  destruct (length frames =? 0)%nat eqn:Hz.
  { apply Nat.eqb_eq in Hz. rewrite invalid_add_error. split; [discriminate | lia]. }
  destruct (length frames <? 30)%nat eqn:Hmin.
  { apply Nat.ltb_lt in Hmin. split; [| lia]. intros Hv. exfalso.
    destruct (length timestamps <? 2)%nat.
    - now rewrite invalid_add_error in Hv.
    - rewrite validate_timed_stays_invalid in Hv; [discriminate |].
      apply invalid_add_error. }
  apply Nat.ltb_ge in Hmin.
  destruct (length timestamps <? 2)%nat eqn:Hts.
  { apply Nat.ltb_lt in Hts. rewrite invalid_add_error. split; [discriminate | lia]. }
  apply Nat.ltb_ge in Hts.
  destruct (validate_timed_verdict s frames timestamps r0 V0) as [Hnec Hsuf].
  split.
  - intros Hv. apply Hnec in Hv. tauto.
  - intros Hopen _ _ Hlong Hmono. apply Hsuf; try assumption.
    intros ->. discriminate.
Qed.

(** Thirty readable frames a second apart make a valid capture, although
    imu.csv cannot be read, intrinsics.json holds a list and rgb.txt is
    empty. *)
Lemma valid_capture_conditions_witness :
  is_valid (validate_session Examples.steady_session_with_bad_files) = true.
Proof.
  apply (valid_capture_conditions Examples.steady_session_with_bad_files
           Examples.steady_frames eq_refl eq_refl).
  - intros f _. by eexists.
  - vm_compute. lia.
  - vm_compute. lia.
  - vm_compute. reflexivity.
  - vm_compute. reflexivity.
Defined.

(** X3: the errors of a validation, and with them the verdict, come from
    the frame files alone: two sessions that differ only in what imu.csv,
    intrinsics.json and rgb.txt hold get the same errors.  Those three
    files add warnings, never errors. *)
Theorem errors_come_from_the_frames (s s' : SessionDir) :
  name s' = name s -> present s' = present s -> rgb s' = rgb s ->
  image_size s' = image_size s ->
  errors (validate_session s') = errors (validate_session s) /\
  is_valid (validate_session s') = is_valid (validate_session s).
Proof.
  destruct s as [n p r sz i1 j1 t1], s' as [n' p' r' sz' i2 j2 t2]. simpl.
  intros -> -> -> ->. unfold validate_session. cbn [present rgb name]. cbv zeta.
  destruct p; [| now split]. change (negb true) with false. cbv iota.
  destruct r as [entries |]; [| now split].
  set (r0 := set_frame_count _ _).
  destruct (frame_count r0 =? 0)%nat; [now split |].
  set (r1 := if (frame_count r0 <? MIN_FRAMES)%nat then _ else _).
  destruct (length _ <? 2)%nat; [now split |].
  unfold validate_timed. cbv zeta.
  repeat match goal with
         | |- context [recommendations (check_rgb_txt ?s (check_intrinsics ?s
                         (check_imu ?s ?ts ?r)))] =>
             let V := fresh in let E := fresh in
             destruct (files_checks_keep_verdict s ts r) as [V E];
             rewrite V, E; clear V E
         end.
  unfold check_images. cbn [image_size]. split; reflexivity.
Qed.

Lemma errors_come_from_the_frames_witness :
  errors (validate_session Examples.steady_session_with_bad_files)
  = errors (validate_session (Examples.frames_only Examples.steady_frames)).
Proof.
  apply (errors_come_from_the_frames
           (Examples.frames_only Examples.steady_frames)
           Examples.steady_session_with_bad_files); reflexivity.
Defined.

(** X4: a session that cannot be looked into is rejected outright.  When
    the session path is missing, when it has no rgb/ directory, or when
    rgb/ holds no .jpg file, the result is the fresh result with that one
    error at a penalty of 100: invalid, score 0, no warning and no note. *)
Theorem unusable_session_is_rejected (s : SessionDir) :
  present s = false \/ rgb s = None \/
  (exists entries, rgb s = Some entries /\ glob_jpg entries = []) ->
  exists m,
    m ∈ [PathMissing; NoRgbDir; NoFrames] /\
    validate_session s = add_error (new_result (name s)) m 100 /\
    is_valid (validate_session s) = false /\
    quality_score (validate_session s) = 0 /\
    errors (validate_session s) = [m] /\
    warnings (validate_session s) = [] /\
    info (validate_session s) = [].
Proof.
  unfold validate_session. cbv zeta.
  destruct (present s) eqn:Hp; simpl.
  2: { intros _. exists PathMissing. split; [set_solver | now repeat split]. }
  intros [H | [H | (entries & Hr & Hg)]]; [discriminate | |].
  - rewrite H. exists NoRgbDir. split; [set_solver | now repeat split].
  - rewrite Hr, Hg. exists NoFrames. split; [set_solver | now repeat split].
Qed.

Lemma unusable_session_is_rejected_witness :
  exists m,
    m ∈ [PathMissing; NoRgbDir; NoFrames] /\
    validate_session (Examples.frames_only ["notes.txt"])
    = add_error (new_result "session_20241222_153045") m 100 /\
    is_valid (validate_session (Examples.frames_only ["notes.txt"])) = false /\
    quality_score (validate_session (Examples.frames_only ["notes.txt"])) = 0 /\
    errors (validate_session (Examples.frames_only ["notes.txt"])) = [m] /\
    warnings (validate_session (Examples.frames_only ["notes.txt"])) = [] /\
    info (validate_session (Examples.frames_only ["notes.txt"])) = [].
Proof.
  apply (unusable_session_is_rejected (Examples.frames_only ["notes.txt"])).
  right. right. exists ["notes.txt"]. split; reflexivity.
Defined.

(** X5: the result of a validation does not depend on the order in which
    the directory lists the frame files: the files are sorted by name
    before anything is read from them. *)
Theorem validation_ignores_listing_order
        (s : SessionDir) (entries entries' : list string) :
  rgb s = Some entries -> entries ≡ₚ entries' ->
  validate_session (listed_as s entries') = validate_session s.
Proof.
  intros Hr Hperm. unfold validate_session.
  change (name (listed_as s entries')) with (name s).
  change (present (listed_as s entries')) with (present s).
  change (rgb (listed_as s entries')) with (Some entries'). rewrite Hr.
  rewrite (ValidateFacts.sorted_frames_permutation _ _ Hperm). cbv zeta.
  destruct (negb (present s)); [reflexivity |].
  destruct (frame_count _ =? 0)%nat; [reflexivity |].
  destruct (length _ <? 2)%nat; [reflexivity |].
  apply validate_timed_reads; reflexivity.
Qed.

Lemma validation_ignores_listing_order_witness :
  validate_session
    (listed_as (Examples.frames_only Examples.gap_frames)
               (rev Examples.gap_frames))
  = validate_session (Examples.frames_only Examples.gap_frames).
Proof.
  apply (validation_ignores_listing_order
           (Examples.frames_only Examples.gap_frames) Examples.gap_frames).
  - reflexivity.
  - apply Permutation_rev.
Defined.

End ValidationCoverage.

(* ===================================================================== *)
(** * Session names *)
(* ===================================================================== *)

Module ClockFacts.

Import Clock.

(** ** Comparing strings piece by piece *)

Lemma ascii_compare_refl c : Ascii.compare c c = Eq.
Proof. unfold Ascii.compare. apply N.compare_refl. Qed.

Lemma string_compare_refl s : String.compare s s = Eq.
Proof.
  induction s as [| c s IH]; simpl; [reflexivity |].
  now rewrite ascii_compare_refl.
Qed.

(** Two strings that begin with pieces of the same length compare as the
    pieces do, and as the rests do when the pieces are equal. *)
Lemma compare_app x x' y y' :
  String.length x = String.length x' ->
  String.compare (x +:+ y) (x' +:+ y')
  = match String.compare x x' with
    | Eq => String.compare y y'
    | c => c
    end.
Proof.
  revert x'. induction x as [| c x IH]; intros [| c' x']; simpl; try discriminate.
  - reflexivity.
  - intros [= Hlen]. destruct (Ascii.compare c c'); auto.
Qed.

(** ** Fields of two and of four digits *)

Lemma field_2_length n : 0 <= n <= 99 -> String.length (field 2 n) = 2%nat.
Proof.
  intros H.
  assert (forallb (fun k => (String.length (field 2 (Z.of_nat k)) =? 2)%nat)
                  (seq 0 100) = true) as Hall by (vm_compute; reflexivity).
  rewrite forallb_forall in Hall.
  specialize (Hall (Z.to_nat n)). rewrite Z2Nat.id in Hall by lia.
  apply Nat.eqb_eq, Hall, in_seq. lia.
Qed.

Lemma field_2_compare n m :
  0 <= n <= 99 -> 0 <= m <= 99 ->
  String.compare (field 2 n) (field 2 m) = (n ?= m).
Proof.
  intros Hn Hm.
  assert (forallb
            (fun a =>
               forallb
                 (fun b =>
                    match String.compare (field 2 (Z.of_nat a))
                                         (field 2 (Z.of_nat b)),
                          (Z.of_nat a ?= Z.of_nat b) with
                    | Eq, Eq | Lt, Lt | Gt, Gt => true
                    | _, _ => false
                    end)
                 (seq 0 100))
            (seq 0 100) = true) as Hall by (vm_compute; reflexivity).
  rewrite forallb_forall in Hall.
  specialize (Hall (Z.to_nat n)). rewrite forallb_forall in Hall.
  specialize (Hall ltac:(apply in_seq; lia) (Z.to_nat m) ltac:(apply in_seq; lia)).
  rewrite !Z2Nat.id in Hall by lia.
  destruct (String.compare _ _), (n ?= m); congruence.
Qed.

(** A year of four digits is written as its century and its year of the
    century. *)
Lemma field_4_split y :
  1000 <= y <= 9999 -> field 4 y = field 2 (y / 100) +:+ field 2 (y mod 100).
Proof.
  intros H.
  assert (forallb
            (fun c =>
               forallb
                 (fun r =>
                    String.eqb
                      (field 4 (100 * Z.of_nat c + Z.of_nat r))
                      (field 2 (Z.of_nat c) +:+ field 2 (Z.of_nat r)))
                 (seq 0 100))
            (seq 10 90) = true) as Hall by (vm_compute; reflexivity).
  pose proof (Z.mod_pos_bound y 100 ltac:(lia)) as Hr.
  pose proof (Z.div_mod y 100 ltac:(lia)) as Hy.
  assert (10 <= y / 100 <= 99) as Hc by lia.
  rewrite forallb_forall in Hall.
  specialize (Hall (Z.to_nat (y / 100)) ltac:(apply in_seq; lia)).
  rewrite forallb_forall in Hall.
  specialize (Hall (Z.to_nat (y mod 100)) ltac:(apply in_seq; lia)).
  rewrite !Z2Nat.id in Hall by lia.
  rewrite <- Z.div_mod in Hall by lia. now apply String.eqb_eq.
Qed.

Lemma length_append x y :
  String.length (x +:+ y) = (String.length x + String.length y)%nat.
Proof. induction x as [| c x IH]; simpl; [reflexivity | now rewrite IH]. Qed.

Lemma hundreds y :
  1000 <= y <= 9999 -> 0 <= y / 100 <= 99 /\ 0 <= y mod 100 <= 99.
Proof.
  intros H. pose proof (Z.mod_pos_bound y 100 ltac:(lia)).
  pose proof (Z.div_mod y 100 ltac:(lia)). lia.
Qed.

Lemma field_4_length y : 1000 <= y <= 9999 -> String.length (field 4 y) = 4%nat.
Proof.
  intros H. destruct (hundreds y H).
  now rewrite field_4_split, length_append, !field_2_length.
Qed.

Lemma field_4_compare y z :
  1000 <= y <= 9999 -> 1000 <= z <= 9999 ->
  String.compare (field 4 y) (field 4 z) = (y ?= z).
Proof.
  intros Hy Hz.
  destruct (hundreds y Hy) as [Hy1 Hy2], (hundreds z Hz) as [Hz1 Hz2].
  rewrite !field_4_split by assumption.
  rewrite compare_app by now rewrite !field_2_length.
  rewrite !field_2_compare by assumption.
  pose proof (Z.div_mod y 100 ltac:(lia)). pose proof (Z.div_mod z 100 ltac:(lia)).
  destruct (Z.compare_spec (y / 100) (z / 100)) as [E | L | G].
  - destruct (Z.compare_spec (y mod 100) (z mod 100)); symmetry;
      [apply Z.compare_eq_iff | apply Z.compare_lt_iff | apply Z.compare_gt_iff];
      lia.
  - symmetry. apply Z.compare_lt_iff. lia.
  - symmetry. apply Z.compare_gt_iff. lia.
Qed.

(** ** The ids *)

(** How two ids compare: as their years do, then their months, and so on
    down to the seconds. *)
Lemma session_id_compare a b :
  in_calendar a -> in_calendar b ->
  String.compare (session_id_at a) (session_id_at b)
  = fold_right (fun c rest => match c with Eq => rest | _ => c end) Eq
      (zip_with Z.compare (stamp a) (stamp b)).
Proof.
  intros (Ya & Ma & Da & Ha & Ia & Sa) (Yb & Mb & Db & Hb & Ib & Sb).
  unfold session_id_at, stamp. simpl zip_with. simpl fold_right.
  rewrite (compare_app "session_" "session_") by reflexivity.
  simpl (String.compare "session_" "session_").
  rewrite compare_app by now rewrite !field_4_length.
  rewrite field_4_compare by assumption.
  rewrite compare_app by (rewrite !field_2_length; [reflexivity | lia | lia]).
  rewrite field_2_compare by lia.
  rewrite compare_app by (rewrite !field_2_length; [reflexivity | lia | lia]).
  rewrite field_2_compare by lia.
  rewrite (compare_app "_" "_") by reflexivity. simpl (String.compare "_" "_").
  rewrite compare_app by (rewrite !field_2_length; [reflexivity | lia | lia]).
  rewrite field_2_compare by lia.
  rewrite compare_app by (rewrite !field_2_length; [reflexivity | lia | lia]).
  rewrite !field_2_compare by lia.
  destruct (year a ?= year b), (month a ?= month b), (day a ?= day b),
    (hour a ?= hour b), (minute a ?= minute b), (second a ?= second b);
    reflexivity.
Qed.

Lemma lex_ltb_compare (a b : list Z) :
  length a = length b ->
  lex_ltb a b
  = match fold_right (fun c rest => match c with Eq => rest | _ => c end) Eq
            (zip_with Z.compare a b) with
    | Lt => true
    | _ => false
    end.
Proof.
  revert b. induction a as [| x a IH]; intros [| y b]; simpl; try discriminate;
    [reflexivity |].
  intros [= Hlen]. rewrite (IH b Hlen).
  destruct (Z.compare_spec x y) as [-> | L | G].
  - now rewrite Z.ltb_irrefl, Z.eqb_refl.
  - apply Z.ltb_lt in L. now rewrite L.
  - assert ((x <? y) = false) as -> by (apply Z.ltb_ge; lia).
    assert ((x =? y) = false) as -> by (apply Z.eqb_neq; lia). reflexivity.
Qed.

Lemma stamps_equal (a b : list Z) :
  length a = length b ->
  fold_right (fun c rest => match c with Eq => rest | _ => c end) Eq
    (zip_with Z.compare a b) = Eq ->
  a = b.
Proof.
  revert b. induction a as [| x a IH]; intros [| y b]; simpl; try discriminate;
    [reflexivity |].
  intros [= Hlen]. destruct (Z.compare_spec x y) as [-> | L | G];
    try discriminate.
  intros H. f_equal. now apply IH.
Qed.

End ClockFacts.

Section SessionNames.

Import Processor ProcessorFacts Clock ClockFacts.

(** X6: [config.list_sessions] returns the directory names that begin
    with session_, each once, the greatest name first, and the empty list
    when the captures directory does not exist. *)
Theorem configured_sessions_are_listed_by_name (names : list string) :
  NoDup names ->
  strictly_descending (Config.list_sessions (Some names)) /\
  (forall n, n ∈ Config.list_sessions (Some names) <->
             n ∈ names /\ Py.startswith n "session_" = true) /\
  Config.list_sessions None = [].
Proof.
  intros Hnd. unfold Config.list_sessions.
  set (l := List.filter (fun n => Py.startswith n "session_") names).
  assert (Py.sorted_desc id l ≡ₚ l) as Hperm by apply sorted_desc_perm.
  split; [| split; [| reflexivity]].
  - rewrite <- (list_fmap_id (Py.sorted_desc id l)).
    apply Sorted_strict; [apply sorted_desc_Sorted |].
    rewrite list_fmap_id, Hperm. subst l.
    apply NoDup_ListNoDup, List.NoDup_filter, NoDup_ListNoDup, Hnd.
  - intros n. rewrite Hperm. subst l.
    rewrite list_elem_of_In, List.filter_In, <- list_elem_of_In. tauto.
Qed.

(** Three directories, one of them no session. *)
Lemma configured_sessions_are_listed_by_name_witness :
  Config.list_sessions
    (Some ["session_20241222_153045"; "notes"; "session_20250101_000000"])
  = ["session_20250101_000000"; "session_20241222_153045"] /\
  strictly_descending
    (Config.list_sessions
       (Some ["session_20241222_153045"; "notes"; "session_20250101_000000"])).
Proof.
  split; [reflexivity |].
  apply (configured_sessions_are_listed_by_name
           ["session_20241222_153045"; "notes"; "session_20250101_000000"]).
  apply (bool_decide_unpack _). vm_compute. exact I.
Defined.

(** X7: the ids [create_session] makes from the clock sort as the clock
    runs: of two ids, the one made at the earlier second is the smaller
    string, two ids are equal only when made in the same second, and
    each begins with session_, so that the listings, which put the
    greatest id first, put the latest of these sessions first. *)
Theorem clock_ids_sort_by_time (a b : datetime) :
  in_calendar a -> in_calendar b ->
  String.ltb (session_id_at a) (session_id_at b) = earlier a b /\
  (session_id_at a = session_id_at b <-> a = b) /\
  Py.startswith (session_id_at a) "session_" = true.
Proof.
  intros Ha Hb. pose proof (session_id_compare a b Ha Hb) as Hc.
  split; [| split].
  - unfold String.ltb, earlier. rewrite Hc. symmetry.
    now apply lex_ltb_compare.
  - split; [| now intros ->].
    intros Heq. rewrite Heq, string_compare_refl in Hc. symmetry in Hc.
    apply stamps_equal in Hc; [| reflexivity].
    destruct a, b. unfold stamp in Hc. simpl in Hc. congruence.
  - unfold session_id_at, Py.startswith. simpl.
    repeat (destruct (ascii_dec _ _); [| congruence]).
    match goal with |- String.prefix "" ?x = true => now destruct x end.
Qed.

(** A session of New Year's Eve and one of the next morning. *)
Lemma clock_ids_sort_by_time_witness :
  String.ltb "session_20241231_235959" "session_20250101_000000" = true.
Proof.
  apply (proj1 (clock_ids_sort_by_time
                  {| year := 2024; month := 12; day := 31;
                     hour := 23; minute := 59; second := 59 |}
                  {| year := 2025; month := 1; day := 1;
                     hour := 0; minute := 0; second := 0 |}
                  ltac:(unfold in_calendar; simpl; lia)
                  ltac:(unfold in_calendar; simpl; lia))).
Defined.

End SessionNames.

(* ===================================================================== *)
(** * Further properties of frame_processor.py *)
(* ===================================================================== *)

Module ProcessorFiles.

Import Processor ProcessorFacts.

(** ** Rewriting the files of one session *)

Lemma session_files_update p id f name :
  session_files (update_files p id f) name
  = if decide (id = name) then f <$> session_files p id
    else session_files p name.
Proof.
  unfold session_files at 1. rewrite update_files_lookup.
  destruct (session_files p id) as [d |] eqn:E;
    destruct (decide (id = name)) as [<- | Hne]; try reflexivity.
  exact E.
Qed.

(** A rewrite that leaves a file alone leaves it alone in every session. *)
Lemma update_files_field {A} (get : SessionFiles -> option A) p id f name :
  (forall d, get (f d) = get d) ->
  session_files (update_files p id f) name ≫= get = session_files p name ≫= get.
Proof.
  intros Hf. rewrite session_files_update.
  destruct (decide (id = name)) as [<- | Hne]; [| reflexivity].
  destruct (session_files p id) as [d |]; simpl; [apply Hf | reflexivity].
Qed.

Lemma update_files_queue p id f :
  save_queue (update_files p id f) = save_queue p /\
  running (update_files p id f) = running p /\
  session_path (update_files p id f) = session_path p /\
  intrinsics_saved (update_files p id f) = intrinsics_saved p /\
  imu_file (update_files p id f) = imu_file p /\
  rgb_txt_file (update_files p id f) = rgb_txt_file p.
Proof. unfold update_files. now destruct (session_files p id). Qed.

Lemma update_files_current_session p id f :
  current_session (update_files p id f) = current_session p.
Proof. unfold update_files. now destruct (session_files p id). Qed.

(** Setting a field of the processor other than the captures leaves the
    files alone. *)
Lemma session_files_with_stats p v name :
  session_files (with_stats p v) name = session_files p name.
Proof. reflexivity. Qed.

Lemma session_files_with_save_queue p v name :
  session_files (with_save_queue p v) name = session_files p name.
Proof. reflexivity. Qed.

Lemma session_files_with_intrinsics_saved p v name :
  session_files (with_intrinsics_saved p v) name = session_files p name.
Proof. reflexivity. Qed.

Lemma update_files_is_Some p id f name :
  is_Some (session_files (update_files p id f) name)
  <-> is_Some (session_files p name).
Proof.
  rewrite session_files_update.
  destruct (decide (id = name)) as [<- | Hne]; [| reflexivity].
  now rewrite fmap_is_Some.
Qed.

(** Reads a field of the processor, or a file, through the updates made
    since. *)
Ltac look_through :=
  repeat first
    [ rewrite session_files_with_stats
    | rewrite session_files_with_save_queue
    | rewrite session_files_with_intrinsics_saved
    | rewrite update_files_is_Some
    | rewrite update_files_field by (intros []; reflexivity)
    | rewrite (proj1 (update_files_queue _ _ _))
    | rewrite (proj1 (proj2 (update_files_queue _ _ _)))
    | rewrite (proj1 (proj2 (proj2 (update_files_queue _ _ _))))
    | rewrite (proj1 (proj2 (proj2 (proj2 (update_files_queue _ _ _)))))
    | rewrite (proj1 (proj2 (proj2 (proj2 (proj2 (update_files_queue _ _ _))))))
    | rewrite (proj2 (proj2 (proj2 (proj2 (proj2 (update_files_queue _ _ _))))))
    | progress cbn [running session_path imu_file rgb_txt_file save_queue
                    intrinsics_saved
                    with_stats with_save_queue with_intrinsics_saved] ].

(** What the body of [process_frame] leaves as it was: the save thread,
    the session, the open files, the images on disk and the persisted
    statistics. *)
Lemma process_frame_body_keeps p id st pkt :
  let p' := fst (process_frame_body p id st pkt) in
  running p' = running p /\ session_path p' = session_path p /\
  imu_file p' = imu_file p /\ rgb_txt_file p' = rgb_txt_file p /\
  (forall name, is_Some (session_files p' name) <-> is_Some (session_files p name)) /\
  (forall name,
     session_files p' name ≫= rgb_files = session_files p name ≫= rgb_files) /\
  (forall name, stats_on_disk p' name = stats_on_disk p name).
Proof.
  unfold process_frame_body, stats_on_disk. cbv zeta.
  repeat inner_case; cbn [fst];
    (split; [| split; [| split; [| split; [| split; [| split]]]]]);
    intros; look_through; reflexivity.
Qed.


(** ** The save thread *)






(** ** Creating a session *)

(** The directory [create_session] leaves for the session: what was there,
    with an rgb/ directory, and with imu.csv and rgb.txt holding their
    headers only.  The other sessions are as they were. *)
Lemma create_session_files p sid now clk name :
  let id := match sid with Some id => id | None => clk end in
  captures p !! id <> Some File ->
  let d0 := default empty_dir (session_files p id) in
  let d1 := match rgb_files d0 with
            | Some _ => d0
            | None => with_rgb_files d0 (Some ∅)
            end in
  snd (create_session p sid now clk) = Some id /\
  session_files (fst (create_session p sid now clk)) name
  = if decide (id = name)
    then Some (with_rgb_txt (with_imu_csv d1 (Some [imu_header]))
                            (Some ["# timestamp filename"]))
    else session_files p name.
Proof.
  cbv zeta. unfold create_session. cbv zeta. simpl captures.
  set (id := match sid with Some id => id | None => clk end).
  intros Hfile.
  assert (session_files p id
          = match captures p !! id with Some (Dir d) => Some d | _ => None end)
    as -> by reflexivity.
  destruct (captures p !! id) as [[| d0] |] eqn:E; [congruence | |];
    (split; [reflexivity |]); simpl fst; unfold _open_files;
    simpl session_path; cbv zeta; unfold session_files at 1; simpl captures;
    rewrite update_files_lookup; unfold session_files at 1; simpl captures;
    rewrite lookup_insert_eq;
    (destruct (decide (id = name)) as [<- | Hne];
     [reflexivity | now rewrite lookup_insert_ne by exact Hne]).
Qed.

Lemma create_session_fields p sid now clk :
  let id := match sid with Some id => id | None => clk end in
  captures p !! id <> Some File ->
  let p' := fst (create_session p sid now clk) in
  stats p' = Some (new_stats id now) /\ session_path p' = Some id /\
  current_session p' = Some id /\ intrinsics_saved p' = false /\
  imu_file p' = Some id /\ rgb_txt_file p' = Some id /\
  running p' = running p /\ save_queue p' = save_queue p.
Proof.
  cbv zeta. unfold create_session. cbv zeta. simpl captures.
  set (id := match sid with Some id => id | None => clk end).
  intros Hfile.
  destruct (captures p !! id) as [[| d0] |] eqn:E; [congruence | |];
    simpl fst; unfold _open_files; simpl session_path; cbv zeta;
    cbn [stats session_path current_session intrinsics_saved imu_file
         rgb_txt_file running save_queue with_intrinsics_saved];
    look_through; rewrite ?update_files_stats, ?update_files_current_session;
    now repeat split.
Qed.

(** ** The intrinsics *)

Lemma intrinsics_update_other p id f name :
  (forall d, intrinsics_json (f d) = intrinsics_json d) ->
  intrinsics_on_disk (update_files p id f) name = intrinsics_on_disk p name.
Proof. apply update_files_field. Qed.

(** Once the intrinsics of a session are saved, the body of
    [process_frame] does not write them again. *)
Lemma process_frame_body_intrinsics_kept p id st pkt :
  intrinsics_saved p = true ->
  let p' := fst (process_frame_body p id st pkt) in
  intrinsics_saved p' = true /\
  (forall name, intrinsics_on_disk p' name = intrinsics_on_disk p name).
Proof.
  intros Hsaved. unfold process_frame_body, intrinsics_on_disk. cbv zeta.
  repeat inner_case; cbn [fst];
    try match goal with
        | H : negb _ && _ = true |- _ =>
            revert H; look_through; rewrite Hsaved; discriminate
        end;
    (split; [| intros name]); look_through; auto.
Qed.

(** The first frame that carries intrinsics and is processed to the end
    saves them. *)
Lemma process_frame_body_intrinsics_first p id st pkt :
  intrinsics_saved p = false ->
  PyJson.truthy (camera_intrinsics pkt) = true ->
  snd (process_frame_body p id st pkt) = true ->
  let p' := fst (process_frame_body p id st pkt) in
  intrinsics_saved p' = true /\
  intrinsics_on_disk p' id = Some (camera_intrinsics pkt).
Proof.
  intros Hsaved Htruthy. unfold process_frame_body, intrinsics_on_disk.
  cbv zeta.
  repeat inner_case; cbn [fst snd]; try discriminate; intros _;
    try match goal with
        | H : negb _ && _ = false |- _ =>
            revert H; look_through; rewrite Hsaved, Htruthy; discriminate
        end;
    (split; [reflexivity |]);
    rewrite session_files_with_intrinsics_saved, session_files_update;
    (destruct (decide (id = id)); [| congruence]);
    match goal with H : session_files _ id = Some _ |- _ => rewrite H end;
    reflexivity.
Qed.

(** ** The rows of imu.csv *)

Lemma imu_row_length timestamp_str imu row :
  imu_row timestamp_str imu = Some row -> length row = length imu_header.
Proof.
  unfold imu_row. destruct imu; try discriminate.
  intros H. simplify_option_eq. reflexivity.
Qed.

(** Rewriting the files of a session keeps imu.csv rectangular when the
    rewrite does. *)
Lemma rectangular_update p id f :
  imu_rectangular p ->
  (forall d rows,
     (forall rows0, imu_csv d = Some rows0 ->
                    Forall (fun row => length row = length imu_header) rows0) ->
     imu_csv (f d) = Some rows ->
     Forall (fun row => length row = length imu_header) rows) ->
  imu_rectangular (update_files p id f).
Proof.
  intros Hp Hf name rows. unfold imu_on_disk.
  rewrite session_files_update.
  destruct (decide (id = name)) as [<- | Hne]; [| apply Hp].
  destruct (session_files p id) as [d |] eqn:E; [| discriminate]. simpl.
  apply Hf. intros rows0 H0. apply (Hp id). unfold imu_on_disk.
  now rewrite E.
Qed.

Ltac rectangular :=
  repeat match goal with
         | |- imu_rectangular (with_stats ?q _) => change (imu_rectangular q)
         | |- imu_rectangular (with_save_queue ?q _) => change (imu_rectangular q)
         | |- imu_rectangular (with_intrinsics_saved ?q _) =>
             change (imu_rectangular q)
         | |- imu_rectangular (update_files _ _ (append_row _)) =>
             apply rectangular_update;
             [| let d := fresh "d" in
                let rows := fresh "rows" in
                let H := fresh "H" in
                intros d rows H [= <-]; apply Forall_app; split;
                [destruct (imu_csv d); [now apply H | constructor]
                | repeat constructor; eapply imu_row_length; eassumption]]
         | |- imu_rectangular (update_files _ _ _) =>
             apply rectangular_update;
             [| let H := fresh "H" in intros [] ? H ?; now apply H]
         end.

Lemma process_frame_body_rectangular p id st pkt :
  imu_rectangular p -> imu_rectangular (fst (process_frame_body p id st pkt)).
Proof.
  intros H. unfold process_frame_body. cbv zeta.
  repeat inner_case; cbn [fst]; rectangular; exact H.
Qed.

Lemma create_session_rectangular p sid now clk :
  imu_rectangular p -> imu_rectangular (fst (create_session p sid now clk)).
Proof.
  intros H.
  assert (captures p !! match sid with Some id => id | None => clk end
          = Some File \/
          captures p !! match sid with Some id => id | None => clk end
          <> Some File) as [Hfile | Hfile]
    by (destruct (captures p !! _) as [[| d] |]; auto; right; discriminate).
  - unfold create_session. cbv zeta. simpl captures. rewrite Hfile. exact H.
  - intros name rows. unfold imu_on_disk.
    rewrite (proj2 (create_session_files p sid now clk name Hfile)).
    destruct (decide (_ = name)) as [_ | _]; [| apply H].
    intros [= <-]. repeat constructor.
Qed.

Lemma process_frame_rectangular p pkt now clk :
  imu_rectangular p -> imu_rectangular (fst (process_frame p pkt now clk)).
Proof.
  intros H. unfold process_frame.
  destruct (session_path p) as [id |] eqn:Hsp.
  - rewrite Hsp. destruct (stats p) as [st |]; [| exact H].
    pose proof (process_frame_body_rectangular p id st pkt H).
    now destruct (process_frame_body p id st pkt).
  - pose proof (create_session_rectangular p None now clk H) as Hc.
    destruct (create_session p None now clk) as [p1 created]. simpl in Hc.
    destruct created as [id |]; simpl; [| exact Hc].
    destruct (session_path p1) as [id1 |]; [| exact Hc].
    destruct (stats p1) as [st |]; [| exact Hc].
    pose proof (process_frame_body_rectangular p1 id1 st pkt Hc).
    now destruct (process_frame_body p1 id1 st pkt).
Qed.

(** ** Ending a session *)

Lemma drain_empties fuel sched k p p' :
  drain fuel sched k p = Some p' -> save_queue p' = [].
Proof.
  revert k p. induction fuel as [| fuel IH]; intros k p; simpl;
    destruct (save_queue p) eqn:E; try discriminate; try (now intros [= <-]).
  apply IH.
Qed.

(** What [end_session] leaves when it returns from a session that is in
    place. *)
Lemma end_session_ended fuel sched p now id p' final :
  session_in_place p id -> end_session fuel sched p now = Ended p' final ->
  get_stats p now = Some final /\
  stats_on_disk p' id = Some final /\
  current_session p' = None /\ session_path p' = None /\ stats p' = None /\
  save_queue p' = [].
Proof.
  intros (Hsp & Hdir & st & Hst & Hid). unfold end_session.
  destruct (get_stats p now) as [stats0 |] eqn:Hgs; [| discriminate].
  destruct (drain fuel sched 0 p) as [p1 |] eqn:Hdr; [| discriminate].
  destruct (drain_keeps _ _ _ _ _ Hdr) as [Hk1 Hsp1].
  pose proof (drain_empties _ _ _ _ _ Hdr) as Hq1.
  cbv zeta. simpl session_path. rewrite Hsp1, Hsp.
  change (session_files (_close_files p1) id) with (session_files p1 id).
  destruct (session_files p1 id) as [d1 |] eqn:Hd1; [| discriminate].
  intros [= <- <-]. split; [reflexivity |].
  split; [| cbn; look_through; now repeat split].
  unfold stats_on_disk, session_files at 1. simpl captures.
  change (session_files (update_files (_close_files p1) id
            (fun d => with_session_stats_json d (Some stats0))) id
          ≫= session_stats_json = Some stats0).
  rewrite session_files_update. destruct (decide (id = id)); [| congruence].
  change (session_files (_close_files p1) id) with (session_files p1 id).
  now rewrite Hd1.
Qed.

(** Without a session and with nothing queued, [end_session] returns the
    empty dict at once and writes nothing. *)
Lemma end_session_idle fuel sched p now :
  stats p = None -> session_path p = None -> save_queue p = [] ->
  exists p',
    end_session fuel sched p now = Ended p' [] /\ captures p' = captures p.
Proof.
  intros Hst Hsp Hq. unfold end_session, get_stats. rewrite Hst.
  destruct fuel; simpl; rewrite Hq; simpl; rewrite Hsp; eauto.
Qed.

(** ** Frames in sequence *)

(** In a session, [process_frame] is its body. *)
Lemma process_frame_in_session p pkt now clk id st :
  session_path p = Some id -> stats p = Some st ->
  process_frame p pkt now clk
  = (fst (process_frame_body p id st pkt),
     Some (snd (process_frame_body p id st pkt))).
Proof.
  intros Hsp Hst. unfold process_frame. rewrite Hsp. simpl. rewrite Hsp, Hst.
  now destruct (process_frame_body p id st pkt).
Qed.

(** With the intrinsics saved, no further frame of the session touches
    intrinsics.json. *)
Lemma process_frames_intrinsics_kept pkts : forall p id,
  session_path p = Some id -> is_Some (stats p) -> intrinsics_saved p = true ->
  intrinsics_on_disk (process_frames p pkts) id = intrinsics_on_disk p id.
Proof.
  induction pkts as [| [[pkt now] clk] pkts IH]; intros p id Hsp [st Hst] Hsaved;
    simpl; [reflexivity |].
  rewrite (process_frame_in_session p pkt now clk id st Hsp Hst). simpl fst.
  destruct (process_frame_body_intrinsics_kept p id st pkt Hsaved) as [Hs Hd].
  destruct (process_frame_body_keeps p id st pkt) as (_ & Hsp' & _).
  destruct (process_frame_body_counts p id st pkt) as (st' & Hst' & _).
  rewrite IH; [apply Hd | congruence | by eexists | exact Hs].
Qed.

End ProcessorFiles.

Module PyDictFacts.

(** ** Lookup after assignment and after merging *)




End PyDictFacts.

Section SessionFilesCoverage.

Import Processor ProcessorFacts ProcessorFiles.



(** X9: the intrinsics are written once per session.  The first frame
    that carries intrinsics and is processed to the end saves them to
    intrinsics.json, and whatever frames follow in the session, the file
    keeps holding the intrinsics of that first frame. *)
Theorem intrinsics_are_written_once
        (p : FrameProcessor) (pkt : FramePacket) (now : float)
        (clk id : string) (pkts : list (FramePacket * float * string)) :
  session_path p = Some id -> is_Some (stats p) ->
  intrinsics_saved p = false ->
  PyJson.truthy (camera_intrinsics pkt) = true ->
  snd (process_frame p pkt now clk) = Some true ->
  intrinsics_on_disk
    (process_frames (fst (process_frame p pkt now clk)) pkts) id
  = Some (camera_intrinsics pkt).
Proof.
  intros Hsp [st Hst] Hsaved Htruthy.
  rewrite (process_frame_in_session p pkt now clk id st Hsp Hst).
  simpl. intros [= Hok].
  destruct (process_frame_body_intrinsics_first p id st pkt Hsaved Htruthy Hok)
    as [Hs Hd].
  destruct (process_frame_body_keeps p id st pkt) as (_ & Hsp' & _).
  destruct (process_frame_body_counts p id st pkt) as (st' & Hst' & _).
  rewrite process_frames_intrinsics_kept;
    [exact Hd | congruence | by eexists | exact Hs].
Qed.

(** A frame with a focal length of 1000, then one with 500. *)
Lemma intrinsics_are_written_once_witness :
  intrinsics_on_disk
    (process_frames
       (fst (process_frame (Examples.session_started "session_a")
               (Examples.frame_with 100 (JDict [("fx", JInt 1000)]))
               100.5 "session_20241222_153045"))
       [(Examples.frame_with 101 (JDict [("fx", JInt 500)]), 101.5%float,
         "session_20241222_153045")])
    "session_a"
  = Some (JDict [("fx", JInt 1000)]).
Proof.
  apply (intrinsics_are_written_once
           (Examples.session_started "session_a")
           (Examples.frame_with 100 (JDict [("fx", JInt 1000)]))
           100.5 "session_20241222_153045" "session_a").
  - reflexivity.
  - by eexists.
  - reflexivity.
  - reflexivity.
  - vm_compute. reflexivity.
Defined.



(** X11: every row of imu.csv has the eleven columns of its header.  A
    captures directory of which this is true stays so when a session is
    created and when a frame is processed, whatever the IMU sample of the
    frame looks like: a sample from which no full row can be made writes
    no row. *)
Theorem imu_rows_have_the_columns_of_the_header
        (p : FrameProcessor) (sid : option string) (now : float) (clk : string)
        (pkts : list (FramePacket * float * string)) :
  imu_rectangular p ->
  length imu_header = 11%nat /\
  imu_rectangular (fst (create_session p sid now clk)) /\
  imu_rectangular (process_frames p pkts).
Proof.
  intros H. split; [reflexivity |].
  split; [now apply create_session_rectangular |].
  revert p H. induction pkts as [| [[pkt now'] clk'] pkts IH]; intros p H;
    simpl; [exact H |].
  now apply IH, process_frame_rectangular.
Qed.

(** From an empty captures directory. *)
Lemma imu_rows_have_the_columns_of_the_header_witness :
  imu_rectangular
    (process_frames Examples.fresh
       [(Examples.frame_at 100, 100.5%float, "session_20241222_153045")]).
Proof.
  apply (imu_rows_have_the_columns_of_the_header
           Examples.fresh None 0 "" _).
  intros id rows H. vm_compute in H. discriminate.
Defined.

(** X12: what [end_session] returns is what it has written.  When it
    returns from a session that is in place, the dict it returns is the
    one [get_stats] gave at the call and the one session_stats.json of
    the session holds; the processor is left without session, statistics
    or queued images, so that [get_stats] gives the empty dict and a
    second [end_session] returns the empty dict at once and writes
    nothing. *)
Theorem ended_session_keeps_its_statistics
        (fuel : nat) (sched : nat -> nat) (p p' : FrameProcessor)
        (id : string) (now : float) (final : pydict) :
  session_in_place p id ->
  end_session fuel sched p now = Ended p' final ->
  get_stats p now = Some final /\
  stats_on_disk p' id = Some final /\
  current_session p' = None /\ session_path p' = None /\
  save_queue p' = [] /\
  (forall now', get_stats p' now' = Some []) /\
  (forall fuel' sched' now',
     exists p'', end_session fuel' sched' p' now' = Ended p'' [] /\
                 captures p'' = captures p').
Proof.
  intros Hplace Hend.
  destruct (end_session_ended fuel sched p now id p' final Hplace Hend)
    as (Hgs & Hdisk & Hcur & Hsp & Hst & Hq).
  repeat (split; [assumption |]). split.
  - intros now'. unfold get_stats. now rewrite Hst.
  - intros fuel' sched' now'. now apply end_session_idle.
Qed.

Lemma ended_session_keeps_its_statistics_witness :
  match Examples.record_session "session_a" Examples.fresh with
  | Ended p' final =>
      stats_on_disk p' "session_a" = Some final /\ get_stats p' 300 = Some []
  | _ => False
  end.
Proof.
  destruct (Examples.record_session "session_a" Examples.fresh)
    as [p' final | p' |] eqn:E;
    [| vm_compute in E; discriminate | vm_compute in E; discriminate].
  destruct (ended_session_keeps_its_statistics 0 (fun _ => 0%nat)
              (fst (create_session Examples.fresh (Some "session_a") 100
                      "session_20241222_153045"))
              p' "session_a" 200 final)
    as (_ & Hdisk & _ & _ & _ & Hgs & _).
  - apply (create_session_in_place Examples.fresh (Some "session_a") 100
             "session_20241222_153045").
    vm_compute. reflexivity.
  - exact E.
  - split; [exact Hdisk | apply Hgs].
Defined.



(** X14: with the save thread running, [end_session] returns.  When the
    thread takes at least one image per sleep, the wait ends after at most
    as many sleeps as images are queued, and the call returns with the
    queue empty. *)
Theorem end_session_returns_with_the_queue_saved
        (fuel : nat) (sched : nat -> nat) (p : FrameProcessor) (id : string)
        (now : float) :
  running p = true -> (forall i, 1 <= sched i)%nat ->
  (length (save_queue p) <= fuel)%nat ->
  session_in_place p id ->
  exists p' final,
    end_session fuel sched p now = Ended p' final /\ save_queue p' = [].
Proof.
  intros Hr Hs Hf Hplace.
  assert (exists p' final, end_session fuel sched p now = Ended p' final)
    as (p' & final & Hend).
  { destruct Hplace as (Hsp & Hdir & _). unfold end_session.
    destruct (get_stats_total p now) as [stats ->].
    destruct (drain_returns fuel sched 0 p Hr Hs Hf) as [p1 Hdr]. rewrite Hdr.
    destruct (drain_keeps _ _ _ _ _ Hdr) as [(_ & _ & Hk) Hsp1].
    cbv zeta. simpl session_path. rewrite Hsp1, Hsp.
    change (session_files (_close_files p1) id) with (session_files p1 id).
    apply Hk in Hdir as [d1 ->]. eauto. }
  exists p', final. split; [exact Hend |].
  now destruct (end_session_ended fuel sched p now id p' final Hplace Hend)
    as (_ & _ & _ & _ & _ & Hq).
Qed.

Lemma end_session_returns_with_the_queue_saved_witness :
  exists p' final,
    end_session 1 (fun _ => 1%nat)
      (Examples.feed 1 100 (start (Examples.session_started "session_a"))) 200
    = Ended p' final /\ save_queue p' = [].
Proof.
  apply (end_session_returns_with_the_queue_saved 1 (fun _ => 1%nat)
           (Examples.feed 1 100 (start (Examples.session_started "session_a")))
           "session_a" 200).
  - reflexivity.
  - intros _. lia.
  - vm_compute. lia.
  - split; [reflexivity |]. split; [vm_compute; by eexists |].
    eexists. split; [vm_compute; reflexivity | reflexivity].
Defined.

End SessionFilesCoverage.

(* ===================================================================== *)
(** * Further properties of websocket_server.py *)
(* ===================================================================== *)

Module ConnectionFacts.

Import Processor ProcessorFacts ProcessorFiles.

(** What [process_frame] leaves of the session path. *)
Lemma process_frame_session p pkt now clk :
  match process_frame p pkt now clk with
  | (p', Some _) => is_Some (session_path p')
  | (_, None) => session_path p = None
  end.
Proof.
  unfold process_frame.
  destruct (session_path p) as [id |] eqn:Hsp.
  - rewrite Hsp. destruct (stats p) as [st |]; [| by rewrite Hsp].
    destruct (process_frame_body_keeps p id st pkt) as (_ & Hk & _).
    destruct (process_frame_body p id st pkt) as [p' ok]. simpl in *.
    rewrite Hk, Hsp. by eexists.
  - pose proof (create_session_spec p None now clk) as Hc.
    destruct (create_session p None now clk) as [p1 [id |]]; simpl;
      [| reflexivity].
    destruct Hc as [Hst Hsp1]. rewrite Hsp1, Hst.
    destruct (process_frame_body_keeps p1 id (new_stats id now) pkt)
      as (_ & Hk & _).
    destruct (process_frame_body p1 id (new_stats id now) pkt) as [p' ok].
    simpl in *. rewrite Hk, Hsp1. by eexists.
Qed.

End ConnectionFacts.

Section ConnectionCoverage.

Import Processor Server ProcessorFacts ServerFacts ProcessorFiles ConnectionFacts.

(** X15: the frames of a paused client are dropped.  Between its pause
    and its resume command, whatever frames a client sends reach no
    handler of the processor: no session is created, no frame is counted
    or queued, and after the resume the server is as it was before the
    pause, the client unpaused. *)
Theorem frames_of_a_paused_client_are_dropped
        (fuel : nat) (s : PhoneSplatServer) (cid : string)
        (pause resume : Event) (sid sid' : option string)
        (frames : list Event) :
  sender pause = cid -> message pause = ControlMessage "pause" sid ->
  sender resume = cid -> message resume = ControlMessage "resume" sid' ->
  Forall (fun ev => sender ev = cid /\
                    exists packet, message ev = FrameMessage packet) frames ->
  exists s',
    run fuel (pause :: frames ++ [resume]) s = Some (s', []) /\
    processor s' = processor s /\
    client_of s' cid
    = {| is_streaming := is_streaming (client_of s cid);
         is_paused := false;
         frames_received := frames_received (client_of s cid);
         last_frame_time := last_frame_time (client_of s cid) |} /\
    (forall other, other <> cid -> clients s' !! other = clients s !! other).
Proof.
  intros Hp Mp Hr Mr Hframes.
  set (c := client_of s cid).
  set (s1 := with_client s cid
               {| is_streaming := is_streaming c; is_paused := true;
                  frames_received := frames_received c;
                  last_frame_time := last_frame_time c |}).
  assert (run fuel (frames ++ [resume]) s1
          = Some (with_client s1 cid
                    {| is_streaming := is_streaming c; is_paused := false;
                       frames_received := frames_received c;
                       last_frame_time := last_frame_time c |}, [])) as Hrun.
  { induction Hframes as [| ev frames [Hs (packet & Hm)] _ IH]; simpl.
    - unfold _process_message. rewrite Mr. unfold _handle_control. simpl.
      rewrite Hr. unfold client_of, s1. simpl. rewrite lookup_insert_eq.
      reflexivity.
    - unfold _process_message at 1. rewrite Hm. unfold _handle_frame.
      rewrite Hs. unfold client_of at 1, s1 at 1. simpl clients.
      rewrite lookup_insert_eq. simpl. now rewrite IH. }
  eexists. split.
  - simpl. unfold _process_message at 1. rewrite Mp. unfold _handle_control.
    simpl. rewrite Hp. fold c. fold s1. rewrite Hrun. reflexivity.
  - split; [reflexivity |]. split.
    + unfold client_of at 1. simpl. now rewrite lookup_insert_eq.
    + intros other Hne. simpl. now rewrite !lookup_insert_ne by congruence.
Qed.

(** A frame sent while paused. *)
Lemma frames_of_a_paused_client_are_dropped_witness :
  exists s',
    run 0 [Examples.sends (ControlMessage "pause" None);
           Examples.sends (FrameMessage (Some (Examples.frame_at 100)));
           Examples.sends (ControlMessage "resume" None)]
        Examples.idle_server = Some (s', []) /\
    processor s' = Examples.fresh.
Proof.
  destruct (frames_of_a_paused_client_are_dropped 0 Examples.idle_server
              "client_1"
              (Examples.sends (ControlMessage "pause" None))
              (Examples.sends (ControlMessage "resume" None)) None None
              [Examples.sends (FrameMessage (Some (Examples.frame_at 100)))])
    as (s' & Hrun & Hproc & _); try reflexivity.
  - repeat constructor. by eexists.
  - exists s'. split; [exact Hrun | exact Hproc].
Defined.

(** X16: no frame is lost for lack of a session.  A frame that arrives
    from a client that is not paused and can be parsed is handed to
    [process_frame]; the call finds or makes a session, the processor has
    one afterwards, and the frame is counted for the client whether the
    call returned [True] or [False].  Only when no session directory can
    be made does the frame go unprocessed. *)
Theorem every_frame_finds_a_session
        (s : PhoneSplatServer) (ev : Event) (pkt : FramePacket) :
  is_paused (client_of s (sender ev)) = false ->
  let s' := fst (_handle_frame s ev (Some pkt)) in
  let log := snd (_handle_frame s ev (Some pkt)) in
  (exists ok,
     last log = Some (ProcessFrame ok) /\
     is_Some (session_path (processor s')) /\
     frames_received (client_of s' (sender ev))
     = S (frames_received (client_of s (sender ev)))) \/
  last log = Some (CreateSession false).
Proof.
  intros Hpaused. cbv zeta. unfold _handle_frame. rewrite Hpaused.
  set (cid := sender ev). set (c := client_of s cid).
  destruct (is_streaming c) eqn:Hstr; cbn [negb].
  - cbv iota beta.
    pose proof (process_frame_session (processor s) pkt (now ev) (clock_id ev))
      as Hsess.
    destruct (process_frame (processor s) pkt (now ev) (clock_id ev))
      as [p' [ok |]]; simpl.
    + left. exists ok. rewrite last_snoc.
      split; [reflexivity |]. split; [exact Hsess |].
      unfold client_of at 1. simpl. now rewrite lookup_insert_eq.
    + right. reflexivity.
  - destruct (no_session (processor (with_client s cid _))) eqn:Hno.
    + pose proof (create_session_spec (processor s) None (now ev) (clock_id ev))
        as Hc.
      simpl processor.
      destruct (create_session (processor s) None (now ev) (clock_id ev))
        as [p1 [id |]]; simpl; [| right; reflexivity].
      pose proof (process_frame_session p1 pkt (now ev) (clock_id ev)) as Hsess.
      destruct Hc as [_ Hsp1].
      destruct (process_frame p1 pkt (now ev) (clock_id ev)) as [p' [ok |]];
        simpl.
      * left. exists ok. rewrite ?app_comm_cons, ?app_assoc, last_snoc.
        split; [reflexivity |]. split; [exact Hsess |].
        unfold client_of at 1. simpl. now rewrite lookup_insert_eq.
      * rewrite Hsp1 in Hsess. discriminate.
    + simpl processor.
      pose proof (process_frame_session (processor s) pkt (now ev) (clock_id ev))
        as Hsess.
      destruct (process_frame (processor s) pkt (now ev) (clock_id ev))
        as [p' [ok |]]; simpl.
      * left. exists ok. rewrite last_snoc.
        split; [reflexivity |]. split; [exact Hsess |].
        unfold client_of at 1. simpl. now rewrite lookup_insert_eq.
      * right. reflexivity.
Qed.

(** The first frame of a client, with no session yet. *)
Lemma every_frame_finds_a_session_witness :
  last (snd (_handle_frame Examples.idle_server
               (Examples.sends (FrameMessage (Some (Examples.frame_at 100))))
               (Some (Examples.frame_at 100))))
  = Some (ProcessFrame true).
Proof.
  destruct (every_frame_finds_a_session Examples.idle_server
              (Examples.sends (FrameMessage (Some (Examples.frame_at 100))))
              (Examples.frame_at 100) eq_refl)
    as [(ok & Hlast & _) | Hlast]; rewrite Hlast.
  - vm_compute in Hlast. now injection Hlast as <-.
  - vm_compute in Hlast. discriminate.
Defined.

End ConnectionCoverage.

(* ===================================================================== *)
(** * From the test client to the server: frame packets *)
(* ===================================================================== *)

Module Base64Facts.

Import Base64.

(** ** Checking a property of bytes by running through them *)

Lemma all_below (n : nat) (P : Z -> bool) :
  forallb P (map Z.of_nat (seq 0 n)) = true ->
  forall a, 0 <= a < Z.of_nat n -> P a = true.
Proof.
  intros H a Ha. rewrite forallb_forall in H. apply H.
  apply in_map_iff. exists (Z.to_nat a). split; [lia |]. apply in_seq. lia.
Qed.

Lemma all_pairs_below (n m : nat) (P : Z -> Z -> bool) :
  forallb (fun a => forallb (P a) (map Z.of_nat (seq 0 m)))
          (map Z.of_nat (seq 0 n)) = true ->
  forall a b, 0 <= a < Z.of_nat n -> 0 <= b < Z.of_nat m -> P a b = true.
Proof.
  intros H a b Ha Hb.
  apply (all_below m (P a)); [| exact Hb].
  now apply (all_below n (fun a => forallb (P a) (map Z.of_nat (seq 0 m)))).
Qed.

(** ** The alphabet *)

Lemma a2b_b2a s :
  0 <= s < 64 ->
  a2b (b2a s) = Some s /\ Ascii.eqb (b2a s) pad = false /\
  is_ascii (b2a s) = true.
Proof.
  intros Hs.
  pose proof (all_below 64
                (fun s => match a2b (b2a s) with
                          | Some v => v =? s
                          | None => false
                          end
                          && negb (Ascii.eqb (b2a s) pad)
                          && is_ascii (b2a s))
                ltac:(vm_compute; reflexivity) s Hs) as H.
  apply andb_true_iff in H as [H H3]. apply andb_true_iff in H as [H1 H2].
  apply negb_true_iff in H2.
  destruct (a2b (b2a s)) as [v |]; [| discriminate].
  apply Z.eqb_eq in H1. subst v. auto.
Qed.

(** ** The sextets of one, two and three bytes *)

Lemma first_byte a b :
  0 <= a < 256 -> 0 <= b < 256 ->
  let s1 := Z.shiftr a 2 in
  let s2 := Z.lor (Z.shiftl (Z.land a 3) 4) (Z.shiftr b 4) in
  0 <= s1 < 64 /\ 0 <= s2 < 64 /\
  Z.land (Z.lor (Z.shiftl s1 2) (Z.shiftr s2 4)) 255 = a /\
  Z.land s2 15 = Z.shiftr b 4.
Proof.
  intros Ha Hb.
  pose proof (all_pairs_below 256 256
                (fun a b =>
                   let s1 := Z.shiftr a 2 in
                   let s2 := Z.lor (Z.shiftl (Z.land a 3) 4) (Z.shiftr b 4) in
                   (0 <=? s1) && (s1 <? 64) && (0 <=? s2) && (s2 <? 64)
                   && (Z.land (Z.lor (Z.shiftl s1 2) (Z.shiftr s2 4)) 255 =? a)
                   && (Z.land s2 15 =? Z.shiftr b 4))
                ltac:(vm_compute; reflexivity) a b Ha Hb) as H.
  cbv zeta in *. repeat (apply andb_true_iff in H as [H ?]). lia.
Qed.

Lemma second_byte b c :
  0 <= b < 256 -> 0 <= c < 256 ->
  let s3 := Z.lor (Z.shiftl (Z.land b 15) 2) (Z.shiftr c 6) in
  0 <= s3 < 64 /\
  Z.land (Z.lor (Z.shiftl (Z.shiftr b 4) 4) (Z.shiftr s3 2)) 255 = b /\
  Z.land s3 3 = Z.shiftr c 6.
Proof.
  intros Hb Hc.
  pose proof (all_pairs_below 256 256
                (fun b c =>
                   let s3 := Z.lor (Z.shiftl (Z.land b 15) 2) (Z.shiftr c 6) in
                   (0 <=? s3) && (s3 <? 64)
                   && (Z.land (Z.lor (Z.shiftl (Z.shiftr b 4) 4) (Z.shiftr s3 2))
                              255 =? b)
                   && (Z.land s3 3 =? Z.shiftr c 6))
                ltac:(vm_compute; reflexivity) b c Hb Hc) as H.
  cbv zeta in *. repeat (apply andb_true_iff in H as [H ?]). lia.
Qed.

Lemma third_byte c :
  0 <= c < 256 ->
  0 <= Z.land c 63 < 64 /\
  Z.land (Z.lor (Z.shiftl (Z.shiftr c 6) 6) (Z.land c 63)) 255 = c.
Proof.
  intros Hc.
  pose proof (all_below 256
                (fun c =>
                   (0 <=? Z.land c 63) && (Z.land c 63 <? 64)
                   && (Z.land (Z.lor (Z.shiftl (Z.shiftr c 6) 6) (Z.land c 63))
                              255 =? c))
                ltac:(vm_compute; reflexivity) c Hc) as H.
  repeat (apply andb_true_iff in H as [H ?]). lia.
Qed.

(** The last characters of an input of one or of two bytes more than a
    multiple of three. *)
Lemma last_of_one a :
  0 <= a < 256 ->
  let s2 := Z.shiftl (Z.land a 3) 4 in
  0 <= s2 < 64 /\
  Z.land (Z.lor (Z.shiftl (Z.shiftr a 2) 2) (Z.shiftr s2 4)) 255 = a.
Proof.
  intros Ha.
  pose proof (all_below 256
                (fun a =>
                   let s2 := Z.shiftl (Z.land a 3) 4 in
                   (0 <=? s2) && (s2 <? 64)
                   && (Z.land (Z.lor (Z.shiftl (Z.shiftr a 2) 2) (Z.shiftr s2 4))
                              255 =? a))
                ltac:(vm_compute; reflexivity) a Ha) as H.
  cbv zeta in *. repeat (apply andb_true_iff in H as [H ?]). lia.
Qed.

Lemma last_of_two b :
  0 <= b < 256 ->
  let s3 := Z.shiftl (Z.land b 15) 2 in
  0 <= s3 < 64 /\
  Z.land (Z.lor (Z.shiftl (Z.shiftr b 4) 4) (Z.shiftr s3 2)) 255 = b.
Proof.
  intros Hb.
  pose proof (all_below 256
                (fun b =>
                   let s3 := Z.shiftl (Z.land b 15) 2 in
                   (0 <=? s3) && (s3 <? 64)
                   && (Z.land (Z.lor (Z.shiftl (Z.shiftr b 4) 4) (Z.shiftr s3 2))
                              255 =? b))
                ltac:(vm_compute; reflexivity) b Hb) as H.
  cbv zeta in *. repeat (apply andb_true_iff in H as [H ?]). lia.
Qed.

(** ** Decoding what was encoded *)

(** A character of the alphabet moves the decoder on by one position. *)
Lemma decode_loop_sextet s rest quad_pos leftchar pads out :
  0 <= s < 64 ->
  decode_loop (b2a s :: rest) quad_pos leftchar pads out
  = match quad_pos with
    | 0%nat => decode_loop rest 1 s 0 out
    | 1%nat =>
        decode_loop rest 2 (Z.land s 15) 0
          (out ++ [Z.land (Z.lor (Z.shiftl leftchar 2) (Z.shiftr s 4)) 255])
    | 2%nat =>
        decode_loop rest 3 (Z.land s 3) 0
          (out ++ [Z.land (Z.lor (Z.shiftl leftchar 4) (Z.shiftr s 2)) 255])
    | _ =>
        decode_loop rest 0 0 0
          (out ++ [Z.land (Z.lor (Z.shiftl leftchar 6) s) 255])
    end.
Proof.
  intros Hs. destruct (a2b_b2a s Hs) as (Ha & Hp & _).
  simpl. now rewrite Hp, Ha.
Qed.

Lemma decode_encode_from (n : nat) : forall l out,
  (length l <= n)%nat -> Forall (fun z => 0 <= z < 256) l ->
  decode_loop (encode l) 0 0 0 out = Some (out ++ l) /\
  forallb is_ascii (encode l) = true.
Proof.
  induction n as [| n IH]; intros l out Hlen Hall.
  { destruct l; [| simpl in Hlen; lia]. simpl. now rewrite app_nil_r. }
  destruct l as [| a [| b [| c rest]]].
  - simpl. now rewrite app_nil_r.
  - apply Forall_cons in Hall as [Ha _].
    destruct (first_byte a 0 Ha ltac:(lia)) as (H1 & _ & _ & _).
    destruct (last_of_one a Ha) as (H2 & Hd).
    unfold encode.
    rewrite (decode_loop_sextet _ _ _ _ _ _ H1).
    rewrite (decode_loop_sextet _ _ _ _ _ _ H2).
    rewrite Hd. simpl.
    destruct (a2b_b2a _ H1) as (_ & _ & ->).
    destruct (a2b_b2a _ H2) as (_ & _ & ->). now split.
  - apply Forall_cons in Hall as [Ha Hall].
    apply Forall_cons in Hall as [Hb _].
    destruct (first_byte a b Ha Hb) as (H1 & H2 & Hd1 & Hl).
    destruct (last_of_two b Hb) as (H3 & Hd2).
    unfold encode.
    rewrite (decode_loop_sextet _ _ _ _ _ _ H1).
    rewrite (decode_loop_sextet _ _ _ _ _ _ H2).
    rewrite (decode_loop_sextet _ _ _ _ _ _ H3).
    rewrite Hd1, Hl, Hd2. simpl. rewrite <- app_assoc. simpl.
    destruct (a2b_b2a _ H1) as (_ & _ & ->).
    destruct (a2b_b2a _ H2) as (_ & _ & ->).
    destruct (a2b_b2a _ H3) as (_ & _ & ->). now split.
  - apply Forall_cons in Hall as [Ha Hall].
    apply Forall_cons in Hall as [Hb Hall].
    apply Forall_cons in Hall as [Hc Hall].
    destruct (first_byte a b Ha Hb) as (H1 & H2 & Hd1 & Hl1).
    destruct (second_byte b c Hb Hc) as (H3 & Hd2 & Hl2).
    destruct (third_byte c Hc) as (H4 & Hd3).
    change (encode (a :: b :: c :: rest))
      with (b2a (Z.shiftr a 2)
            :: b2a (Z.lor (Z.shiftl (Z.land a 3) 4) (Z.shiftr b 4))
            :: b2a (Z.lor (Z.shiftl (Z.land b 15) 2) (Z.shiftr c 6))
            :: b2a (Z.land c 63)
            :: encode rest).
    rewrite (decode_loop_sextet _ _ _ _ _ _ H1).
    rewrite (decode_loop_sextet _ _ _ _ _ _ H2).
    rewrite (decode_loop_sextet _ _ _ _ _ _ H3).
    rewrite (decode_loop_sextet _ _ _ _ _ _ H4).
    rewrite Hd1, Hl1, Hd2, Hl2, Hd3.
    destruct (IH rest (((out ++ [a]) ++ [b]) ++ [c])) as [IH1 IH2];
      [simpl in Hlen; lia | exact Hall |].
    rewrite IH1. split.
    + f_equal. rewrite <- !app_assoc. reflexivity.
    + cbn [forallb].
      destruct (a2b_b2a _ H1) as (_ & _ & ->).
      destruct (a2b_b2a _ H2) as (_ & _ & ->).
      destruct (a2b_b2a _ H3) as (_ & _ & ->).
      destruct (a2b_b2a _ H4) as (_ & _ & ->). exact IH2.
Qed.

Lemma byte_of_Z_of_byte b : byte_of_Z (Z_of_byte b) = b.
Proof. now destruct b. Qed.

Lemma Z_of_byte_range b : 0 <= Z_of_byte b < 256.
Proof. destruct b; vm_compute; split; congruence. Qed.

(** [base64.b64decode] undoes [base64.b64encode]. *)
Lemma b64decode_b64encode data : b64decode (JStr (b64encode data)) = Some data.
Proof.
  unfold b64decode, b64encode.
  rewrite list_ascii_of_string_of_list_ascii.
  destruct (decode_encode_from (length (map Z_of_byte data))
              (map Z_of_byte data) []) as [Hd Ha].
  - reflexivity.
  - apply Forall_map, Forall_forall. intros b _. apply Z_of_byte_range.
  - rewrite Ha, Hd. simpl. f_equal.
    rewrite map_map. rewrite <- (map_id data) at 2.
    apply map_ext. intros b. apply byte_of_Z_of_byte.
Qed.

End Base64Facts.

Section PacketCoverage.

Import Processor Validate.

(** X17: a frame of the test client arrives as it was sent.  From the
    packet the test client builds for a frame, [parse_frame_packet] gets
    back the very bytes of the image, whatever they are and however many,
    together with the timestamp, the IMU sample and the intrinsics of the
    client; decoding never fails on it. *)
Theorem client_packet_parses_back
        (t received : float) (data : list Byte.byte) (sample intr : json) :
  Wire.parse_frame_packet (Wire.client_packet t data sample intr) received
  = Some {| timestamp := JFloat t;
            frame_data := data;
            imu := sample;
            camera_intrinsics := intr;
            received_at := received |}.
Proof.
  unfold Wire.parse_frame_packet, Wire.client_packet.
  cbn [PyJson.get String.eqb Ascii.eqb Bool.eqb].
  now rewrite Base64Facts.b64decode_b64encode.
Qed.

(** X18: the intrinsics of the test client fit frames of the size they
    were generated for.  On an intrinsics.json that holds what
    [generate_camera_intrinsics(w, h)] returns, the intrinsics check
    records no missing field and no error; it warns, once and at 10
    points, exactly when an image was measured and its size is not
    [w] x [h]. *)
Theorem client_intrinsics_fit_their_frames
        (s : SessionDir) (r : ValidationResult) (w h : Z) (intr : json) :
  Wire.generate_camera_intrinsics w h = Some intr ->
  intrinsics_json s = Some (Some intr) ->
  let r' := check_intrinsics s r in
  has_intrinsics r' = true /\
  errors r' = errors r /\
  if (0 <? width r) && negb ((width r =? w) && (height r =? h))
  then warnings r' = warnings r ++ [IntrinsicsMismatch (JInt w) (JInt h)] /\
       quality_score r' = Z.max 0 (quality_score r - 10)
  else warnings r' = warnings r /\ quality_score r' = quality_score r.
Proof.
  unfold Wire.generate_camera_intrinsics. intros Hg Hi.
  destruct (Wire.half w) as [cx |]; [| discriminate].
  destruct (Wire.half h) as [cy |]; [| discriminate].
  injection Hg as <-.
  cbv zeta. unfold check_intrinsics. rewrite Hi.
  destruct r as [id v q fc d af mn mx wd ht rc ir sy off hi it es ws inf].
  cbn -[Z.max].
  destruct (0 <? wd) eqn:Hw; cbn -[Z.max]; [| easy].
  rewrite (Z.eqb_sym w wd), (Z.eqb_sym h ht).
  destruct (wd =? w), (ht =? h); cbn -[Z.max]; easy.
Qed.

(** Frames of 720 x 1280 next to the intrinsics for that size. *)
Lemma client_intrinsics_fit_their_frames_witness :
  let r := set_size (new_result "session_20241222_153045") (720, 1280) in
  warnings (check_intrinsics Examples.client_session r) = warnings r /\
  quality_score (check_intrinsics Examples.client_session r) = 100.
Proof.
  cbv zeta.
  destruct (client_intrinsics_fit_their_frames Examples.client_session
              (set_size (new_result "session_20241222_153045") (720, 1280))
              720 1280 _ eq_refl eq_refl)
    as (_ & _ & H).
  exact H.
Defined.

End PacketCoverage.

(* ===================================================================== *)
(** * Properties of monogs_bridge.py *)
(* ===================================================================== *)

Module BridgeFacts.

Import Config Validate ValidateInvariants Bridge.

(** ** What a valid session holds *)

(** A session that passes validation exists and has at least MIN_FRAMES
    frame files. *)
Lemma valid_session_frames s :
  is_valid (validate_session s) = true ->
  present s = true /\
  exists entries, rgb s = Some entries /\
                  (MIN_FRAMES <= length (glob_jpg entries))%nat.
Proof.
  unfold validate_session.
  destruct (present s); cbn [negb]; [| now rewrite invalid_add_error].
  destruct (rgb s) as [entries |]; [| now rewrite invalid_add_error].
  cbv zeta.
  set (frames := Py.sorted (glob_jpg entries)).
  assert (length frames = length (glob_jpg entries)) as Hlen
    by (subst frames; apply Permutation_length, PyFacts.sorted_perm).
  destruct (ValidateFacts.set_frame_count_fresh (name s) (length frames))
    as (F0 & _).
  set (r0 := set_frame_count (new_result (name s)) (length frames)) in *.
  clearbody r0. rewrite F0. unfold MIN_FRAMES.
  destruct (length frames =? 0)%nat; [now rewrite invalid_add_error |].
  destruct (length frames <? 30)%nat eqn:Hmin.
  - intros Hv. exfalso.
    destruct (length (parse_timestamps frames) <? 2)%nat.
    + now rewrite invalid_add_error in Hv.
    + rewrite validate_timed_stays_invalid in Hv; [discriminate |].
      apply invalid_add_error.
  - intros _. apply Nat.ltb_ge in Hmin. split; [reflexivity |].
    exists entries. split; [reflexivity | lia].
Qed.


(** ** The required files *)

Lemma required_files_checked s r :
  fold_left
    (fun result fname =>
       if negb (exists_ s fname)
       then add_error result [MissingRequiredFile fname]
       else result)
    required_files r
  = add_error
      (add_error r (if exists_ s "rgb.txt" then []
                    else [MissingRequiredFile "rgb.txt"]))
      (if exists_ s "intrinsics.json" then []
       else [MissingRequiredFile "intrinsics.json"]).
Proof.
  unfold required_files, add_error. simpl.
  destruct (exists_ s "rgb.txt"), (exists_ s "intrinsics.json"); simpl;
    rewrite ?app_nil_r; try reflexivity; destruct r; reflexivity.
Qed.

Lemma exists_rgb_txt s :
  exists_ s "rgb.txt" = bool_decide (is_Some (file s rgb_txt)).
Proof. reflexivity. Qed.

Lemma exists_intrinsics_json s :
  exists_ s "intrinsics.json" = bool_decide (is_Some (file s intrinsics_json)).
Proof. reflexivity. Qed.

(** The config can only be generated from an intrinsics.json that holds an
    object. *)
Lemma generate_monogs_config_object t s out res :
  generate_monogs_config t s out = Some res ->
  exists d, file s intrinsics_json = Some (Some (JDict d)).
Proof.
  unfold generate_monogs_config.
  destruct (file s intrinsics_json) as [[j |] |]; try discriminate.
  destruct j; try discriminate. intros _. by eexists.
Qed.

(** What [prepare_files] makes of a result that has no error, no config
    path and no success yet. *)
Lemma prepare_files_spec t s r0 r w :
  errors r0 = [] -> success r0 = false -> config_path r0 = None ->
  prepare_files t s r0 = Prepared r w ->
  session r = session r0 /\
  (success r = true <-> errors r = []) /\
  (success r = true <-> is_Some (config_path r)) /\
  (success r = false -> w = nothing /\ warnings r = warnings r0) /\
  (success r = true ->
   is_Some (file s rgb_txt) /\
   generate_monogs_config t s None = config w /\
   config_path r = fst <$> config w /\
   associations_txt w = create_associations_file t s /\
   output_dir w = true /\
   warnings r = warnings r0 ++ match create_associations_file t s with
                               | Some _ => []
                               | None => [AssociationsFailed]
                               end).
Proof.
  intros He Hs Hc. unfold prepare_files. rewrite required_files_checked.
  rewrite exists_rgb_txt, exists_intrinsics_json.
  destruct r0 as [n su cp es ws]. simpl in He, Hs, Hc. subst es su cp.
  unfold add_error. cbn [errors warnings session success config_path app].
  destruct (bool_decide (is_Some (file s rgb_txt))) eqn:Hrgb.
  2: { destruct (bool_decide _); intros [= <- <-]; simpl;
       (split; [reflexivity |]); (split; [easy |]);
       (split; [split; [easy | by intros [? [=]]] |]); easy. }
  apply bool_decide_eq_true in Hrgb.
  destruct (bool_decide (is_Some (file s intrinsics_json))).
  2: { intros [= <- <-]; simpl.
       (split; [reflexivity |]); (split; [easy |]);
       (split; [split; [easy | by intros [? [=]]] |]); easy. }
  cbn [app].
  destruct (generate_monogs_config t s None) as [[config_file cfg] |].
  2: { intros [= <- <-]; simpl.
       (split; [reflexivity |]); (split; [easy |]);
       (split; [split; [easy | by intros [? [=]]] |]); easy. }
  destruct (mkdir_ok t); [| discriminate].
  destruct (create_associations_file t s) as [lines |];
    intros [= <- <-]; simpl; rewrite ?app_nil_r;
    (split; [reflexivity |]); (split; [easy |]);
    (split; [split; [by eexists | easy] |]); easy.
Qed.

End BridgeFacts.

Module LineFacts.

Import Py.

(** ** Strings and their characters *)

Lemma list_ascii_append a b :
  list_ascii_of_string (a +:+ b)
  = list_ascii_of_string a ++ list_ascii_of_string b.
Proof. induction a as [| c a IH]; simpl; [reflexivity | now rewrite IH]. Qed.

Lemma string_of_app a b :
  string_of_list_ascii (a ++ b)
  = string_of_list_ascii a +:+ string_of_list_ascii b.
Proof. induction a as [| c a IH]; simpl; [reflexivity | now rewrite IH]. Qed.

Lemma no_space_app a b : no_space (a ++ b) = no_space a && no_space b.
Proof. apply forallb_app. Qed.

(** ** The text of a number has no white space *)

Lemma digit_no_space c : is_digit c = true -> is_space c = false.
Proof. destruct c as [[] [] [] [] [] [] [] []]; vm_compute; congruence. Qed.

Lemma digit_no_hash c : is_digit c = true -> c <> "#"%char.
Proof. destruct c as [[] [] [] [] [] [] [] []]; vm_compute; congruence. Qed.

Lemma uint_digits d :
  forallb is_digit (list_ascii_of_string (NilEmpty.string_of_uint d)) = true.
Proof. induction d; simpl; try reflexivity; exact IHd. Qed.

(** [decimal z] is a digit followed by digits. *)
Lemma decimal_digits z :
  exists c rest,
    list_ascii_of_string (decimal z) = c :: rest /\
    is_digit c = true /\ forallb is_digit rest = true.
Proof.
  unfold decimal, NilZero.string_of_uint.
  pose proof (uint_digits (N.to_uint (Z.to_N z))) as H.
  destruct (N.to_uint (Z.to_N z)); simpl in *;
    eexists _, _; (split; [reflexivity |]); split; (reflexivity || exact H).
Qed.

Lemma digits_no_space l : forallb is_digit l = true -> no_space l = true.
Proof.
  intros H. apply forallb_forall. intros c Hc.
  rewrite forallb_forall in H. now rewrite digit_no_space by auto.
Qed.

Lemma repeat_zero_no_space n : no_space (repeat "0"%char n) = true.
Proof. induction n; simpl; [reflexivity | exact IHn]. Qed.

(** The text [fixed_point] writes starts with a sign or a digit and holds
    no white space. *)
Lemma fixed_point_word d neg n :
  exists c rest,
    list_ascii_of_string (fixed_point d neg n) = c :: rest /\
    is_space c = false /\ c <> "#"%char /\ no_space rest = true.
Proof.
  unfold fixed_point, zero_pad. rewrite !list_ascii_append.
  rewrite list_ascii_of_string_of_list_ascii.
  destruct (decimal_digits (n / 10 ^ Z.of_nat d)) as (c & q & -> & Hc & Hq).
  destruct (decimal_digits (n mod 10 ^ Z.of_nat d)) as (c' & r & -> & Hc' & Hr).
  assert (no_space (q ++ list_ascii_of_string "."
                      ++ repeat "0"%char (d - String.length
                           (decimal (n mod 10 ^ Z.of_nat d)))
                      ++ c' :: r) = true) as Htail.
  { rewrite !no_space_app, digits_no_space, repeat_zero_no_space by exact Hq.
    simpl. now rewrite digit_no_space, (digits_no_space r) by assumption. }
  destruct neg; simpl.
  - eexists _, _. split; [reflexivity |]. split; [reflexivity |].
    split; [discriminate |].
    simpl. rewrite digit_no_space by exact Hc. exact Htail.
  - eexists _, _. split; [reflexivity |].
    split; [now apply digit_no_space |].
    split; [now apply digit_no_hash | exact Htail].
Qed.

(** So does [f"{x:.6f}"] for every float. *)
Lemma format_6f_word x :
  exists c rest,
    list_ascii_of_string (format_6f x) = c :: rest /\
    is_space c = false /\ c <> "#"%char /\ no_space rest = true.
Proof.
  unfold format_6f.
  destruct (Prim2SF x) as [s | s | | s m e]; try apply fixed_point_word.
  - destruct s; eexists _, _; (split; [reflexivity |]);
      (split; [reflexivity |]); (split; [discriminate | reflexivity]).
  - eexists _, _; (split; [reflexivity |]);
      (split; [reflexivity |]); (split; [discriminate | reflexivity]).
Qed.

(** ** Splitting and stripping *)

Lemma split_from_word l : forall word rest,
  no_space l = true ->
  split_from word (l ++ rest) = split_from (word ++ l) rest.
Proof.
  induction l as [| c l IH]; intros word rest H; simpl.
  - now rewrite app_nil_r.
  - simpl in H. apply andb_true_iff in H as [Hc Hl].
    apply negb_true_iff in Hc. rewrite Hc, IH by exact Hl.
    now rewrite <- app_assoc.
Qed.

(** Two words with a space between them split into the two. *)
Lemma split_two a b :
  a <> [] -> b <> [] -> no_space a = true -> no_space b = true ->
  split_from [] (a ++ " "%char :: b)
  = [string_of_list_ascii a; string_of_list_ascii b].
Proof.
  intros Ha Hb Hsa Hsb.
  rewrite split_from_word by exact Hsa. simpl.
  destruct a as [| c a]; [contradiction |]. cbn [app].
  rewrite <- (app_nil_r b) at 1. rewrite split_from_word by exact Hsb.
  simpl. destruct b; [contradiction | reflexivity].
Qed.

Lemma lstrip_solid c l : is_space c = false -> lstrip (c :: l) = c :: l.
Proof. intros H. simpl. now rewrite H. Qed.

(** A line that starts and ends on other than white space is its own
    [strip]. *)
Lemma strip_solid c l d :
  is_space c = false -> is_space d = false ->
  strip (c :: l ++ [d]) = c :: l ++ [d].
Proof.
  intros Hc Hd. unfold strip. rewrite lstrip_solid by exact Hc.
  change (c :: l ++ [d]) with ((c :: l) ++ [d]). rewrite rev_unit.
  rewrite lstrip_solid by exact Hd.
  change (d :: rev (c :: l)) with ([d] ++ rev (c :: l)).
  now rewrite rev_app_distr, rev_involutive.
Qed.

End LineFacts.

Module AssociationFacts.

Import Py Validate Processor Bridge LineFacts.

(** ** The lines the recorder writes to rgb.txt *)

(** A line of the recorder: the timestamp, a space, and the path of the
    image, neither with white space in it. *)
Lemma tum_line_words t :
  exists c a b,
    list_ascii_of_string (Py.format_6f t) = c :: a /\
    is_space c = false /\ c <> "#"%char /\ no_space a = true /\
    no_space b = true /\
    list_ascii_of_string (tum_line t) = (c :: a) ++ " "%char :: b ++ ["g"%char] /\
    string_of_list_ascii (b ++ ["g"%char]) = "rgb/" +:+ Py.format_6f t +:+ ".jpg".
Proof.
  destruct (format_6f_word t) as (c & a & Hl & Hc & Hh & Ha).
  exists c, a, (list_ascii_of_string "rgb/" ++ (c :: a) ++ list_ascii_of_string ".jp").
  split; [exact Hl |]. split; [exact Hc |]. split; [exact Hh |].
  split; [exact Ha |]. split.
  { rewrite !no_space_app. simpl. now rewrite Hc, Ha. }
  split.
  - unfold tum_line. cbv zeta. rewrite !list_ascii_append, Hl. simpl.
    rewrite <- !app_assoc. reflexivity.
  - rewrite <- Hl, <- !app_assoc, !string_of_app.
    rewrite !string_of_list_ascii_of_string. reflexivity.
Qed.

Lemma tum_line_is_entry t : is_entry (tum_line t) = true.
Proof.
  destruct (tum_line_words t) as (c & a & b & _ & Hc & Hh & _ & _ & Hl & _).
  unfold is_entry. rewrite Hl. cbn [app].
  change (c :: a ++ " "%char :: b ++ ["g"%char])
    with (c :: (a ++ " "%char :: b ++ ["g"%char])).
  replace (a ++ " "%char :: b ++ ["g"%char])
    with ((a ++ " "%char :: b) ++ ["g"%char])
    by (rewrite <- app_assoc; reflexivity).
  rewrite strip_solid by (exact Hc || reflexivity).
  unfold startswith.
  assert (exists r, tum_line t = String c r) as [r ->].
  { destruct (tum_line t) as [| c' r]; [discriminate |].
    simpl in Hl. injection Hl as -> _. by eexists. }
  change (String.prefix "#" (String c r))
    with (if ascii_dec "#" c then String.prefix "" r else false).
  cbn [app]. destruct (ascii_dec "#" c) as [<- | _]; [contradiction | reflexivity].
Qed.

Lemma tum_line_association t :
  association (strip_string (tum_line t)) = Some (tum_line t).
Proof.
  destruct (tum_line_words t) as (c & a & b & Hf & Hc & _ & Ha & Hb & Hl & Hs).
  unfold association, split, strip_string.
  rewrite list_ascii_of_string_of_list_ascii, Hl.
  replace ((c :: a) ++ " "%char :: b ++ ["g"%char])
    with (c :: (a ++ " "%char :: b) ++ ["g"%char])
    by (simpl; rewrite <- app_assoc; reflexivity).
  rewrite strip_solid by (exact Hc || reflexivity).
  replace (c :: (a ++ " "%char :: b) ++ ["g"%char])
    with ((c :: a) ++ " "%char :: (b ++ ["g"%char]))
    by (simpl; rewrite <- app_assoc; reflexivity).
  rewrite split_two.
  - rewrite Hs, <- Hf, string_of_list_ascii_of_string. reflexivity.
  - discriminate.
  - now destruct b.
  - simpl. rewrite Ha. now apply negb_true_iff in Hc as ->.
  - rewrite no_space_app, Hb. reflexivity.
Qed.

Lemma omap_cons_Some {A B} (f : A -> option B) x y l :
  f x = Some y -> omap f (x :: l) = y :: omap f l.
Proof. intros H. simpl. now rewrite H. Qed.

(** The associations of an rgb.txt that holds the header and recorder
    lines are those lines. *)
Lemma associations_recorded stamps :
  associations ("# timestamp filename" :: map tum_line stamps)
  = map tum_line stamps.
Proof.
  unfold associations, entries.
  change (List.filter is_entry ("# timestamp filename" :: map tum_line stamps))
    with (List.filter is_entry (map tum_line stamps)).
  induction stamps as [| t stamps IH]; [reflexivity |].
  cbn [map List.filter]. rewrite tum_line_is_entry. cbn [map].
  rewrite (omap_cons_Some _ _ _ _ (tum_line_association t)).
  f_equal. exact IH.
Qed.

End AssociationFacts.

Module RgbTxtFacts.

Import Processor ProcessorFacts ProcessorFiles.

(** ** The lines of rgb.txt *)

(** Appending a line to the rgb.txt of a session leaves the other
    sessions as they are. *)
Lemma append_line_rgb_txt q fid line name :
  rgb_txt_on_disk (update_files q fid (append_line line)) name
  = rgb_txt_on_disk q name \/
  rgb_txt_on_disk (update_files q fid (append_line line)) name
  = session_files q name ≫= (fun d => Some (default [] (rgb_txt d) ++ [line])).
Proof.
  unfold rgb_txt_on_disk. rewrite session_files_update.
  destruct (decide (fid = name)) as [<- | Hne]; [right | left; reflexivity].
  now destruct (session_files q fid).
Qed.

(** The body of [process_frame] leaves an rgb.txt as it is or appends the
    line of one frame to it. *)
Lemma process_frame_body_rgb_txt p id st pkt name :
  let p' := fst (process_frame_body p id st pkt) in
  rgb_txt_on_disk p' name = rgb_txt_on_disk p name \/
  exists t,
    rgb_txt_on_disk p' name
    = session_files p name
      ≫= (fun d => Some (default [] (rgb_txt d) ++ [tum_line t])).
Proof.
  unfold process_frame_body. cbv zeta.
  repeat inner_case; cbn [fst]; unfold rgb_txt_on_disk;
    first
      [ left; look_through; reflexivity
      | look_through;
        match goal with
        | |- context [update_files ?q ?fid (append_line ?line)] =>
            let H := fresh "H" in
            destruct (append_line_rgb_txt q fid line name) as [H | H];
            unfold rgb_txt_on_disk in H; rewrite H;
            [left | right; eexists]; look_through; reflexivity
        end ].
Qed.

(** In a session whose rgb.txt holds the header and recorder lines, a
    frame leaves such an rgb.txt, at most one line longer. *)
Lemma process_frames_rgb_txt pkts : forall p id stamps,
  session_path p = Some id -> is_Some (stats p) ->
  rgb_txt_on_disk p id = Some ("# timestamp filename" :: map tum_line stamps) ->
  exists more,
    (length more <= length pkts)%nat /\
    rgb_txt_on_disk (process_frames p pkts) id
    = Some ("# timestamp filename" :: map tum_line (stamps ++ more)).
Proof.
  induction pkts as [| [[pkt now] clk] pkts IH]; intros p id stamps Hsp [st Hst] Hl;
    simpl.
  { exists []. rewrite app_nil_r. split; [reflexivity | exact Hl]. }
  rewrite (process_frame_in_session p pkt now clk id st Hsp Hst). simpl fst.
  destruct (process_frame_body_keeps p id st pkt) as (_ & Hsp' & _).
  destruct (process_frame_body_counts p id st pkt) as (st' & Hst' & _).
  destruct (process_frame_body_rgb_txt p id st pkt id) as [Hsame | [t Hmore]].
  - destruct (IH (fst (process_frame_body p id st pkt)) id stamps)
      as (more & Hlen & Hr); [congruence | by eexists | congruence |].
    exists more. split; [lia | exact Hr].
  - assert (rgb_txt_on_disk (fst (process_frame_body p id st pkt)) id
            = Some ("# timestamp filename" :: map tum_line (stamps ++ [t])))
      as Hl'.
    { rewrite Hmore. unfold rgb_txt_on_disk in Hl.
      destruct (session_files p id) as [d |]; [| discriminate].
      simpl in *. rewrite Hl. simpl. now rewrite map_app. }
    destruct (IH (fst (process_frame_body p id st pkt)) id (stamps ++ [t]))
      as (more & Hlen & Hr); [congruence | by eexists | exact Hl' |].
    exists (t :: more). split; [simpl; lia |].
    rewrite Hr. now rewrite <- app_assoc.
Qed.

End RgbTxtFacts.

Section BridgeCoverage.

Import Config Validate ValidateInvariants Processor Bridge BridgeFacts
       AssociationFacts RgbTxtFacts.



(** X20: validation gates the preparation.  With [validate] set, an
    invalid session is reported with the errors of its validation, the
    warnings dropped, and nothing is written; and a session that was
    prepared is valid, exists, holds at least MIN_FRAMES frame files, an
    rgb.txt and an intrinsics.json with an object in it, and its result
    carries every warning of the validation, followed at most by the
    failure of the associations file. *)
Theorem preparation_is_gated_by_validation (t : SessionPath) (s : SessionDir) :
  let v := validate_session s in
  (is_valid v = false ->
   prepare_session t s true
   = Prepared {| session := name s; success := false; config_path := None;
                 Bridge.errors := map Reported (Validate.errors v);
                 Bridge.warnings := [] |}
              nothing) /\
  (forall r w,
     prepare_session t s true = Prepared r w -> success r = true ->
     is_valid v = true /\ present s = true /\
     (exists entries, rgb s = Some entries /\
                      (MIN_FRAMES <= length (glob_jpg entries))%nat) /\
     is_Some (Validate.rgb_txt s) /\
     (exists d, Validate.intrinsics_json s = Some (Some (JDict d))) /\
     Bridge.warnings r
     = map Reported (Validate.warnings v)
       ++ match create_associations_file t s with
          | Some _ => []
          | None => [AssociationsFailed]
          end).
Proof.
  cbv zeta. unfold prepare_session. cbv zeta. split.
  - intros ->. reflexivity.
  - intros r w. destruct (is_valid (validate_session s)) eqn:Hv; cbn [negb].
    2: { intros [= <- <-]. discriminate. }
    destruct (valid_session_frames s Hv) as (Hp & Hframes).
    assert (forall r0, Bridge.errors r0 = [] -> success r0 = false ->
              config_path r0 = None ->
              Bridge.warnings r0 = map Reported (Validate.warnings (validate_session s)) ->
              prepare_files t s r0 = Prepared r w -> success r = true ->
              true = true /\ present s = true /\
              (exists entries, rgb s = Some entries /\
                               (MIN_FRAMES <= length (glob_jpg entries))%nat) /\
              is_Some (Validate.rgb_txt s) /\
              (exists d, Validate.intrinsics_json s = Some (Some (JDict d))) /\
              Bridge.warnings r
              = map Reported (Validate.warnings (validate_session s))
                ++ match create_associations_file t s with
                   | Some _ => []
                   | None => [AssociationsFailed]
                   end) as Hfiles.
    { intros r0 He Hs Hc Hw H Hsu.
      destruct (prepare_files_spec t s r0 r w He Hs Hc H)
        as (_ & _ & _ & _ & Hok).
      destruct (Hok Hsu) as (Hrgb & Hcfg & _ & _ & _ & Hws).
      split; [reflexivity |]. split; [exact Hp |]. split; [exact Hframes |].
      unfold file in Hrgb. rewrite Hp in Hrgb. split; [exact Hrgb |].
      split; [| now rewrite Hws, Hw].
      assert (is_Some (generate_monogs_config t s None)) as [res Hres].
      { rewrite Hcfg. destruct (prepare_files_spec t s r0 r w He Hs Hc H)
          as (_ & _ & Hsc & _). apply Hsc in Hsu.
        destruct (Hok ltac:(now apply Hsc)) as (_ & _ & Hcp & _).
        rewrite Hcp in Hsu. destruct (config w); [by eexists | by destruct Hsu]. }
      destruct (generate_monogs_config_object t s None res Hres) as [d Hd].
      unfold file in Hd. rewrite Hp in Hd. by exists d. }
    destruct (Validate.warnings (validate_session s)) eqn:Hws;
      now apply Hfiles.
Qed.

(** Two frames out of order, unreadable: reported, not prepared. *)
Lemma preparation_is_gated_by_validation_witness :
  prepare_session Examples.capture_path Examples.poor_session true
  = Prepared {| session := "session_20241222_153045"; success := false;
                config_path := None;
                Bridge.errors :=
                  [Reported (TooFewFrames 2); Reported (TooShort (-1));
                   Reported NotMonotonic; Reported ImageError];
                Bridge.warnings := [] |}
             nothing.
Proof.
  destruct (preparation_is_gated_by_validation Examples.capture_path
              Examples.poor_session) as [H _].
  rewrite H; [| vm_compute; reflexivity]. vm_compute. reflexivity.
Defined.

(** X21: the associations of a recorded session are its frames.  After
    [create_session] and any frames, rgb.txt holds its header and one
    line for each frame that got as far, at most as many as frames were
    handed in; and the associations file made from that rgb.txt holds
    exactly those lines, in their order, header left out. *)
Theorem associations_follow_the_recorded_frames
        (p : FrameProcessor) (sid : option string) (now : float) (clk : string)
        (pkts : list (FramePacket * float * string))
        (t : SessionPath) (s : SessionDir) :
  let id := match sid with Some id => id | None => clk end in
  let p' := process_frames (fst (create_session p sid now clk)) pkts in
  captures p !! id <> Some File ->
  present s = true -> Validate.rgb_txt s = Some <$> rgb_txt_on_disk p' id ->
  writable t (child t "associations.txt") = true ->
  exists stamps,
    (length stamps <= length pkts)%nat /\
    rgb_txt_on_disk p' id
    = Some ("# timestamp filename" :: map tum_line stamps) /\
    create_associations_file t s = Some (map tum_line stamps).
Proof.
  cbv zeta. intros Hfile Hp Hview Hw.
  set (id := match sid with Some id => id | None => clk end) in *.
  destruct (ProcessorFiles.create_session_fields p sid now clk Hfile)
    as (Hst & Hsp & _).
  destruct (ProcessorFiles.create_session_files p sid now clk id Hfile)
    as (_ & Hfiles).
  fold id in Hst, Hsp, Hfiles. rewrite decide_True in Hfiles by reflexivity.
  destruct (process_frames_rgb_txt pkts (fst (create_session p sid now clk))
              id [] Hsp) as (stamps & Hlen & Hr).
  { rewrite Hst. by eexists. }
  { unfold rgb_txt_on_disk. rewrite Hfiles. reflexivity. }
  exists stamps. split; [exact Hlen |]. split; [exact Hr |].
  unfold create_associations_file, file. rewrite Hp, Hview, Hr. simpl.
  rewrite Hw. f_equal. apply associations_recorded.
Qed.

(** Two frames recorded into a new session. *)
Lemma associations_follow_the_recorded_frames_witness :
  create_associations_file Examples.capture_path Examples.recorded_session
  = Some ["100.000000 rgb/100.000000.jpg"; "101.000000 rgb/101.000000.jpg"].
Proof.
  destruct (associations_follow_the_recorded_frames Examples.fresh
              (Some "session_a") 100 "session_20241222_153045"
              [(Examples.frame_at 100, 100.5%float, "session_20241222_153045");
               (Examples.frame_at 101, 101.5%float, "session_20241222_153045")]
              Examples.capture_path Examples.recorded_session)
    as (stamps & _ & Hr & Hc).
  - vm_compute. discriminate.
  - reflexivity.
  - vm_compute. reflexivity.
  - reflexivity.
  - rewrite Hc. f_equal.
    assert (rgb_txt_on_disk
              (process_frames
                 (fst (create_session Examples.fresh (Some "session_a") 100
                         "session_20241222_153045"))
                 [(Examples.frame_at 100, 100.5%float, "session_20241222_153045");
                  (Examples.frame_at 101, 101.5%float, "session_20241222_153045")])
              "session_a"
            = Some ["# timestamp filename"; "100.000000 rgb/100.000000.jpg";
                    "101.000000 rgb/101.000000.jpg"]) as Hdisk
      by (vm_compute; reflexivity).
    rewrite Hdisk in Hr. now injection Hr as <-.
Defined.

(** X22: a valid session with the intrinsics of the test client is
    prepared.  When the session exists, is valid (or is not validated),
    has an rgb.txt and holds what [generate_camera_intrinsics(w, h)]
    returns as its intrinsics, and the config can be written and the
    output directory made, [prepare_session] succeeds without an error;
    the camera of the config it writes to monogs_config.yaml has the
    height and width of the intrinsics, focal lengths of 1000.0 and the
    principal point at half the width and height. *)
Theorem client_session_is_prepared
        (t : SessionPath) (s : SessionDir) (validate : bool) (w h : Z)
        (intr : json) :
  (validate = true -> is_valid (validate_session s) = true) ->
  present s = true -> is_Some (Validate.rgb_txt s) ->
  Wire.generate_camera_intrinsics w h = Some intr ->
  Validate.intrinsics_json s = Some (Some intr) ->
  writable t (child t "monogs_config.yaml") = true -> mkdir_ok t = true ->
  exists r out cfg,
    prepare_session t s validate = Prepared r out /\
    success r = true /\ Bridge.errors r = [] /\
    config_path r = Some (child t "monogs_config.yaml") /\
    config out = Some (child t "monogs_config.yaml", JDict cfg) /\
    output_dir out = true /\
    PyJson.get cfg "camera" JNull
    = JDict [("H", JInt h); ("W", JInt w);
             ("fx", JFloat 1000); ("fy", JFloat 1000);
             ("cx", JFloat (Py.int_truediv w 2));
             ("cy", JFloat (Py.int_truediv h 2));
             ("png_depth_scale", JFloat 5000); ("crop_edge", JInt 0)].
Proof.
  intros Hv Hp [lines Hrgb] Hg Hi Hw Hm.
  unfold Wire.generate_camera_intrinsics, Wire.half in Hg.
  destruct (PrimFloat.is_infinity (Py.int_truediv w 2)); [discriminate |].
  destruct (PrimFloat.is_infinity (Py.int_truediv h 2)); [discriminate |].
  injection Hg as <-.
  assert (generate_monogs_config t s None
          = match build_config t
                    (JDict [("fx", JInt 1000); ("fy", JInt 1000);
                            ("cx", JFloat (Py.int_truediv w 2));
                            ("cy", JFloat (Py.int_truediv h 2));
                            ("width", JInt w); ("height", JInt h)]) with
            | Some cfg => Some (child t "monogs_config.yaml", cfg)
            | None => None
            end) as Hcfg.
  { unfold generate_monogs_config, file. rewrite Hp, Hi.
    destruct (build_config t _); [now rewrite Hw | reflexivity]. }
  assert (forall r0, Bridge.errors r0 = [] ->
            exists r out cfg,
              prepare_files t s r0 = Prepared r out /\
              success r = true /\ Bridge.errors r = [] /\
              config_path r = Some (child t "monogs_config.yaml") /\
              config out = Some (child t "monogs_config.yaml", JDict cfg) /\
              output_dir out = true /\
              PyJson.get cfg "camera" JNull
              = JDict [("H", JInt h); ("W", JInt w);
                       ("fx", JFloat 1000); ("fy", JFloat 1000);
                       ("cx", JFloat (Py.int_truediv w 2));
                       ("cy", JFloat (Py.int_truediv h 2));
                       ("png_depth_scale", JFloat 5000); ("crop_edge", JInt 0)])
    as Hfiles.
  { intros r0 He. unfold prepare_files. rewrite required_files_checked.
    assert (exists_ s "rgb.txt" = true) as ->.
    { rewrite exists_rgb_txt. unfold file. rewrite Hp, Hrgb.
      apply bool_decide_eq_true_2. by eexists. }
    assert (exists_ s "intrinsics.json" = true) as ->.
    { rewrite exists_intrinsics_json. unfold file. rewrite Hp, Hi.
      apply bool_decide_eq_true_2. by eexists. }
    unfold add_error. cbn [Bridge.errors]. rewrite !app_nil_r, He, Hcfg.
    unfold build_config, camera.
    cbn [PyJson.get String.eqb Ascii.eqb Bool.eqb PyJson.float_of].
    change (PrimFloat.is_infinity (Py.float_of_Z 1000)) with false.
    change (Py.float_of_Z 1000) with 1000%float.
    cbn [mbind option_bind]. rewrite Hm.
    eexists _, _, _. split; [reflexivity |].
    destruct (create_associations_file t s); simpl; repeat split; reflexivity. }
  unfold prepare_session. cbv zeta.
  destruct validate; [| now apply Hfiles].
  rewrite Hv by reflexivity. cbn [negb].
  destruct (Validate.warnings (validate_session s)); now apply Hfiles.
Qed.

(** The recorded session, without validation. *)
Lemma client_session_is_prepared_witness :
  exists r out,
    prepare_session Examples.capture_path Examples.recorded_session false
    = Prepared r out /\
    config_path r = Some "captures/session_20241222_153045/monogs_config.yaml".
Proof.
  destruct (client_session_is_prepared Examples.capture_path
              Examples.recorded_session false 720 1280 _
              ltac:(discriminate) eq_refl ltac:(by eexists) eq_refl eq_refl
              eq_refl eq_refl)
    as (r & out & cfg & H & _ & _ & Hc & _).
  exists r, out. split; [exact H | exact Hc].
Defined.

End BridgeCoverage.

(* ===================================================================== *)
(** * The statistics file of a session *)
(* ===================================================================== *)

Module StatsFileFacts.

Import Processor ProcessorFacts ProcessorFiles.

(** ** Who writes session_stats.json *)

Lemma save_item_stats_on_disk p name :
  stats_on_disk (save_item p) name = stats_on_disk p name.
Proof.
  unfold save_item, stats_on_disk.
  destruct (save_queue p) as [| [[id fname] data] rest]; [reflexivity |].
  rewrite update_files_field; [reflexivity |].
  intros d. now destruct (rgb_files d).
Qed.

Lemma worker_steps_stats_on_disk n : forall p name,
  stats_on_disk (worker_steps n p) name = stats_on_disk p name.
Proof.
  induction n as [| n IH]; intros p name; simpl; [reflexivity |].
  rewrite IH. unfold worker_step.
  destruct (running p); [apply save_item_stats_on_disk | reflexivity].
Qed.

Lemma drain_stats_on_disk fuel sched : forall k p p' name,
  drain fuel sched k p = Some p' ->
  stats_on_disk p' name = stats_on_disk p name.
Proof.
  induction fuel as [| fuel IH]; intros k p p' name; simpl;
    destruct (save_queue p); try discriminate;
    try (now intros [= <-]).
  intros H. rewrite (IH _ _ _ _ H). apply worker_steps_stats_on_disk.
Qed.

Lemma create_session_stats_on_disk p sid now clk name :
  stats_on_disk (fst (create_session p sid now clk)) name = stats_on_disk p name.
Proof.
  assert (captures p !! match sid with Some id => id | None => clk end
          = Some File \/
          captures p !! match sid with Some id => id | None => clk end
          <> Some File) as [Hfile | Hfile]
    by (destruct (captures p !! _) as [[| d] |]; auto; right; discriminate).
  - unfold create_session. cbv zeta. simpl captures. now rewrite Hfile.
  - unfold stats_on_disk.
    rewrite (proj2 (create_session_files p sid now clk name Hfile)).
    destruct (decide (_ = name)) as [<- | _]; [| reflexivity].
    destruct (session_files p _) as [d |]; simpl; [| reflexivity].
    now destruct (rgb_files d).
Qed.

(** Frames leave a session in place, and every session_stats.json as it
    is. *)
Lemma process_frames_in_place pkts : forall p id,
  session_in_place p id ->
  session_in_place (process_frames p pkts) id /\
  forall name,
    stats_on_disk (process_frames p pkts) name = stats_on_disk p name.
Proof.
  induction pkts as [| [[pkt now] clk] pkts IH];
    intros p id (Hsp & Hdir & st & Hst & Hid); simpl.
  { split; [| reflexivity]. split; [exact Hsp |]. split; [exact Hdir |].
    by exists st. }
  rewrite (process_frame_in_session p pkt now clk id st Hsp Hst). simpl fst.
  destruct (process_frame_body_keeps p id st pkt)
    as (_ & Hsp' & _ & _ & Hsome & _ & Hdisk).
  destruct (process_frame_body_counts p id st pkt) as (st' & Hst' & _ & Hid').
  destruct (IH (fst (process_frame_body p id st pkt)) id) as [Hin Hkeep].
  { split; [congruence |]. split; [now apply Hsome |].
    exists st'. split; [exact Hst' | congruence]. }
  split; [exact Hin |]. intros name. now rewrite Hkeep.
Qed.

(** [end_session] writes the statistics of the current session and of no
    other. *)
Lemma end_session_other fuel sched p now p' final name :
  end_session fuel sched p now = Ended p' final ->
  session_path p <> Some name ->
  stats_on_disk p' name = stats_on_disk p name.
Proof.
  unfold end_session.
  destruct (get_stats p now) as [stats0 |]; [| discriminate].
  destruct (drain fuel sched 0 p) as [p1 |] eqn:Hdr; [| discriminate].
  destruct (drain_keeps _ _ _ _ _ Hdr) as [_ Hsp1].
  pose proof (drain_stats_on_disk _ _ _ _ _ name Hdr) as Hd.
  cbv zeta. simpl session_path. rewrite Hsp1.
  destruct (session_path p) as [id |].
  - change (session_files (_close_files p1) id) with (session_files p1 id).
    destruct (session_files p1 id) as [d1 |]; [| discriminate].
    intros [= <- <-] Hne. rewrite <- Hd.
    change (session_files (update_files (_close_files p1) id
              (fun d => with_session_stats_json d (Some stats0))) name
            ≫= session_stats_json = session_files p1 name ≫= session_stats_json).
    rewrite session_files_update.
    destruct (decide (id = name)) as [-> | _]; [congruence | reflexivity].
  - intros [= <- <-] _. rewrite <- Hd. reflexivity.
Qed.

End StatsFileFacts.

Section StatisticsCoverage.

Import Processor ProcessorFacts ProcessorFiles StatsFileFacts.

(** X23: a session that is replaced never gets its statistics.  Only
    [end_session] writes session_stats.json, and only for the session
    that is current when it is called.  So when [create_session] starts a
    session under a new id, whatever session was being recorded keeps the
    session_stats.json it had (none, if it was never ended): the frames
    that follow and the [end_session] that returns leave it alone, and
    the statistics returned and written are those of the new session. *)
Theorem replaced_session_never_gets_its_statistics
        (p : FrameProcessor) (old new : string) (now : float) (clk : string)
        (pkts : list (FramePacket * float * string))
        (fuel : nat) (sched : nat -> nat) (now' : float)
        (p' : FrameProcessor) (final : pydict) :
  captures p !! new <> Some File -> old <> new ->
  end_session fuel sched
    (process_frames (fst (create_session p (Some new) now clk)) pkts) now'
  = Ended p' final ->
  stats_on_disk p' old = stats_on_disk p old /\
  stats_on_disk p' new = Some final /\
  PyJson.get final "session_id" JNull = JStr new.
Proof.
  intros Hfile Hne Hend.
  destruct (create_session_fields p (Some new) now clk Hfile)
    as (Hst & Hsp & _).
  destruct (create_session_files p (Some new) now clk new Hfile) as (_ & Hfiles).
  rewrite decide_True in Hfiles by reflexivity.
  set (p0 := fst (create_session p (Some new) now clk)) in *.
  assert (session_in_place p0 new) as Hin0.
  { split; [exact Hsp |]. split; [rewrite Hfiles; by eexists |].
    eexists. split; [exact Hst | reflexivity]. }
  destruct (process_frames_in_place pkts p0 new Hin0) as [Hin Hkeep].
  destruct (end_session_ended _ _ _ _ _ _ _ Hin Hend) as (Hgs & Hdisk & _).
  split; [| split; [exact Hdisk |]].
  - rewrite (end_session_other _ _ _ _ _ _ old Hend).
    + rewrite Hkeep. apply create_session_stats_on_disk.
    + destruct Hin as [-> _]. congruence.
  - destruct Hin as (_ & _ & st & Hst1 & Hid).
    unfold get_stats in Hgs. rewrite Hst1 in Hgs.
    simplify_option_eq. cbn [PyJson.get String.eqb Ascii.eqb Bool.eqb].
    reflexivity.
Qed.

(** A frame recorded in session_a, then session_b started and ended:
    session_a has no session_stats.json. *)
Lemma replaced_session_never_gets_its_statistics_witness :
  match end_session 1 (fun _ => 1%nat)
          (process_frames
             (fst (create_session
                     (Examples.feed 1 100
                        (start (Examples.session_started "session_a")))
                     (Some "session_b") 200 "session_20241222_153045"))
             [])
          300 with
  | Ended p' final =>
      stats_on_disk p' "session_a" = None /\
      stats_on_disk p' "session_b" = Some final
  | _ => False
  end.
Proof.
  destruct (end_session 1 (fun _ => 1%nat) _ 300) as [p' final | |] eqn:E;
    [| vm_compute in E; discriminate ..].
  eapply (replaced_session_never_gets_its_statistics _ "session_a") in E
    as (Hold & Hnew & _); [| vm_compute; discriminate | discriminate].
  split; [| exact Hnew]. rewrite Hold. vm_compute. reflexivity.
Defined.

End StatisticsCoverage.

(* ===================================================================== *)
(** * From the recorder to the validation: the names of the images *)
(* ===================================================================== *)

Module ReadBackFacts.

Import Py LineFacts.

(** ** The stem of an image name *)

Lemma rfind_dot_from_app l1 : forall i l2 found,
  rfind_dot_from i (l1 ++ l2) found
  = rfind_dot_from (i + length l1) l2 (rfind_dot_from i l1 found).
Proof.
  induction l1 as [| c l1 IH]; intros i l2 found; simpl.
  - now rewrite Nat.add_0_r.
  - rewrite IH. f_equal. lia.
Qed.

Lemma substring_prefix s t :
  String.substring 0 (String.length s) (s +:+ t) = s.
Proof. induction s as [| c s IH]; simpl; [now destruct t | now rewrite IH]. Qed.

Lemma length_list_ascii s :
  length (list_ascii_of_string s) = String.length s.
Proof. induction s as [| c s IH]; simpl; [reflexivity | now rewrite IH]. Qed.

Lemma string_length_append s t :
  String.length (s +:+ t) = (String.length s + String.length t)%nat.
Proof. induction s as [| c s IH]; simpl; [reflexivity | now rewrite IH]. Qed.

(** [Path(s + ".jpg").stem] is [s], dots in [s] or not. *)
Lemma stem_jpg s : s <> "" -> stem (s +:+ ".jpg") = s.
Proof.
  intros Hs. unfold stem, rfind_dot.
  rewrite list_ascii_append, rfind_dot_from_app. simpl.
  rewrite length_list_ascii, string_length_append. simpl.
  destruct s as [| c s]; [contradiction |].
  replace (0 <? String.length (String c s))%nat with true
    by (symmetry; apply Nat.ltb_lt; simpl; lia).
  replace (String.length (String c s) <? String.length (String c s) + 4 - 1)%nat
    with true by (symmetry; apply Nat.ltb_lt; lia).
  apply substring_prefix.
Qed.

(** ** Reading digits *)

(** A run of digits is read to its end, as the number it writes. *)
Lemma digit_run_digits ds : forall rest acc n,
  forallb is_digit ds = true ->
  match rest with
  | [] => True
  | c :: _ => is_digit c = false /\ c <> "_"%char
  end ->
  digit_run (ds ++ rest) acc n
  = (fold_left (fun a c => 10 * a + digit_val c) ds acc,
     n + Z.of_nat (length ds), rest).
Proof.
  induction ds as [| d ds IH]; intros rest acc n Hds Hrest.
  - simpl. rewrite Z.add_0_r. destruct rest as [| c rest]; [reflexivity |].
    destruct Hrest as [Hc Hu]. simpl. rewrite Hc.
    destruct (Ascii.eqb c "_") eqn:E; [| reflexivity].
    apply Ascii.eqb_eq in E. contradiction.
  - simpl in Hds. apply andb_true_iff in Hds as [Hd Hds]. cbn [app digit_run].
    rewrite Hd, IH by assumption. cbn [fold_left length].
    f_equal. f_equal. lia.
Qed.

Lemma value_shift ds : forall acc,
  fold_left (fun a c => 10 * a + digit_val c) ds acc
  = acc * 10 ^ Z.of_nat (length ds)
    + fold_left (fun a c => 10 * a + digit_val c) ds 0.
Proof.
  induction ds as [| d ds IH]; intros acc.
  - simpl. lia.
  - cbn [fold_left length]. rewrite IH, (IH (10 * 0 + digit_val d)).
    rewrite Nat2Z.inj_succ, Z.pow_succ_r by lia. ring.
Qed.

(** ** The number a decimal writes *)

Lemma uint_value_acc d : forall acc,
  fold_left (fun a c => 10 * a + digit_val c)
            (list_ascii_of_string (NilEmpty.string_of_uint d)) (Z.pos acc)
  = Z.pos (Pos.of_uint_acc d acc).
Proof.
  induction d; intros acc; cbn [NilEmpty.string_of_uint list_ascii_of_string
                                 fold_left Pos.of_uint_acc];
    try reflexivity; rewrite <- IHd; f_equal;
    match goal with
    | |- context [digit_val ?c] =>
        let v := eval vm_compute in (digit_val c) in
        change (digit_val c) with v
    end; lia.
Qed.

Lemma uint_value d :
  fold_left (fun a c => 10 * a + digit_val c)
            (list_ascii_of_string (NilEmpty.string_of_uint d)) 0
  = Z.of_N (Pos.of_uint d).
Proof.
  induction d; cbn [NilEmpty.string_of_uint list_ascii_of_string
                    fold_left Pos.of_uint];
    try reflexivity; try exact IHd; apply uint_value_acc.
Qed.

(** Reading [decimal z] gives [z] back. *)
Lemma decimal_value z :
  0 <= z ->
  fold_left (fun a c => 10 * a + digit_val c)
            (list_ascii_of_string (decimal z)) 0 = z.
Proof.
  intros Hz. unfold decimal, NilZero.string_of_uint.
  pose proof (DecimalN.Unsigned.of_to (Z.to_N z)) as Hof.
  unfold N.of_uint in Hof.
  pose proof (uint_value (N.to_uint (Z.to_N z))) as Hv.
  rewrite Hof, Z2N.id in Hv by exact Hz.
  destruct (N.to_uint (Z.to_N z)); exact Hv.
Qed.

(** ** The six digits after the point *)

Lemma digit_val_range c : is_digit c = true -> 0 <= digit_val c <= 9.
Proof. destruct c as [[] [] [] [] [] [] [] []]; vm_compute; intuition congruence. Qed.

Lemma value_nonneg ds : forall acc,
  forallb is_digit ds = true -> 0 <= acc ->
  0 <= fold_left (fun a c => 10 * a + digit_val c) ds acc.
Proof.
  induction ds as [| d ds IH]; intros acc Hds Hacc; simpl; [exact Hacc |].
  simpl in Hds. apply andb_true_iff in Hds as [Hd Hds].
  apply IH; [exact Hds |]. pose proof (digit_val_range d Hd). lia.
Qed.

(** A decimal without leading zero that writes a number below a million
    has six digits at most. *)
Lemma decimal_length r :
  0 <= r < 1000000 -> (String.length (decimal r) <= 6)%nat.
Proof.
  intros Hr. pose proof (decimal_value r (proj1 Hr)) as Hv. revert Hv.
  unfold decimal, NilZero.string_of_uint.
  pose proof (DecimalN.Unsigned.to_of (N.to_uint (Z.to_N r))) as Hn.
  rewrite DecimalN.Unsigned.of_to in Hn.
  pose proof (uint_digits (N.to_uint (Z.to_N r))) as Hd.
  destruct (N.to_uint (Z.to_N r)) as [| u | u | u | u | u | u | u | u | u | u];
    [simpl; lia | | ..].
  { intros _. rewrite DecimalFacts.unorm_D0 in Hn. unfold Decimal.unorm in Hn.
    pose proof (DecimalFacts.nzhead_nonzero u) as Hz.
    destruct (Decimal.nzhead u); try (now destruct (Hz _ eq_refl)); try discriminate.
    injection Hn as Hu. subst u. simpl. lia. }
  all: cbn [NilEmpty.string_of_uint list_ascii_of_string fold_left
            String.length];
    cbn [NilEmpty.string_of_uint list_ascii_of_string forallb] in Hd;
    apply andb_true_iff in Hd as [_ Hd];
    rewrite value_shift; intros Hv;
    pose proof (value_nonneg _ 0 Hd ltac:(lia)) as Hpos;
    rewrite length_list_ascii in Hv;
    match type of Hv with
    | context [digit_val ?c] =>
        let v := eval vm_compute in (digit_val c) in
        change (digit_val c) with v in Hv
    end;
    assert (10 ^ Z.of_nat (String.length (NilEmpty.string_of_uint u)) < 10 ^ 6)
      as Hlt by
      (pose proof (Z.pow_pos_nonneg 10
                     (Z.of_nat (String.length (NilEmpty.string_of_uint u)))
                     ltac:(lia) ltac:(lia)); nia);
    apply Z.pow_lt_mono_r_iff in Hlt; lia.
Qed.

(** The fraction [fixed_point] writes: six digits that read as [r]. *)
Lemma fraction_digits r :
  0 <= r < 1000000 ->
  let frac := list_ascii_of_string (zero_pad 6 (decimal r)) in
  forallb is_digit frac = true /\ length frac = 6%nat /\
  fold_left (fun a c => 10 * a + digit_val c) frac 0 = r.
Proof.
  intros Hr. cbv zeta. unfold zero_pad.
  rewrite list_ascii_append, list_ascii_of_string_of_list_ascii.
  pose proof (decimal_length r Hr) as Hlen.
  destruct (decimal_digits r) as (c & rest & Hl & Hc & Hrest).
  assert (forallb is_digit (list_ascii_of_string (decimal r)) = true) as Hd
    by (rewrite Hl; simpl; now rewrite Hc).
  split; [| split].
  - rewrite forallb_app, Hd, andb_true_r.
    generalize (6 - String.length (decimal r))%nat. intros n.
    induction n; simpl; [reflexivity | assumption].
  - rewrite length_app, repeat_length, length_list_ascii. lia.
  - rewrite fold_left_app.
    assert (forall n, fold_left (fun a c => 10 * a + digit_val c)
                        (repeat "0"%char n) 0 = 0) as ->
      by (intros n; induction n; simpl; [reflexivity | assumption]).
    apply decimal_value. lia.
Qed.

(** ** Reading what [fixed_point] writes *)

Lemma digit_no_letter c :
  is_digit c = true ->
  Ascii.eqb (lower c) "i" = false /\ Ascii.eqb (lower c) "n" = false /\
  Ascii.eqb c "-" = false /\ Ascii.eqb c "+" = false /\
  Ascii.eqb c "_" = false /\ Ascii.eqb c "." = false.
Proof.
  destruct c as [[] [] [] [] [] [] [] []]; vm_compute; intuition congruence.
Qed.

(** Digits, a point and digits are read as one integer and the number of
    digits after the point. *)
Lemma number_fixed c q f F :
  forallb is_digit (c :: q) = true -> forallb is_digit (f :: F) = true ->
  number ((c :: q) ++ "."%char :: f :: F)
  = Some (fold_left (fun a c => 10 * a + digit_val c) (f :: F)
            (fold_left (fun a c => 10 * a + digit_val c) (c :: q) 0),
          Z.of_nat (length (f :: F)), []).
Proof.
  intros HQ HF.
  simpl in HQ. apply andb_true_iff in HQ as [Hc Hq].
  simpl in HF. apply andb_true_iff in HF as [Hf HF].
  unfold number, digitpart_from. cbn [app]. rewrite Hc.
  rewrite (digit_run_digits q ("."%char :: f :: F)) by (try exact Hq; easy).
  change (Ascii.eqb "." ".") with true. cbv iota. rewrite Hf.
  rewrite <- (app_nil_r F) at 1.
  rewrite (digit_run_digits F []) by (try exact HF; easy).
  cbn [fold_left length]. f_equal. f_equal. f_equal. lia.
Qed.

(** [float] reads the text of [fixed_point] as the number it writes. *)
Lemma float_of_fixed_point neg n :
  0 <= n ->
  float_of_string (fixed_point 6 neg n) = Some (float_of_ratio neg n (10 ^ 6)).
Proof.
  intros Hn. unfold fixed_point.
  change (10 ^ Z.of_nat 6) with 1000000.
  pose proof (Z.div_mod n 1000000 ltac:(lia)) as Hdm.
  assert (0 <= n mod 1000000 < 1000000) as Hr by (apply Z.mod_pos_bound; lia).
  assert (0 <= n / 1000000) as Hq by (apply Z.div_pos; lia).
  destruct (fraction_digits _ Hr) as (HF & HlenF & HvF).
  destruct (decimal_digits (n / 1000000)) as (c & q & HQ & Hc & Hqd).
  pose proof (decimal_value _ Hq) as HvQ. rewrite HQ in HvQ.
  assert (forallb is_digit (c :: q) = true) as HQd by (simpl; now rewrite Hc).
  destruct (digit_no_letter c Hc) as (Hi & Hnn & Hminus & Hplus & _).
  destruct (list_ascii_of_string (zero_pad 6 (decimal (n mod 1000000))))
    as [| f1 [| f2 [| f3 [| f4 [| f5 [| f6 [| ? ?]]]]]]] eqn:EF;
    try discriminate.
  assert (is_space f6 = false) as Hf6.
  { apply digit_no_space. simpl in HF.
    repeat (apply andb_true_iff in HF as [? HF]). assumption. }
  assert (list_ascii_of_string
            ((if neg then "-" else "") +:+ decimal (n / 1000000) +:+ "." +:+
             zero_pad 6 (decimal (n mod 1000000)))
          = (if neg then ["-"%char] else [])
            ++ (c :: q) ++ "."%char :: [f1; f2; f3; f4; f5; f6]) as Hlist.
  { rewrite !list_ascii_append, HQ, EF. now destruct neg. }
  unfold float_of_string. rewrite Hlist.
  assert (strip ((if neg then ["-"%char] else [])
                 ++ (c :: q) ++ "."%char :: [f1; f2; f3; f4; f5; f6])
          = (if neg then ["-"%char] else [])
            ++ (c :: q) ++ "."%char :: [f1; f2; f3; f4; f5; f6]) as ->.
  { destruct neg.
    - change (["-"%char] ++ (c :: q) ++ "."%char :: [f1; f2; f3; f4; f5; f6])
        with ("-"%char :: ((c :: q) ++ "."%char :: [f1; f2; f3; f4; f5; f6])).
      replace ((c :: q) ++ "."%char :: [f1; f2; f3; f4; f5; f6])
        with (((c :: q) ++ "."%char :: [f1; f2; f3; f4; f5]) ++ [f6])
        by (rewrite <- app_assoc; reflexivity).
      apply strip_solid; [reflexivity | exact Hf6].
    - change ([] ++ (c :: q) ++ "."%char :: [f1; f2; f3; f4; f5; f6])
        with (c :: (q ++ "."%char :: [f1; f2; f3; f4; f5; f6])).
      replace (q ++ "."%char :: [f1; f2; f3; f4; f5; f6])
        with ((q ++ "."%char :: [f1; f2; f3; f4; f5]) ++ [f6])
        by (rewrite <- app_assoc; reflexivity).
      apply strip_solid; [now apply digit_no_space | exact Hf6]. }
  assert (sign ((if neg then ["-"%char] else [])
                ++ (c :: q) ++ "."%char :: [f1; f2; f3; f4; f5; f6])
          = (neg, (c :: q) ++ "."%char :: [f1; f2; f3; f4; f5; f6])) as ->.
  { destruct neg; [reflexivity |]. cbn [app sign]. now rewrite Hminus, Hplus. }
  cbn [app map string_of_list_ascii String.eqb]. rewrite Hi, Hnn. cbn [andb orb].
  change (c :: q ++ "."%char :: [f1; f2; f3; f4; f5; f6])
    with ((c :: q) ++ "."%char :: f1 :: [f2; f3; f4; f5; f6]).
  rewrite number_fixed by assumption.
  cbn [exponent length]. unfold scale10.
  change (0 <=? 0 - Z.of_nat 6) with false. cbv iota.
  change (- (0 - Z.of_nat 6)) with 6.
  rewrite value_shift, HvQ, HvF. cbn [length].
  change (10 ^ Z.of_nat 6) with 1000000.
  f_equal. f_equal. lia.
Qed.

Lemma scaled_digits_nonneg d m e : 0 <= scaled_digits d m e.
Proof.
  unfold scaled_digits. destruct (0 <=? e) eqn:He.
  - apply Z.leb_le in He.
    pose proof (Z.pow_nonneg 2 e ltac:(lia)).
    pose proof (Z.pow_nonneg 10 (Z.of_nat d) ltac:(lia)). nia.
  - apply Z.leb_gt in He. unfold round_half_even.
    assert (0 < 2 ^ (- e)) by (apply Z.pow_pos_nonneg; lia).
    assert (0 <= Z.pos m * 10 ^ Z.of_nat d)
      by (pose proof (Z.pow_nonneg 10 (Z.of_nat d) ltac:(lia)); nia).
    assert (0 <= Z.pos m * 10 ^ Z.of_nat d / 2 ^ (- e))
      by (apply Z.div_pos; lia).
    destruct (_ ?= _); [destruct (Z.even _) | |]; lia.
Qed.

Lemma format_6f_nonempty t : format_6f t <> "".
Proof.
  destruct (format_6f_word t) as (c & rest & H & _).
  intros E. rewrite E in H. discriminate.
Qed.

End ReadBackFacts.

Section TimestampCoverage.

Import Py Validate ReadBackFacts.

(** X24: validation reads back the timestamp a frame was saved under.
    From the name [process_frame] gives the image of a frame stamped [t],
    [parse_timestamp] gets the float nearest to [t] rounded to six
    decimals, whatever the size of [t]; zeros, infinities and NaN come
    back as they are.  The name always parses: the fallback 0.0 is never
    taken for a recorded frame. *)
Theorem recorded_timestamp_reads_back (t : float) :
  parse_timestamp (format_6f t +:+ ".jpg")
  = match Prim2SF t with
    | S754_finite s m e => float_of_ratio s (scaled_digits 6 m e) (10 ^ 6)
    | _ => t
    end /\
  is_Some (float_of_string (stem (format_6f t +:+ ".jpg"))).
Proof.
  unfold parse_timestamp. rewrite stem_jpg by apply format_6f_nonempty.
  pose proof (SF2Prim_Prim2SF t) as Ht. unfold format_6f.
  destruct (Prim2SF t) as [s | s | | s m e].
  - rewrite float_of_fixed_point by lia.
    split; [rewrite <- Ht; now destruct s | by eexists].
  - split; [rewrite <- Ht; now destruct s | destruct s; by eexists].
  - split; [rewrite <- Ht; reflexivity | by eexists].
  - rewrite float_of_fixed_point by apply scaled_digits_nonneg.
    split; [reflexivity | by eexists].
Qed.

End TimestampCoverage.
